(** * BLS consensus state and DKG dealer: a shallow embedding

    Sources embedded here:
    - [consensus/dkg_dealer.go]  (the DKG dealer and its transition queue)
    - [consensus/BLSState.go]    (the BLS extension of the round state machine)
    - [consensus/dkg_dealer_deal_mocks.go]  (two dealers that leave deals out)

    Go values are modelled as follows.  [int] and [int64] are [Z] with the
    64-bit wrap-around written out; byte slices are lists of bytes; a nil
    pointer or nil interface is [None]; a nil slice is the empty list; a Go
    map is a [gmap].  A Go panic is an outcome of its own, so that [defer]
    and [recover] can be followed. *)

From Stdlib Require Import ZArith Lia List String Bool Sorted Permutation.
From stdpp Require Import gmap strings list.

#[local] Open Scope Z_scope.

(** ** Go scalars *)

Definition wrap64 (z : Z) : Z := (z + 2 ^ 63) mod 2 ^ 64 - 2 ^ 63.
Definition add64 (a b : Z) : Z := wrap64 (a + b).
Definition sub64 (a b : Z) : Z := wrap64 (a - b).
Definition mul64 (a b : Z) : Z := wrap64 (a * b).
(** Go's [/] on integers truncates toward zero. *)
Definition quot64 (a b : Z) : Z := wrap64 (Z.quot a b).

Definition in_int64 (z : Z) : Prop := - 2 ^ 63 <= z < 2 ^ 63.

(** [len(x)] as a Go [int]. *)
Definition len {A : Type} (l : list A) : Z := Z.of_nat (length l).

Definition bytes : Type := list Byte.byte.

#[global] Instance byte_eq_dec : EqDecision Byte.byte := Byte.byte_eq_dec.

(** [bytes.Equal]: a nil slice and an empty slice are equal. *)
Definition bytes_Equal (a b : bytes) : bool := bool_decide (a = b).

(** ** Outcomes: normal return or panic, both with the state reached *)

Inductive outcome (S A : Type) : Type :=
| Returned (a : A) (s : S)
| Panicked (msg : string) (s : S).
Arguments Returned {S A} a s.
Arguments Panicked {S A} msg s.

Definition M (S A : Type) : Type := S -> outcome S A.

Definition ret {S A : Type} (a : A) : M S A := fun s => Returned a s.

Definition bind {S A B : Type} (c : M S A) (k : A -> M S B) : M S B :=
  fun s => match c s with
           | Returned a s' => k a s'
           | Panicked m s' => Panicked m s'
           end.

Definition panic {S A : Type} (msg : string) : M S A := fun s => Panicked msg s.
Definition gets {S A : Type} (f : S -> A) : M S A := fun s => Returned (f s) s.
Definition modify {S : Type} (f : S -> S) : M S unit := fun s => Returned tt (f s).

Declare Scope go_scope.
Delimit Scope go_scope with go.
Notation "x <~ c1 ;; c2" := (bind c1 (fun x => c2))
  (at level 100, c1 at next level, right associativity) : go_scope.
Notation "c1 ;;; c2" := (bind c1 (fun _ => c2))
  (at level 100, right associativity) : go_scope.

(** [when b c]: [if b { c }]. *)
Definition when {S : Type} (b : bool) (c : M S unit) : M S unit :=
  if b then c else ret tt.

(** A function body with a deferred call that does not recover: the deferred
    call runs on both exits; a panic of the body goes on after it, and a panic
    of the deferred call replaces it. *)
Definition defer {S A : Type} (body : M S A) (deferred : M S unit) : M S A :=
  fun s => match body s with
           | Returned a s1 =>
               match deferred s1 with
               | Returned _ s2 => Returned a s2
               | Panicked m s2 => Panicked m s2
               end
           | Panicked m s1 =>
               match deferred s1 with
               | Returned _ s2 => Panicked m s2
               | Panicked m' s2 => Panicked m' s2
               end
           end.

(** A deferred closure that starts with [if err := recover(); err != nil { h }]
    and then runs [rest]: a panic of the body stops there, the function returns
    normally once [rest] has run. *)
Definition defer_recover {S : Type} (body : M S unit)
    (h : string -> M S unit) (rest : M S unit) : M S unit :=
  fun s => match body s with
           | Returned _ s1 => rest s1
           | Panicked m s1 => bind (h m) (fun _ => rest) s1
           end.

(** ** Validators *)

Record Validator : Type := {
  val_Address : bytes;
  val_VotingPower : Z
}.

(** Modelled from the spec: [types.ValidatorSet] is declared outside the
    sources; section 3 gives it as an ordered collection with lookup by
    address and by index, and [Size] as the number of validators. *)
Record ValidatorSet : Type := {
  vs_Validators : list Validator
}.

Definition vs_Size (vs : ValidatorSet) : Z := len (vs_Validators vs).

Fixpoint vs_find (addr : bytes) (i : Z) (l : list Validator) : Z * option Validator :=
  match l with
  | [] => (-1, None)
  | v :: l' => if bytes_Equal (val_Address v) addr then (i, Some v)
               else vs_find addr (i + 1) l'
  end.

Definition vs_GetByAddress (vs : ValidatorSet) (addr : bytes) : Z * option Validator :=
  vs_find addr 0 (vs_Validators vs).

Definition vs_HasAddress (vs : ValidatorSet) (addr : bytes) : bool :=
  match snd (vs_GetByAddress vs addr) with Some _ => true | None => false end.

(** ** Votes, block identifiers and errors *)

Record PartSetHeader : Type := {
  psh_Total : Z;
  psh_Hash : bytes
}.

Record BlockID : Type := {
  bid_Hash : bytes;
  bid_PartsHeader : PartSetHeader
}.

(** [types.PartSetHeader{}], the zero value. *)
Definition PartSetHeader_zero : PartSetHeader := {| psh_Total := 0; psh_Hash := [] |}.

(** [types.SignedMsgType] is a byte; the three declared values and any other. *)
Inductive SignedMsgType : Type :=
| PrevoteType
| PrecommitType
| ProposalType
| UnknownMsgType (b : Z).

Definition is_PrecommitType (t : SignedMsgType) : bool :=
  match t with PrecommitType => true | _ => false end.

Record Vote : Type := {
  vote_Type : SignedMsgType;
  vote_Height : Z;
  vote_Round : Z;
  vote_Timestamp : Z;
  vote_BlockID : BlockID;
  vote_ValidatorAddress : bytes;
  vote_ValidatorIndex : Z;
  vote_Signature : bytes;
  vote_BLSSignature : bytes
}.

Record DuplicateVoteEvidence : Type := {
  dve_VoteA : Vote;
  dve_VoteB : Vote
}.

(** Go [error] values met in the two files: the package's sentinels, the
    conflicting-votes error with its evidence, [errors.New] and [fmt.Errorf]
    wrapping a cause. *)
Inductive error : Type :=
| ErrVoteHeightMismatch
| ErrAddingVote
| ErrDKGVerifierNotReady
| ErrVoteConflictingVotes (ev : DuplicateVoteEvidence)
| ErrorNew (msg : string)
| Errorf (msg : string) (cause : error).

Definition is_ErrVoteHeightMismatch (e : error) : bool :=
  match e with ErrVoteHeightMismatch => true | _ => false end.

(** ** DKG messages and events *)

Inductive DKGDataType : Type :=
| DKGPubKey | DKGDeal | DKGResponse | DKGJustification
| DKGCommits | DKGComplaint | DKGReconstructCommit.

Record DKGData : Type := {
  dd_Type : DKGDataType;
  dd_RoundID : Z;
  dd_Addr : bytes;
  dd_Data : option bytes;
  dd_ToIndex : Z;
  dd_NumEntities : Z
}.

Inductive DKGEvent : Type :=
| EventDKGPubKeyReceived
| EventDKGDealsProcessed
| EventDKGResponsesProcessed
| EventDKGJustificationsProcessed
| EventDKGInstanceCertified
| EventDKGCommitsProcessed
| EventDKGComplaintProcessed
| EventDKGReconstructCommitsProcessed.

Inductive Suite : Type := SuiteG1 | SuiteG2.

(** ** The kyber library (pairing suite, rabin DKG, gob encoding) as an interface

    The operations of [*dkg.DistKeyGenerator] change the generator; here they
    return the generator they leave behind. *)
Class Kyber : Type := {
  Point : Type;
  Scalar : Type;
  DistKeyGenerator : Type;
  Deal : Type;
  Response : Type;
  Justification : Type;
  SecretCommits : Type;
  ComplaintCommits : Type;
  ReconstructCommits : Type;
  DistKeyShare : Type;
  NewDistKeyGenerator :
    option Suite -> option Scalar -> list Point -> Z -> DistKeyGenerator + error;
  dkg_Deals : DistKeyGenerator -> DistKeyGenerator * (list (Z * Deal) + error);
  deal_Index : Deal -> Z;
  dkg_ProcessDeal : DistKeyGenerator -> Deal -> DistKeyGenerator * (Response + error);
  dkg_ProcessResponse :
    DistKeyGenerator -> Response -> DistKeyGenerator * (option Justification + error);
  dkg_ProcessJustification :
    DistKeyGenerator -> Justification -> DistKeyGenerator * option error;
  dkg_Certified : DistKeyGenerator -> bool;
  dkg_QUAL : DistKeyGenerator -> list Z;
  dkg_SecretCommits : DistKeyGenerator -> DistKeyGenerator * (SecretCommits + error);
  dkg_ProcessSecretCommits :
    DistKeyGenerator -> SecretCommits -> DistKeyGenerator * (option ComplaintCommits + error);
  dkg_ProcessComplaintCommits :
    DistKeyGenerator -> ComplaintCommits ->
    DistKeyGenerator * (option ReconstructCommits + error);
  dkg_ProcessReconstructCommits :
    DistKeyGenerator -> ReconstructCommits -> DistKeyGenerator * option error;
  dkg_Finished : DistKeyGenerator -> bool;
  dkg_DistKeyShare : DistKeyGenerator -> DistKeyShare + error;
  sc_Commitments : SecretCommits -> list Point;
  cc_DealCommitments : ComplaintCommits -> list Point;
  gob_Deal : Deal -> bytes + error;
  gob_Response : Response -> bytes + error;
  gob_Justification : Justification -> bytes + error;
  gob_SecretCommits : SecretCommits -> bytes + error;
  gob_ComplaintCommits : ComplaintCommits -> bytes + error
}.

(** ** The dealer *)

(** The closures a transition queue holds: the dealer's seven method values,
    and any other closure put there through [SetTransitions] (the mock dealers
    do so), numbered. *)
Inductive transition : Type :=
| tn_SendDeals
| tn_ProcessDeals
| tn_ProcessResponses
| tn_ProcessJustifications
| tn_ProcessCommits
| tn_ProcessComplaints
| tn_ProcessReconstructCommits
| tn_other (id : nat).

Record DealerState : Type := {
  validators : ValidatorSet;
  addrBytes : bytes;
  participantID : Z;
  roundID : Z
}.

Section Dealer.
Context `{K : Kyber}.

Record PK2Addr : Type := {
  pk_Addr : bytes;
  pk_PK : Point
}.

(** [eventFirer] and [sendMsgCb] are kept as what went through them so far. *)
Record DKGDealer : Type := {
  dealerState : DealerState;
  eventFirer : list (DKGEvent * option Z);
  sendMsgCb : list DKGData;
  pubKey : option Point;
  secKey : option Scalar;
  suiteG1 : option Suite;
  suiteG2 : option Suite;
  instance : option DistKeyGenerator;
  transitions : list transition;
  pubKeys : list PK2Addr;
  deals : gmap string Deal;
  responses : list Response;
  justifications : gmap string (option Justification);
  commits : list SecretCommits;
  complaints : list (option ComplaintCommits);
  reconstructCommits : list (option ReconstructCommits);
  losers : list bytes
}.

Definition set_dealerState (x : DealerState) (d : DKGDealer) : DKGDealer :=
  {| dealerState := x; eventFirer := eventFirer d; sendMsgCb := sendMsgCb d;
     pubKey := pubKey d; secKey := secKey d; suiteG1 := suiteG1 d; suiteG2 := suiteG2 d;
     instance := instance d; transitions := transitions d; pubKeys := pubKeys d;
     deals := deals d; responses := responses d; justifications := justifications d;
     commits := commits d; complaints := complaints d;
     reconstructCommits := reconstructCommits d; losers := losers d |}.

Definition set_eventFirer (x : list (DKGEvent * option Z)) (d : DKGDealer) : DKGDealer :=
  {| dealerState := dealerState d; eventFirer := x; sendMsgCb := sendMsgCb d;
     pubKey := pubKey d; secKey := secKey d; suiteG1 := suiteG1 d; suiteG2 := suiteG2 d;
     instance := instance d; transitions := transitions d; pubKeys := pubKeys d;
     deals := deals d; responses := responses d; justifications := justifications d;
     commits := commits d; complaints := complaints d;
     reconstructCommits := reconstructCommits d; losers := losers d |}.

Definition set_sendMsgCb (x : list DKGData) (d : DKGDealer) : DKGDealer :=
  {| dealerState := dealerState d; eventFirer := eventFirer d; sendMsgCb := x;
     pubKey := pubKey d; secKey := secKey d; suiteG1 := suiteG1 d; suiteG2 := suiteG2 d;
     instance := instance d; transitions := transitions d; pubKeys := pubKeys d;
     deals := deals d; responses := responses d; justifications := justifications d;
     commits := commits d; complaints := complaints d;
     reconstructCommits := reconstructCommits d; losers := losers d |}.

Definition set_instance (x : option DistKeyGenerator) (d : DKGDealer) : DKGDealer :=
  {| dealerState := dealerState d; eventFirer := eventFirer d; sendMsgCb := sendMsgCb d;
     pubKey := pubKey d; secKey := secKey d; suiteG1 := suiteG1 d; suiteG2 := suiteG2 d;
     instance := x; transitions := transitions d; pubKeys := pubKeys d;
     deals := deals d; responses := responses d; justifications := justifications d;
     commits := commits d; complaints := complaints d;
     reconstructCommits := reconstructCommits d; losers := losers d |}.

Definition set_transitions (x : list transition) (d : DKGDealer) : DKGDealer :=
  {| dealerState := dealerState d; eventFirer := eventFirer d; sendMsgCb := sendMsgCb d;
     pubKey := pubKey d; secKey := secKey d; suiteG1 := suiteG1 d; suiteG2 := suiteG2 d;
     instance := instance d; transitions := x; pubKeys := pubKeys d;
     deals := deals d; responses := responses d; justifications := justifications d;
     commits := commits d; complaints := complaints d;
     reconstructCommits := reconstructCommits d; losers := losers d |}.

Definition set_pubKeys (x : list PK2Addr) (d : DKGDealer) : DKGDealer :=
  {| dealerState := dealerState d; eventFirer := eventFirer d; sendMsgCb := sendMsgCb d;
     pubKey := pubKey d; secKey := secKey d; suiteG1 := suiteG1 d; suiteG2 := suiteG2 d;
     instance := instance d; transitions := transitions d; pubKeys := x;
     deals := deals d; responses := responses d; justifications := justifications d;
     commits := commits d; complaints := complaints d;
     reconstructCommits := reconstructCommits d; losers := losers d |}.

Definition set_losers (x : list bytes) (d : DKGDealer) : DKGDealer :=
  {| dealerState := dealerState d; eventFirer := eventFirer d; sendMsgCb := sendMsgCb d;
     pubKey := pubKey d; secKey := secKey d; suiteG1 := suiteG1 d; suiteG2 := suiteG2 d;
     instance := instance d; transitions := transitions d; pubKeys := pubKeys d;
     deals := deals d; responses := responses d; justifications := justifications d;
     commits := commits d; complaints := complaints d;
     reconstructCommits := reconstructCommits d; losers := x |}.

Definition set_participantID (x : Z) (d : DKGDealer) : DKGDealer :=
  set_dealerState
    {| validators := validators (dealerState d); addrBytes := addrBytes (dealerState d);
       participantID := x; roundID := roundID (dealerState d) |} d.

(** Dealer methods with a pointer receiver: computations on the dealer. *)
Definition D (A : Type) : Type := M DKGDealer A.

Definition nil_dereference : string := "invalid memory address or nil pointer dereference".
Definition slice_out_of_range : string := "slice bounds out of range".

(** [d.instance.Op(...)]: a nil [instance] panics, otherwise the generator the
    operation leaves behind is the one [instance] points to afterwards. *)
Definition on_instance {A : Type} (op : DistKeyGenerator -> DistKeyGenerator * A) : D A :=
  fun d => match instance d with
           | None => Panicked nil_dereference d
           | Some g => let (g', a) := op g in Returned a (set_instance (Some g') d)
           end.

(** A method of the generator that only reads it. *)
Definition read_instance {A : Type} (f : DistKeyGenerator -> A) : D A :=
  fun d => match instance d with
           | None => Panicked nil_dereference d
           | Some g => Returned (f g) d
           end.

Definition FireEvent (e : DKGEvent) (data : option Z) : D unit :=
  modify (fun d => set_eventFirer (eventFirer d ++ [(e, data)]) d).

(** [SendMsgCb], dkg_dealer.go lines 740-742. *)
Definition SendMsgCb (msg : DKGData) : D unit :=
  modify (fun d => set_sendMsgCb (sendMsgCb d ++ [msg]) d).

Fixpoint send_all (msgs : list DKGData) : D unit :=
  match msgs with
  | [] => ret tt
  | m :: rest => (SendMsgCb m ;;; send_all rest)%go
  end.

Definition Size : D Z := gets (fun d => vs_Size (validators (dealerState d))).

(** A [types.DKGData] literal with the fields every message sets. *)
Definition new_msg (t : DKGDataType) (d : DKGDealer) : DKGData :=
  {| dd_Type := t; dd_RoundID := roundID (dealerState d);
     dd_Addr := addrBytes (dealerState d); dd_Data := None;
     dd_ToIndex := 0; dd_NumEntities := 0 |}.

Definition with_Data (b : bytes) (n : Z) (m : DKGData) : DKGData :=
  {| dd_Type := dd_Type m; dd_RoundID := dd_RoundID m; dd_Addr := dd_Addr m;
     dd_Data := Some b; dd_ToIndex := dd_ToIndex m; dd_NumEntities := n |}.

Definition with_ToIndex (i : Z) (m : DKGData) : DKGData :=
  {| dd_Type := dd_Type m; dd_RoundID := dd_RoundID m; dd_Addr := dd_Addr m;
     dd_Data := dd_Data m; dd_ToIndex := i; dd_NumEntities := dd_NumEntities m |}.

(** [ResetDKGData], lines 152-167. *)
Definition ResetDKGData (d : DKGDealer) : DKGDealer :=
  {| dealerState := dealerState d; eventFirer := eventFirer d; sendMsgCb := sendMsgCb d;
     pubKey := None; secKey := None; suiteG1 := None; suiteG2 := None;
     instance := None; transitions := [];
     pubKeys := []; deals := ∅; responses := []; justifications := ∅;
     commits := []; complaints := []; reconstructCommits := [];
     losers := losers d |}.

(** [GenerateTransitions], lines 169-181, and [SetTransitions], 183-185. *)
Definition GenerateTransitions (d : DKGDealer) : DKGDealer :=
  set_transitions
    [ tn_SendDeals; tn_ProcessDeals; tn_ProcessResponses; tn_ProcessJustifications;
      tn_ProcessCommits; tn_ProcessComplaints; tn_ProcessReconstructCommits ] d.

Definition SetTransitions (t : list transition) (d : DKGDealer) : DKGDealer :=
  set_transitions t d.

(** [GetLosers], lines 187-195: one entry per loser, nil for an address the
    validator set does not hold. *)
Definition GetLosers (d : DKGDealer) : list (option Validator) :=
  map (fun loser => snd (vs_GetByAddress (validators (dealerState d)) loser)) (losers d).

(** *** The public-key store, lines 744-771 *)

Fixpoint bytes_ltb (a b : bytes) : bool :=
  match a, b with
  | _, [] => false
  | [], _ :: _ => true
  | x :: a', y :: b' =>
      if (Byte.to_N x <? Byte.to_N y)%N then true
      else if (Byte.to_N y <? Byte.to_N x)%N then false
      else bytes_ltb a' b'
  end.

(** [Less]: the addresses are compared through [String()], their upper-case
    hexadecimal text, which orders them as the bytes themselves. *)
Definition PKStore_Less (x y : PK2Addr) : bool := bytes_ltb (pk_Addr x) (pk_Addr y).

Fixpoint PKStore_insert (x : PK2Addr) (s : list PK2Addr) : list PK2Addr :=
  match s with
  | [] => [x]
  | y :: s' => if PKStore_Less y x then y :: PKStore_insert x s' else x :: y :: s'
  end.

(** [sort.Sort(d.pubKeys)]: the order among entries with one address is not
    fixed by Go; here the later entry goes first. *)
Definition PKStore_Sort (s : list PK2Addr) : list PK2Addr :=
  fold_right PKStore_insert [] s.

Definition GetPKs (s : list PK2Addr) : list Point := map pk_PK s.

(** *** Phase I *)

(** [IsReady], lines 236-238. *)
Definition IsReady (d : DKGDealer) : bool :=
  len (pubKeys d) =? vs_Size (validators (dealerState d)).

Fixpoint GetDeals_encode (ds : list (Z * Deal)) (dealMessages : list DKGData)
    : D (list DKGData * option error) :=
  match ds with
  | [] => ret (dealMessages, None)
  | (toIndex, deal) :: rest =>
      match gob_Deal deal with
      | inr err => ret (dealMessages, Some (Errorf "failed to encode deal" err))
      | inl b =>
          (m <~ gets (new_msg DKGDeal) ;;
           GetDeals_encode rest
             (dealMessages ++ [with_ToIndex toIndex (with_Data b 0 m)]))%go
      end
  end.

(** [GetDeals], lines 240-280.  The map of deals the generator returns is taken
    in one order, for the first deal and for the messages. *)
Definition GetDeals : D (list DKGData * option error) :=
  (modify (fun d => set_pubKeys (PKStore_Sort (pubKeys d)) d) ;;;
   n <~ Size ;;
   r <~ gets (fun d => NewDistKeyGenerator (suiteG2 d) (secKey d) (GetPKs (pubKeys d))
                         (quot64 (mul64 n 2) 3)) ;;
   match r with
   | inr err => ret ([], Some (Errorf "failed to create dkgState instance" err))
   | inl dkgInstance =>
       modify (set_instance (Some dkgInstance)) ;;;
       r <~ on_instance dkg_Deals ;;
       match r with
       | inr err => ret ([], Some (Errorf "failed to populate deals" err))
       | inl ds =>
           match ds with
           | (_, deal) :: _ => modify (set_participantID (deal_Index deal))
           | [] => ret tt
           end ;;;
           GetDeals_encode ds []
       end
   end)%go.

(** [SendDeals], lines 220-234. *)
Definition SendDeals : D (option error * bool) :=
  (ready <~ gets IsReady ;;
   if negb ready then ret (None, false)
   else
     FireEvent EventDKGPubKeyReceived None ;;;
     r <~ GetDeals ;;
     send_all (fst r) ;;;
     ret (snd r, true))%go.

(** [IsDealsReady], lines 327-329. *)
Definition IsDealsReady (d : DKGDealer) : bool :=
  sub64 (vs_Size (validators (dealerState d))) 1 <=? Z.of_nat (size (deals d)).

Fixpoint GetResponses_loop (ds : list Deal) (messages : list DKGData)
    : D (list DKGData * option error) :=
  match ds with
  | [] => ret (messages, None)
  | deal :: rest =>
      (r <~ on_instance (fun g => dkg_ProcessDeal g deal) ;;
       match r with
       | inr err => ret (messages, Some (Errorf "failed to ProcessDeal" err))
       | inl resp =>
           match gob_Response resp with
           | inr err => ret (messages, Some (Errorf "failed to encode response" err))
           | inl b =>
               m <~ gets (new_msg DKGResponse) ;;
               GetResponses_loop rest (messages ++ [with_Data b 0 m])
           end
       end)%go
  end.

(** [GetResponses], lines 331-357.  Go ranges over the map [d.deals] in an
    order it does not fix; the order here is that of [map_to_list]. *)
Definition GetResponses : D (list DKGData * option error) :=
  (ds <~ gets (fun d => map snd (map_to_list (deals d))) ;;
   r <~ GetResponses_loop ds [] ;;
   match snd r with
   | Some err => ret r
   | None =>
       rid <~ gets (fun d => roundID (dealerState d)) ;;
       FireEvent EventDKGDealsProcessed (Some rid) ;;;
       ret (fst r, None)
   end)%go.

(** [ProcessDeals], lines 313-325. *)
Definition ProcessDeals : D (option error * bool) :=
  (ready <~ gets IsDealsReady ;;
   if negb ready then ret (None, false)
   else
     r <~ GetResponses ;;
     send_all (fst r) ;;;
     ret (snd r, true))%go.

(** [IsResponsesReady], lines 398-400. *)
Definition IsResponsesReady (d : DKGDealer) : bool :=
  let n := vs_Size (validators (dealerState d)) in
  mul64 (sub64 n 1) (sub64 n 1) <=? len (responses d).

(** [processResponse], lines 402-424: the encoded justification, nil when the
    generator asks for none. *)
Definition processResponse (resp : Response) : D (option bytes * option error) :=
  (r <~ on_instance (fun g => dkg_ProcessResponse g resp) ;;
   match r with
   | inr err => ret (None, Some (Errorf "failed to ProcessResponse" err))
   | inl None => ret (None, None)
   | inl (Some justification) =>
       match gob_Justification justification with
       | inr err => ret (None, Some (Errorf "failed to encode response" err))
       | inl b => ret (Some b, None)
       end
   end)%go.

Definition set_Data (data : option bytes) (m : DKGData) : DKGData :=
  {| dd_Type := dd_Type m; dd_RoundID := dd_RoundID m; dd_Addr := dd_Addr m;
     dd_Data := data; dd_ToIndex := dd_ToIndex m; dd_NumEntities := dd_NumEntities m |}.

Fixpoint GetJustifications_loop (rs : list Response) (messages : list DKGData)
    : D (list DKGData * option error) :=
  match rs with
  | [] => ret (messages, None)
  | resp :: rest =>
      (msg <~ gets (new_msg DKGJustification) ;;
       r <~ processResponse resp ;;
       match snd r with
       | Some err => ret (messages, Some err)
       | None => GetJustifications_loop rest (messages ++ [set_Data (fst r) msg])
       end)%go
  end.

(** [GetJustifications], lines 426-448. *)
Definition GetJustifications : D (list DKGData * option error) :=
  (rs <~ gets responses ;;
   r <~ GetJustifications_loop rs [] ;;
   match snd r with
   | Some err => ret r
   | None =>
       rid <~ gets (fun d => roundID (dealerState d)) ;;
       FireEvent EventDKGResponsesProcessed (Some rid) ;;;
       ret (fst r, None)
   end)%go.

(** [ProcessResponses], lines 383-396. *)
Definition ProcessResponses : D (option error * bool) :=
  (ready <~ gets IsResponsesReady ;;
   if negb ready then ret (None, false)
   else
     r <~ GetJustifications ;;
     send_all (fst r) ;;;
     ret (snd r, true))%go.

(** [IsJustificationsReady], lines 504-506. *)
Definition IsJustificationsReady (d : DKGDealer) : bool :=
  vs_Size (validators (dealerState d)) <=? Z.of_nat (size (justifications d)).

Fixpoint GetCommits_justifications (js : list (option Justification)) : D (option error) :=
  match js with
  | [] => ret None
  | None :: rest => GetCommits_justifications rest
  | Some justification :: rest =>
      (r <~ on_instance (fun g => dkg_ProcessJustification g justification) ;;
       match r with
       | Some err => ret (Some (Errorf "failed to ProcessJustification" err))
       | None => GetCommits_justifications rest
       end)%go
  end.

(** The loop of lines 534-538: the addresses at the indices of the key store
    that [qualSet] does not hold, appended to [losers] in index order. *)
Fixpoint GetCommits_losers (qualSet : gset Z) (idx : Z) (pks : list PK2Addr)
    (losers : list bytes) : list bytes :=
  match pks with
  | [] => losers
  | pk2addr :: rest =>
      GetCommits_losers qualSet (idx + 1) rest
        (if bool_decide (idx ∈ qualSet) then losers else losers ++ [pk_Addr pk2addr])
  end.

(** The body of [GetCommits], lines 508-549, on the struct it runs on.  Go
    ranges over the map [d.justifications] in an order it does not fix; the
    order here is that of [map_to_list]. *)
Definition GetCommits_body : D (SecretCommits + error) :=
  (js <~ gets (fun d => map snd (map_to_list (justifications d))) ;;
   r <~ GetCommits_justifications js ;;
   match r with
   | Some err => ret (inr err)
   | None =>
       rid <~ gets (fun d => roundID (dealerState d)) ;;
       FireEvent EventDKGJustificationsProcessed (Some rid) ;;;
       certified <~ read_instance dkg_Certified ;;
       if negb certified then ret (inr (ErrorNew "instance is not certified"))
       else
         FireEvent EventDKGInstanceCertified (Some rid) ;;;
         qual <~ read_instance dkg_QUAL ;;
         n <~ Size ;;
         if len qual <? n then
           modify (fun d =>
             set_losers (GetCommits_losers (list_to_set qual) 0 (pubKeys d) (losers d)) d) ;;;
           ret (inr (ErrorNew "some of participants failed to complete phase I"))
         else
           r <~ on_instance dkg_SecretCommits ;;
           match r with
           | inr err => ret (inr (Errorf "failed to get commits" err))
           | inl commits => ret (inl commits)
           end
   end)%go.

(** What a method declared on [DKGDealer] rather than [*DKGDealer] leaves in
    the dealer it is called on: the body ran on a copy of the struct, so the
    fields assigned there are lost; what the copy and the dealer share is
    behind pointers and interfaces, here the generator [instance] points to,
    the event firer and the callback. *)
Definition after_value_receiver (d copy : DKGDealer) : DKGDealer :=
  set_instance (instance copy)
    (set_sendMsgCb (sendMsgCb copy) (set_eventFirer (eventFirer copy) d)).

Definition value_receiver {A : Type} (body : D A) : D A :=
  fun d => match body d with
           | Returned a copy => Returned a (after_value_receiver d copy)
           | Panicked m copy => Panicked m (after_value_receiver d copy)
           end.

(** [func (d DKGDealer) GetCommits()], line 508: the receiver is a value. *)
Definition GetCommits : D (SecretCommits + error) := value_receiver GetCommits_body.

(** [ProcessJustifications], lines 472-502. *)
Definition ProcessJustifications : D (option error * bool) :=
  (ready <~ gets IsJustificationsReady ;;
   if negb ready then ret (None, false)
   else
     r <~ GetCommits ;;
     match r with
     | inr err => ret (Some err, true)
     | inl commits =>
         match gob_SecretCommits commits with
         | inr err => ret (Some (Errorf "failed to encode response" err), true)
         | inl b =>
             m <~ gets (new_msg DKGCommits) ;;
             SendMsgCb (with_Data b (len (sc_Commitments commits)) m) ;;;
             ret (None, true)
         end
     end)%go.

(** *** Phase II *)

(** The loop of [ProcessCommits], lines 583-606: [alreadyFinished] and
    [messages] as the loop leaves them, or the error it returns with. *)
Fixpoint ProcessCommits_loop (cs : list SecretCommits) (alreadyFinished : bool)
    (messages : list DKGData) : D (bool * list DKGData + error) :=
  match cs with
  | [] => ret (inl (alreadyFinished, messages))
  | commits :: rest =>
      (msg <~ gets (new_msg DKGComplaint) ;;
       r <~ on_instance (fun g => dkg_ProcessSecretCommits g commits) ;;
       match r with
       | inr err => ret (inr (Errorf "failed to ProcessSecretCommits" err))
       | inl None => ProcessCommits_loop rest alreadyFinished (messages ++ [msg])
       | inl (Some complaint) =>
           match gob_ComplaintCommits complaint with
           | inr err => ret (inr (Errorf "failed to encode response" err))
           | inl b =>
               ProcessCommits_loop rest false
                 (messages ++ [with_Data b (len (cc_DealCommitments complaint)) msg])
           end
       end)%go
  end.

(** [ProcessCommits], lines 575-616. *)
Definition ProcessCommits : D (option error * bool) :=
  (cs <~ gets commits ;;
   qual <~ read_instance dkg_QUAL ;;
   if len cs <? len qual then ret (None, false)
   else
     r <~ ProcessCommits_loop cs true [] ;;
     match r with
     | inr err => ret (Some err, true)
     | inl (alreadyFinished, messages) =>
         rid <~ gets (fun d => roundID (dealerState d)) ;;
         FireEvent EventDKGCommitsProcessed (Some rid) ;;;
         when (negb alreadyFinished) (send_all messages) ;;;
         ret (None, true)
     end)%go.

Fixpoint ProcessComplaints_loop (cs : list (option ComplaintCommits)) : D (option error) :=
  match cs with
  | [] => ret None
  | None :: rest =>
      (msg <~ gets (new_msg DKGReconstructCommit) ;;
       SendMsgCb msg ;;;
       ProcessComplaints_loop rest)%go
  | Some complaint :: rest =>
      (msg <~ gets (new_msg DKGReconstructCommit) ;;
       r <~ on_instance (fun g => dkg_ProcessComplaintCommits g complaint) ;;
       match r with
       | inr err => ret (Some (Errorf "failed to ProcessComplaintCommits" err))
       | inl None => SendMsgCb msg ;;; ProcessComplaints_loop rest
       | inl (Some _) =>
           (* line 664 encodes [complaint], not the reconstruction message *)
           match gob_ComplaintCommits complaint with
           | inr err => ret (Some (Errorf "failed to encode response" err))
           | inl b => SendMsgCb (set_Data (Some b) msg) ;;; ProcessComplaints_loop rest
           end
       end)%go
  end.

(** [ProcessComplaints], lines 642-674. *)
Definition ProcessComplaints : D (option error * bool) :=
  (cs <~ gets complaints ;;
   qual <~ read_instance dkg_QUAL ;;
   if len cs <? sub64 (len qual) 1 then ret (None, false)
   else
     r <~ ProcessComplaints_loop cs ;;
     match r with
     | Some err => ret (Some err, true)
     | None =>
         rid <~ gets (fun d => roundID (dealerState d)) ;;
         FireEvent EventDKGComplaintProcessed (Some rid) ;;;
         ret (None, true)
     end)%go.

Fixpoint ProcessReconstructCommits_loop (rcs : list (option ReconstructCommits))
    : D (option error) :=
  match rcs with
  | [] => ret None
  | None :: rest => ProcessReconstructCommits_loop rest
  | Some rc :: rest =>
      (r <~ on_instance (fun g => dkg_ProcessReconstructCommits g rc) ;;
       match r with
       | Some err => ret (Some (Errorf "failed to ProcessReconstructCommits" err))
       | None => ProcessReconstructCommits_loop rest
       end)%go
  end.

(** [ProcessReconstructCommits], lines 695-715. *)
Definition ProcessReconstructCommits : D (option error * bool) :=
  (rcs <~ gets reconstructCommits ;;
   qual <~ read_instance dkg_QUAL ;;
   if len rcs <? sub64 (len qual) 1 then ret (None, false)
   else
     r <~ ProcessReconstructCommits_loop rcs ;;
     match r with
     | Some err => ret (Some err, true)
     | None =>
         rid <~ gets (fun d => roundID (dealerState d)) ;;
         FireEvent EventDKGReconstructCommitsProcessed (Some rid) ;;;
         finished <~ read_instance dkg_Finished ;;
         if negb finished then
           ret (Some (ErrorNew "dkgState round is finished, but dkgState instance is not ready"),
                true)
         else ret (None, true)
     end)%go.

(** The arguments [GetVerifier] hands to [types.NewBLSVerifier]: the key share
    the master public key and the private share come from, the share's index
    and public point, and the threshold parameters. *)
Record BLSVerifier : Type := {
  bls_keyShare : DistKeyShare;
  bls_ID : Z;
  bls_Pub : option Point;
  bls_t : Z;
  bls_n : Z
}.

(** [GetVerifier], lines 717-738. *)
Definition GetVerifier (d : DKGDealer) : BLSVerifier + error :=
  match instance d with
  | None => inr ErrDKGVerifierNotReady
  | Some g =>
      if negb (dkg_Finished g) then inr ErrDKGVerifierNotReady
      else
        match dkg_DistKeyShare g with
        | inr err => inr (Errorf "failed to get DistKeyShare" err)
        | inl distKeyShare =>
            let size := vs_Size (validators (dealerState d)) in
            inl {| bls_keyShare := distKeyShare;
                   bls_ID := participantID (dealerState d);
                   bls_Pub := pubKey d;
                   bls_t := mul64 (quot64 size 3) 2;
                   bls_n := size |}
        end
  end.

(** *** The transition queue *)

(** What the closures other than the dealer's own methods do when called. *)
Variable closure : nat -> D (option error * bool).

(** [tn()], for a closure of the queue. *)
Definition call (tn : transition) : D (option error * bool) :=
  match tn with
  | tn_SendDeals => SendDeals
  | tn_ProcessDeals => ProcessDeals
  | tn_ProcessResponses => ProcessResponses
  | tn_ProcessJustifications => ProcessJustifications
  | tn_ProcessCommits => ProcessCommits
  | tn_ProcessComplaints => ProcessComplaints
  | tn_ProcessReconstructCommits => ProcessReconstructCommits
  | tn_other id => closure id
  end.

(** [Transit], lines 136-150.  The loop has no bound of its own; [fuel] counts
    its iterations and [None] says that they did not suffice. *)
Fixpoint Transit (fuel : nat) (d : DKGDealer) : option (outcome DKGDealer (option error)) :=
  match fuel with
  | O => None
  | S fuel' =>
      match transitions d with
      | [] => Some (Returned None d)
      | tn :: _ =>
          match call tn d with
          | Panicked m d' => Some (Panicked m d')
          | Returned (err, ready) d' =>
              if negb ready then Some (Returned None d')
              else match err with
                   | Some e => Some (Returned (Some e) d')
                   | None =>
                       (* d.transitions = d.transitions[1:] *)
                       match transitions d' with
                       | [] => Some (Panicked slice_out_of_range d')
                       | _ :: rest => Transit fuel' (set_transitions rest d')
                       end
                   end
          end
      end
  end.

End Dealer.

(** ** The round state machine: data *)

(** [cstypes.RoundStepType], ordered by its byte value. *)
Inductive RoundStepType : Type :=
| RoundStepNewHeight
| RoundStepNewRound
| RoundStepPropose
| RoundStepPrevote
| RoundStepPrevoteWait
| RoundStepPrecommit
| RoundStepPrecommitWait
| RoundStepCommit.

Definition step_byte (s : RoundStepType) : Z :=
  match s with
  | RoundStepNewHeight => 1
  | RoundStepNewRound => 2
  | RoundStepPropose => 3
  | RoundStepPrevote => 4
  | RoundStepPrevoteWait => 5
  | RoundStepPrecommit => 6
  | RoundStepPrecommitWait => 7
  | RoundStepCommit => 8
  end.

Definition step_leb (a b : RoundStepType) : bool := step_byte a <=? step_byte b.
Definition step_eqb (a b : RoundStepType) : bool := step_byte a =? step_byte b.

Record types_Proposal : Type := {
  prop_Height : Z;
  prop_Round : Z;
  prop_POLRound : Z;
  prop_BlockID : BlockID
}.

(** [dkgtypes.Verifier], the threshold-signature object of the DKG library:
    an interface, so a record of its methods.  [VerifyRandomShare] gets the
    validator address the caller renders with [String()]. *)
Record Verifier : Type := {
  ver_Sign : bytes -> bytes * option error;
  ver_VerifyRandomShare : bytes -> bytes -> bytes -> option error;
  ver_VerifyRandomData : bytes -> bytes -> option error;
  ver_Recover : bytes -> list Vote -> bytes * option error
}.

(** [dkgtypes.DKG], as far as the state machine calls it. *)
Record DKG : Type := {
  dkg_Verifier : option Verifier
}.

(** The round-state snapshot an event carries. *)
Record RoundStateEvent : Type := {
  rse_Height : Z;
  rse_Round : Z;
  rse_Step : RoundStepType
}.

Inductive Event : Type :=
| EventNewRoundStep (rs : RoundStateEvent)
| EventPolka (rs : RoundStateEvent)
| EventUnlock (rs : RoundStateEvent)
| EventRelock (rs : RoundStateEvent)
| EventLock (rs : RoundStateEvent)
| EventValidBlock (rs : RoundStateEvent)
| EventVote (v : Vote).

Inductive WALMessage : Type :=
| WAL_RoundState (rs : RoundStateEvent)
| WAL_FlushAndSync.

(** [msgInfo{&VoteMessage{vote}, peerID}]. *)
Record msgInfo : Type := {
  mi_Vote : Vote;
  mi_PeerID : string
}.

(** The types of package [types] and [state] the state machine holds values
    of, with the methods it calls on them.  A method whose receiver may be a
    nil pointer takes an [option]. *)
Class Tendermint : Type := {
  Block : Type;
  PartSet : Type;
  VoteSet : Type;
  HeightVoteSet : Type;
  SmState : Type;
  BlockStore : Type;
  PrivValidator : Type;
  InitialRandomData : bytes;
  block_HashesTo : option Block -> bytes -> bool;
  block_RandomData : Block -> bytes;
  block_SetRandomData : bytes -> Block -> Block;
  (** [&types.Block{Header: types.Header{RandomData: d}}] *)
  block_of_RandomData : bytes -> Block;
  partset_HasHeader : option PartSet -> PartSetHeader -> bool;
  NewPartSetFromHeader : PartSetHeader -> PartSet;
  voteset_TwoThirdsMajority : option VoteSet -> option BlockID;
  voteset_HasTwoThirdsAny : option VoteSet -> bool;
  voteset_HasAll : option VoteSet -> bool;
  voteset_GetVotes : option VoteSet -> list Vote;
  voteset_AddVote : VoteSet -> Vote -> VoteSet * (bool * option error);
  hvs_Prevotes : HeightVoteSet -> Z -> option VoteSet;
  hvs_Precommits : HeightVoteSet -> Z -> option VoteSet;
  hvs_POLInfo : HeightVoteSet -> Z * BlockID;
  hvs_AddVote : HeightVoteSet -> Vote -> string -> HeightVoteSet * (bool * option error);
  blockExec_ValidateBlock : SmState -> option Block -> option error;
  blockStore_LoadBlock : BlockStore -> Z -> option Block;
  state_ChainID : SmState -> string;
  pv_Address : PrivValidator -> bytes;
  pv_SignData : PrivValidator -> string -> Vote -> PrivValidator * (Vote * option error)
}.

Section Consensus.
Context `{T : Tendermint}.

(** [BLSConsensusState] with the fields of the embedded [ConsensusState] and
    [RoundState] that the functions below read or write.  The evidence pool,
    the event bus, the event switch, the internal message queue and the WAL
    are kept as what was handed to them so far; [tmtime_Now] and [voteTime]
    are what [tmtime.Now()] and [cs.voteTime()] return. *)
Record BLSConsensusState : Type := {
  Height : Z;
  Round : Z;
  Step : RoundStepType;
  CommitTime : Z;
  Validators : ValidatorSet;
  Proposal : option types_Proposal;
  ProposalBlock : option Block;
  ProposalBlockParts : option PartSet;
  LockedRound : Z;
  LockedBlock : option Block;
  LockedBlockParts : option PartSet;
  ValidRound : Z;
  ValidBlock : option Block;
  ValidBlockParts : option PartSet;
  Votes : HeightVoteSet;
  CommitRound : Z;
  LastCommit : option VoteSet;
  TriggeredTimeoutPrecommit : bool;
  SkipTimeoutCommit : bool;
  state : SmState;
  blockStore : BlockStore;
  privValidator : option PrivValidator;
  dkg : option DKG;
  evpool : list DuplicateVoteEvidence;
  eventBus : list Event;
  evsw : list Event;
  internalMsgQueue : list msgInfo;
  wal : list WALMessage;
  nSteps : Z;
  tmtime_Now : Z;
  voteTime : Z
}.

Definition set_Round (x : Z) (cs : BLSConsensusState) : BLSConsensusState :=
  {| Height := Height cs; Round := x; Step := Step cs; CommitTime := CommitTime cs;
     Validators := Validators cs; Proposal := Proposal cs;
     ProposalBlock := ProposalBlock cs; ProposalBlockParts := ProposalBlockParts cs;
     LockedRound := LockedRound cs; LockedBlock := LockedBlock cs;
     LockedBlockParts := LockedBlockParts cs; ValidRound := ValidRound cs;
     ValidBlock := ValidBlock cs; ValidBlockParts := ValidBlockParts cs;
     Votes := Votes cs; CommitRound := CommitRound cs; LastCommit := LastCommit cs;
     TriggeredTimeoutPrecommit := TriggeredTimeoutPrecommit cs;
     SkipTimeoutCommit := SkipTimeoutCommit cs; state := state cs;
     blockStore := blockStore cs; privValidator := privValidator cs; dkg := dkg cs;
     evpool := evpool cs; eventBus := eventBus cs; evsw := evsw cs;
     internalMsgQueue := internalMsgQueue cs; wal := wal cs; nSteps := nSteps cs;
     tmtime_Now := tmtime_Now cs; voteTime := voteTime cs |}.

Definition set_Step (x : RoundStepType) (cs : BLSConsensusState) : BLSConsensusState :=
  {| Height := Height cs; Round := Round cs; Step := x; CommitTime := CommitTime cs;
     Validators := Validators cs; Proposal := Proposal cs;
     ProposalBlock := ProposalBlock cs; ProposalBlockParts := ProposalBlockParts cs;
     LockedRound := LockedRound cs; LockedBlock := LockedBlock cs;
     LockedBlockParts := LockedBlockParts cs; ValidRound := ValidRound cs;
     ValidBlock := ValidBlock cs; ValidBlockParts := ValidBlockParts cs;
     Votes := Votes cs; CommitRound := CommitRound cs; LastCommit := LastCommit cs;
     TriggeredTimeoutPrecommit := TriggeredTimeoutPrecommit cs;
     SkipTimeoutCommit := SkipTimeoutCommit cs; state := state cs;
     blockStore := blockStore cs; privValidator := privValidator cs; dkg := dkg cs;
     evpool := evpool cs; eventBus := eventBus cs; evsw := evsw cs;
     internalMsgQueue := internalMsgQueue cs; wal := wal cs; nSteps := nSteps cs;
     tmtime_Now := tmtime_Now cs; voteTime := voteTime cs |}.

Definition set_CommitTime (x : Z) (cs : BLSConsensusState) : BLSConsensusState :=
  {| Height := Height cs; Round := Round cs; Step := Step cs; CommitTime := x;
     Validators := Validators cs; Proposal := Proposal cs;
     ProposalBlock := ProposalBlock cs; ProposalBlockParts := ProposalBlockParts cs;
     LockedRound := LockedRound cs; LockedBlock := LockedBlock cs;
     LockedBlockParts := LockedBlockParts cs; ValidRound := ValidRound cs;
     ValidBlock := ValidBlock cs; ValidBlockParts := ValidBlockParts cs;
     Votes := Votes cs; CommitRound := CommitRound cs; LastCommit := LastCommit cs;
     TriggeredTimeoutPrecommit := TriggeredTimeoutPrecommit cs;
     SkipTimeoutCommit := SkipTimeoutCommit cs; state := state cs;
     blockStore := blockStore cs; privValidator := privValidator cs; dkg := dkg cs;
     evpool := evpool cs; eventBus := eventBus cs; evsw := evsw cs;
     internalMsgQueue := internalMsgQueue cs; wal := wal cs; nSteps := nSteps cs;
     tmtime_Now := tmtime_Now cs; voteTime := voteTime cs |}.

Definition set_ProposalBlock (x : option Block) (cs : BLSConsensusState) : BLSConsensusState :=
  {| Height := Height cs; Round := Round cs; Step := Step cs;
     CommitTime := CommitTime cs; Validators := Validators cs; Proposal := Proposal cs;
     ProposalBlock := x; ProposalBlockParts := ProposalBlockParts cs;
     LockedRound := LockedRound cs; LockedBlock := LockedBlock cs;
     LockedBlockParts := LockedBlockParts cs; ValidRound := ValidRound cs;
     ValidBlock := ValidBlock cs; ValidBlockParts := ValidBlockParts cs;
     Votes := Votes cs; CommitRound := CommitRound cs; LastCommit := LastCommit cs;
     TriggeredTimeoutPrecommit := TriggeredTimeoutPrecommit cs;
     SkipTimeoutCommit := SkipTimeoutCommit cs; state := state cs;
     blockStore := blockStore cs; privValidator := privValidator cs; dkg := dkg cs;
     evpool := evpool cs; eventBus := eventBus cs; evsw := evsw cs;
     internalMsgQueue := internalMsgQueue cs; wal := wal cs; nSteps := nSteps cs;
     tmtime_Now := tmtime_Now cs; voteTime := voteTime cs |}.

Definition set_ProposalBlockParts (x : option PartSet) (cs : BLSConsensusState) : BLSConsensusState :=
  {| Height := Height cs; Round := Round cs; Step := Step cs;
     CommitTime := CommitTime cs; Validators := Validators cs; Proposal := Proposal cs;
     ProposalBlock := ProposalBlock cs; ProposalBlockParts := x;
     LockedRound := LockedRound cs; LockedBlock := LockedBlock cs;
     LockedBlockParts := LockedBlockParts cs; ValidRound := ValidRound cs;
     ValidBlock := ValidBlock cs; ValidBlockParts := ValidBlockParts cs;
     Votes := Votes cs; CommitRound := CommitRound cs; LastCommit := LastCommit cs;
     TriggeredTimeoutPrecommit := TriggeredTimeoutPrecommit cs;
     SkipTimeoutCommit := SkipTimeoutCommit cs; state := state cs;
     blockStore := blockStore cs; privValidator := privValidator cs; dkg := dkg cs;
     evpool := evpool cs; eventBus := eventBus cs; evsw := evsw cs;
     internalMsgQueue := internalMsgQueue cs; wal := wal cs; nSteps := nSteps cs;
     tmtime_Now := tmtime_Now cs; voteTime := voteTime cs |}.

Definition set_LockedRound (x : Z) (cs : BLSConsensusState) : BLSConsensusState :=
  {| Height := Height cs; Round := Round cs; Step := Step cs;
     CommitTime := CommitTime cs; Validators := Validators cs; Proposal := Proposal cs;
     ProposalBlock := ProposalBlock cs; ProposalBlockParts := ProposalBlockParts cs;
     LockedRound := x; LockedBlock := LockedBlock cs;
     LockedBlockParts := LockedBlockParts cs; ValidRound := ValidRound cs;
     ValidBlock := ValidBlock cs; ValidBlockParts := ValidBlockParts cs;
     Votes := Votes cs; CommitRound := CommitRound cs; LastCommit := LastCommit cs;
     TriggeredTimeoutPrecommit := TriggeredTimeoutPrecommit cs;
     SkipTimeoutCommit := SkipTimeoutCommit cs; state := state cs;
     blockStore := blockStore cs; privValidator := privValidator cs; dkg := dkg cs;
     evpool := evpool cs; eventBus := eventBus cs; evsw := evsw cs;
     internalMsgQueue := internalMsgQueue cs; wal := wal cs; nSteps := nSteps cs;
     tmtime_Now := tmtime_Now cs; voteTime := voteTime cs |}.

Definition set_LockedBlock (x : option Block) (cs : BLSConsensusState) : BLSConsensusState :=
  {| Height := Height cs; Round := Round cs; Step := Step cs;
     CommitTime := CommitTime cs; Validators := Validators cs; Proposal := Proposal cs;
     ProposalBlock := ProposalBlock cs; ProposalBlockParts := ProposalBlockParts cs;
     LockedRound := LockedRound cs; LockedBlock := x;
     LockedBlockParts := LockedBlockParts cs; ValidRound := ValidRound cs;
     ValidBlock := ValidBlock cs; ValidBlockParts := ValidBlockParts cs;
     Votes := Votes cs; CommitRound := CommitRound cs; LastCommit := LastCommit cs;
     TriggeredTimeoutPrecommit := TriggeredTimeoutPrecommit cs;
     SkipTimeoutCommit := SkipTimeoutCommit cs; state := state cs;
     blockStore := blockStore cs; privValidator := privValidator cs; dkg := dkg cs;
     evpool := evpool cs; eventBus := eventBus cs; evsw := evsw cs;
     internalMsgQueue := internalMsgQueue cs; wal := wal cs; nSteps := nSteps cs;
     tmtime_Now := tmtime_Now cs; voteTime := voteTime cs |}.

Definition set_LockedBlockParts (x : option PartSet) (cs : BLSConsensusState) : BLSConsensusState :=
  {| Height := Height cs; Round := Round cs; Step := Step cs;
     CommitTime := CommitTime cs; Validators := Validators cs; Proposal := Proposal cs;
     ProposalBlock := ProposalBlock cs; ProposalBlockParts := ProposalBlockParts cs;
     LockedRound := LockedRound cs; LockedBlock := LockedBlock cs; LockedBlockParts := x;
     ValidRound := ValidRound cs; ValidBlock := ValidBlock cs;
     ValidBlockParts := ValidBlockParts cs; Votes := Votes cs;
     CommitRound := CommitRound cs; LastCommit := LastCommit cs;
     TriggeredTimeoutPrecommit := TriggeredTimeoutPrecommit cs;
     SkipTimeoutCommit := SkipTimeoutCommit cs; state := state cs;
     blockStore := blockStore cs; privValidator := privValidator cs; dkg := dkg cs;
     evpool := evpool cs; eventBus := eventBus cs; evsw := evsw cs;
     internalMsgQueue := internalMsgQueue cs; wal := wal cs; nSteps := nSteps cs;
     tmtime_Now := tmtime_Now cs; voteTime := voteTime cs |}.

Definition set_ValidRound (x : Z) (cs : BLSConsensusState) : BLSConsensusState :=
  {| Height := Height cs; Round := Round cs; Step := Step cs;
     CommitTime := CommitTime cs; Validators := Validators cs; Proposal := Proposal cs;
     ProposalBlock := ProposalBlock cs; ProposalBlockParts := ProposalBlockParts cs;
     LockedRound := LockedRound cs; LockedBlock := LockedBlock cs;
     LockedBlockParts := LockedBlockParts cs; ValidRound := x;
     ValidBlock := ValidBlock cs; ValidBlockParts := ValidBlockParts cs;
     Votes := Votes cs; CommitRound := CommitRound cs; LastCommit := LastCommit cs;
     TriggeredTimeoutPrecommit := TriggeredTimeoutPrecommit cs;
     SkipTimeoutCommit := SkipTimeoutCommit cs; state := state cs;
     blockStore := blockStore cs; privValidator := privValidator cs; dkg := dkg cs;
     evpool := evpool cs; eventBus := eventBus cs; evsw := evsw cs;
     internalMsgQueue := internalMsgQueue cs; wal := wal cs; nSteps := nSteps cs;
     tmtime_Now := tmtime_Now cs; voteTime := voteTime cs |}.

Definition set_ValidBlock (x : option Block) (cs : BLSConsensusState) : BLSConsensusState :=
  {| Height := Height cs; Round := Round cs; Step := Step cs;
     CommitTime := CommitTime cs; Validators := Validators cs; Proposal := Proposal cs;
     ProposalBlock := ProposalBlock cs; ProposalBlockParts := ProposalBlockParts cs;
     LockedRound := LockedRound cs; LockedBlock := LockedBlock cs;
     LockedBlockParts := LockedBlockParts cs; ValidRound := ValidRound cs;
     ValidBlock := x; ValidBlockParts := ValidBlockParts cs; Votes := Votes cs;
     CommitRound := CommitRound cs; LastCommit := LastCommit cs;
     TriggeredTimeoutPrecommit := TriggeredTimeoutPrecommit cs;
     SkipTimeoutCommit := SkipTimeoutCommit cs; state := state cs;
     blockStore := blockStore cs; privValidator := privValidator cs; dkg := dkg cs;
     evpool := evpool cs; eventBus := eventBus cs; evsw := evsw cs;
     internalMsgQueue := internalMsgQueue cs; wal := wal cs; nSteps := nSteps cs;
     tmtime_Now := tmtime_Now cs; voteTime := voteTime cs |}.

Definition set_ValidBlockParts (x : option PartSet) (cs : BLSConsensusState) : BLSConsensusState :=
  {| Height := Height cs; Round := Round cs; Step := Step cs;
     CommitTime := CommitTime cs; Validators := Validators cs; Proposal := Proposal cs;
     ProposalBlock := ProposalBlock cs; ProposalBlockParts := ProposalBlockParts cs;
     LockedRound := LockedRound cs; LockedBlock := LockedBlock cs;
     LockedBlockParts := LockedBlockParts cs; ValidRound := ValidRound cs;
     ValidBlock := ValidBlock cs; ValidBlockParts := x; Votes := Votes cs;
     CommitRound := CommitRound cs; LastCommit := LastCommit cs;
     TriggeredTimeoutPrecommit := TriggeredTimeoutPrecommit cs;
     SkipTimeoutCommit := SkipTimeoutCommit cs; state := state cs;
     blockStore := blockStore cs; privValidator := privValidator cs; dkg := dkg cs;
     evpool := evpool cs; eventBus := eventBus cs; evsw := evsw cs;
     internalMsgQueue := internalMsgQueue cs; wal := wal cs; nSteps := nSteps cs;
     tmtime_Now := tmtime_Now cs; voteTime := voteTime cs |}.

Definition set_Votes (x : HeightVoteSet) (cs : BLSConsensusState) : BLSConsensusState :=
  {| Height := Height cs; Round := Round cs; Step := Step cs;
     CommitTime := CommitTime cs; Validators := Validators cs; Proposal := Proposal cs;
     ProposalBlock := ProposalBlock cs; ProposalBlockParts := ProposalBlockParts cs;
     LockedRound := LockedRound cs; LockedBlock := LockedBlock cs;
     LockedBlockParts := LockedBlockParts cs; ValidRound := ValidRound cs;
     ValidBlock := ValidBlock cs; ValidBlockParts := ValidBlockParts cs; Votes := x;
     CommitRound := CommitRound cs; LastCommit := LastCommit cs;
     TriggeredTimeoutPrecommit := TriggeredTimeoutPrecommit cs;
     SkipTimeoutCommit := SkipTimeoutCommit cs; state := state cs;
     blockStore := blockStore cs; privValidator := privValidator cs; dkg := dkg cs;
     evpool := evpool cs; eventBus := eventBus cs; evsw := evsw cs;
     internalMsgQueue := internalMsgQueue cs; wal := wal cs; nSteps := nSteps cs;
     tmtime_Now := tmtime_Now cs; voteTime := voteTime cs |}.

Definition set_CommitRound (x : Z) (cs : BLSConsensusState) : BLSConsensusState :=
  {| Height := Height cs; Round := Round cs; Step := Step cs;
     CommitTime := CommitTime cs; Validators := Validators cs; Proposal := Proposal cs;
     ProposalBlock := ProposalBlock cs; ProposalBlockParts := ProposalBlockParts cs;
     LockedRound := LockedRound cs; LockedBlock := LockedBlock cs;
     LockedBlockParts := LockedBlockParts cs; ValidRound := ValidRound cs;
     ValidBlock := ValidBlock cs; ValidBlockParts := ValidBlockParts cs;
     Votes := Votes cs; CommitRound := x; LastCommit := LastCommit cs;
     TriggeredTimeoutPrecommit := TriggeredTimeoutPrecommit cs;
     SkipTimeoutCommit := SkipTimeoutCommit cs; state := state cs;
     blockStore := blockStore cs; privValidator := privValidator cs; dkg := dkg cs;
     evpool := evpool cs; eventBus := eventBus cs; evsw := evsw cs;
     internalMsgQueue := internalMsgQueue cs; wal := wal cs; nSteps := nSteps cs;
     tmtime_Now := tmtime_Now cs; voteTime := voteTime cs |}.

Definition set_LastCommit (x : option VoteSet) (cs : BLSConsensusState) : BLSConsensusState :=
  {| Height := Height cs; Round := Round cs; Step := Step cs;
     CommitTime := CommitTime cs; Validators := Validators cs; Proposal := Proposal cs;
     ProposalBlock := ProposalBlock cs; ProposalBlockParts := ProposalBlockParts cs;
     LockedRound := LockedRound cs; LockedBlock := LockedBlock cs;
     LockedBlockParts := LockedBlockParts cs; ValidRound := ValidRound cs;
     ValidBlock := ValidBlock cs; ValidBlockParts := ValidBlockParts cs;
     Votes := Votes cs; CommitRound := CommitRound cs; LastCommit := x;
     TriggeredTimeoutPrecommit := TriggeredTimeoutPrecommit cs;
     SkipTimeoutCommit := SkipTimeoutCommit cs; state := state cs;
     blockStore := blockStore cs; privValidator := privValidator cs; dkg := dkg cs;
     evpool := evpool cs; eventBus := eventBus cs; evsw := evsw cs;
     internalMsgQueue := internalMsgQueue cs; wal := wal cs; nSteps := nSteps cs;
     tmtime_Now := tmtime_Now cs; voteTime := voteTime cs |}.

Definition set_privValidator (x : option PrivValidator) (cs : BLSConsensusState) : BLSConsensusState :=
  {| Height := Height cs; Round := Round cs; Step := Step cs;
     CommitTime := CommitTime cs; Validators := Validators cs; Proposal := Proposal cs;
     ProposalBlock := ProposalBlock cs; ProposalBlockParts := ProposalBlockParts cs;
     LockedRound := LockedRound cs; LockedBlock := LockedBlock cs;
     LockedBlockParts := LockedBlockParts cs; ValidRound := ValidRound cs;
     ValidBlock := ValidBlock cs; ValidBlockParts := ValidBlockParts cs;
     Votes := Votes cs; CommitRound := CommitRound cs; LastCommit := LastCommit cs;
     TriggeredTimeoutPrecommit := TriggeredTimeoutPrecommit cs;
     SkipTimeoutCommit := SkipTimeoutCommit cs; state := state cs;
     blockStore := blockStore cs; privValidator := x; dkg := dkg cs; evpool := evpool cs;
     eventBus := eventBus cs; evsw := evsw cs; internalMsgQueue := internalMsgQueue cs;
     wal := wal cs; nSteps := nSteps cs; tmtime_Now := tmtime_Now cs; voteTime := voteTime cs |}.

Definition set_evpool (x : list DuplicateVoteEvidence) (cs : BLSConsensusState) : BLSConsensusState :=
  {| Height := Height cs; Round := Round cs; Step := Step cs;
     CommitTime := CommitTime cs; Validators := Validators cs; Proposal := Proposal cs;
     ProposalBlock := ProposalBlock cs; ProposalBlockParts := ProposalBlockParts cs;
     LockedRound := LockedRound cs; LockedBlock := LockedBlock cs;
     LockedBlockParts := LockedBlockParts cs; ValidRound := ValidRound cs;
     ValidBlock := ValidBlock cs; ValidBlockParts := ValidBlockParts cs;
     Votes := Votes cs; CommitRound := CommitRound cs; LastCommit := LastCommit cs;
     TriggeredTimeoutPrecommit := TriggeredTimeoutPrecommit cs;
     SkipTimeoutCommit := SkipTimeoutCommit cs; state := state cs;
     blockStore := blockStore cs; privValidator := privValidator cs; dkg := dkg cs;
     evpool := x; eventBus := eventBus cs; evsw := evsw cs;
     internalMsgQueue := internalMsgQueue cs; wal := wal cs; nSteps := nSteps cs;
     tmtime_Now := tmtime_Now cs; voteTime := voteTime cs |}.

Definition set_eventBus (x : list Event) (cs : BLSConsensusState) : BLSConsensusState :=
  {| Height := Height cs; Round := Round cs; Step := Step cs;
     CommitTime := CommitTime cs; Validators := Validators cs; Proposal := Proposal cs;
     ProposalBlock := ProposalBlock cs; ProposalBlockParts := ProposalBlockParts cs;
     LockedRound := LockedRound cs; LockedBlock := LockedBlock cs;
     LockedBlockParts := LockedBlockParts cs; ValidRound := ValidRound cs;
     ValidBlock := ValidBlock cs; ValidBlockParts := ValidBlockParts cs;
     Votes := Votes cs; CommitRound := CommitRound cs; LastCommit := LastCommit cs;
     TriggeredTimeoutPrecommit := TriggeredTimeoutPrecommit cs;
     SkipTimeoutCommit := SkipTimeoutCommit cs; state := state cs;
     blockStore := blockStore cs; privValidator := privValidator cs; dkg := dkg cs;
     evpool := evpool cs; eventBus := x; evsw := evsw cs;
     internalMsgQueue := internalMsgQueue cs; wal := wal cs; nSteps := nSteps cs;
     tmtime_Now := tmtime_Now cs; voteTime := voteTime cs |}.

Definition set_evsw (x : list Event) (cs : BLSConsensusState) : BLSConsensusState :=
  {| Height := Height cs; Round := Round cs; Step := Step cs;
     CommitTime := CommitTime cs; Validators := Validators cs; Proposal := Proposal cs;
     ProposalBlock := ProposalBlock cs; ProposalBlockParts := ProposalBlockParts cs;
     LockedRound := LockedRound cs; LockedBlock := LockedBlock cs;
     LockedBlockParts := LockedBlockParts cs; ValidRound := ValidRound cs;
     ValidBlock := ValidBlock cs; ValidBlockParts := ValidBlockParts cs;
     Votes := Votes cs; CommitRound := CommitRound cs; LastCommit := LastCommit cs;
     TriggeredTimeoutPrecommit := TriggeredTimeoutPrecommit cs;
     SkipTimeoutCommit := SkipTimeoutCommit cs; state := state cs;
     blockStore := blockStore cs; privValidator := privValidator cs; dkg := dkg cs;
     evpool := evpool cs; eventBus := eventBus cs; evsw := x;
     internalMsgQueue := internalMsgQueue cs; wal := wal cs; nSteps := nSteps cs;
     tmtime_Now := tmtime_Now cs; voteTime := voteTime cs |}.

Definition set_internalMsgQueue (x : list msgInfo) (cs : BLSConsensusState) : BLSConsensusState :=
  {| Height := Height cs; Round := Round cs; Step := Step cs;
     CommitTime := CommitTime cs; Validators := Validators cs; Proposal := Proposal cs;
     ProposalBlock := ProposalBlock cs; ProposalBlockParts := ProposalBlockParts cs;
     LockedRound := LockedRound cs; LockedBlock := LockedBlock cs;
     LockedBlockParts := LockedBlockParts cs; ValidRound := ValidRound cs;
     ValidBlock := ValidBlock cs; ValidBlockParts := ValidBlockParts cs;
     Votes := Votes cs; CommitRound := CommitRound cs; LastCommit := LastCommit cs;
     TriggeredTimeoutPrecommit := TriggeredTimeoutPrecommit cs;
     SkipTimeoutCommit := SkipTimeoutCommit cs; state := state cs;
     blockStore := blockStore cs; privValidator := privValidator cs; dkg := dkg cs;
     evpool := evpool cs; eventBus := eventBus cs; evsw := evsw cs;
     internalMsgQueue := x; wal := wal cs; nSteps := nSteps cs; tmtime_Now := tmtime_Now cs;
     voteTime := voteTime cs |}.

Definition set_wal (x : list WALMessage) (cs : BLSConsensusState) : BLSConsensusState :=
  {| Height := Height cs; Round := Round cs; Step := Step cs;
     CommitTime := CommitTime cs; Validators := Validators cs; Proposal := Proposal cs;
     ProposalBlock := ProposalBlock cs; ProposalBlockParts := ProposalBlockParts cs;
     LockedRound := LockedRound cs; LockedBlock := LockedBlock cs;
     LockedBlockParts := LockedBlockParts cs; ValidRound := ValidRound cs;
     ValidBlock := ValidBlock cs; ValidBlockParts := ValidBlockParts cs;
     Votes := Votes cs; CommitRound := CommitRound cs; LastCommit := LastCommit cs;
     TriggeredTimeoutPrecommit := TriggeredTimeoutPrecommit cs;
     SkipTimeoutCommit := SkipTimeoutCommit cs; state := state cs;
     blockStore := blockStore cs; privValidator := privValidator cs; dkg := dkg cs;
     evpool := evpool cs; eventBus := eventBus cs; evsw := evsw cs;
     internalMsgQueue := internalMsgQueue cs; wal := x; nSteps := nSteps cs;
     tmtime_Now := tmtime_Now cs; voteTime := voteTime cs |}.

Definition set_nSteps (x : Z) (cs : BLSConsensusState) : BLSConsensusState :=
  {| Height := Height cs; Round := Round cs; Step := Step cs;
     CommitTime := CommitTime cs; Validators := Validators cs; Proposal := Proposal cs;
     ProposalBlock := ProposalBlock cs; ProposalBlockParts := ProposalBlockParts cs;
     LockedRound := LockedRound cs; LockedBlock := LockedBlock cs;
     LockedBlockParts := LockedBlockParts cs; ValidRound := ValidRound cs;
     ValidBlock := ValidBlock cs; ValidBlockParts := ValidBlockParts cs;
     Votes := Votes cs; CommitRound := CommitRound cs; LastCommit := LastCommit cs;
     TriggeredTimeoutPrecommit := TriggeredTimeoutPrecommit cs;
     SkipTimeoutCommit := SkipTimeoutCommit cs; state := state cs;
     blockStore := blockStore cs; privValidator := privValidator cs; dkg := dkg cs;
     evpool := evpool cs; eventBus := eventBus cs; evsw := evsw cs;
     internalMsgQueue := internalMsgQueue cs; wal := wal cs; nSteps := x; tmtime_Now := tmtime_Now cs;
     voteTime := voteTime cs |}.
(** ** The round state machine: functions of BLSState.go *)

Definition C (A : Type) : Type := M BLSConsensusState A.

Definition get_cs : C BLSConsensusState := fun cs => Returned cs cs.

(** The state functions of the embedded machine that the functions below
    call and that are not followed here: whatever they do, including a
    panic.  [isProposalComplete] is a method of the embedded
    [ConsensusState]. *)
Record StateFunctions : Type := {
  enterNewRound : Z -> Z -> C unit;
  enterPrevote : Z -> Z -> C unit;
  enterPrevoteWait : Z -> Z -> C unit;
  enterPrecommitWait : Z -> Z -> C unit;
  finalizeCommit : Z -> C unit;
  isProposalComplete : BLSConsensusState -> bool
}.

Variable F : StateFunctions.

(** [cs.RoundStateEvent()] *)
Definition RoundStateEvent_of (cs : BLSConsensusState) : RoundStateEvent :=
  {| rse_Height := Height cs; rse_Round := Round cs; rse_Step := Step cs |}.

(** [cs.eventBus.PublishEvent...(cs.RoundStateEvent())] *)
Definition publish (e : RoundStateEvent -> Event) : C unit :=
  modify (fun cs => set_eventBus (eventBus cs ++ [e (RoundStateEvent_of cs)]) cs).

(** [cs.evsw.FireEvent(..., &cs.RoundState)] *)
Definition fire (e : RoundStateEvent -> Event) : C unit :=
  modify (fun cs => set_evsw (evsw cs ++ [e (RoundStateEvent_of cs)]) cs).

(** Modelled from the spec: [updateRoundStep] is a method of the embedded
    [ConsensusState], outside the sources; by section 3 the round state holds
    the current round and step, which it sets. *)
Definition updateRoundStep (round : Z) (step : RoundStepType) : C unit :=
  modify (fun cs => set_Step step (set_Round round cs)).

(** Modelled from the spec: [newStep] is a method of the embedded
    [ConsensusState], outside the sources; by sections 4.5 and 6 a new step is
    written to the WAL, counted, and announced as a NewRoundStep event. *)
Definition newStep : C unit :=
  modify (fun cs =>
    let rs := RoundStateEvent_of cs in
    set_evsw (evsw cs ++ [EventNewRoundStep rs])
      (set_eventBus (eventBus cs ++ [EventNewRoundStep rs])
        (set_nSteps (add64 (nSteps cs) 1)
          (set_wal (wal cs ++ [WAL_RoundState rs]) cs)))).

(** [getPreviousBlock], lines 488-497. *)
Definition getPreviousBlock (cs : BLSConsensusState) : option Block :=
  if Height cs =? 1 then Some (block_of_RandomData InitialRandomData)
  else blockStore_LoadBlock (blockStore cs) (sub64 (Height cs) 1).

(** [cs.getPreviousBlock().RandomData]: a nil block panics. *)
Definition previous_RandomData : C bytes :=
  fun cs => match getPreviousBlock cs with
            | Some b => Returned (block_RandomData b) cs
            | None => Panicked nil_dereference cs
            end.

(** [cs.dkg.Verifier()]: a nil [dkg] panics. *)
Definition cs_Verifier : C (option Verifier) :=
  fun cs => match dkg cs with
            | Some d => Returned (dkg_Verifier d) cs
            | None => Panicked nil_dereference cs
            end.

(** A method called on the verifier: a nil verifier panics. *)
Definition the_Verifier : C Verifier :=
  (v <~ cs_Verifier ;;
   match v with Some ver => ret ver | None => panic nil_dereference end)%go.

(** [sendInternalMessage] *)
Definition sendInternalMessage (mi : msgInfo) : C unit :=
  modify (fun cs => set_internalMsgQueue (internalMsgQueue cs ++ [mi]) cs).

(** [signVote], lines 690-709. *)
Definition signVote (type_ : SignedMsgType) (hash : bytes) (header : PartSetHeader)
    (data : bytes) : C (Vote * option error) :=
  (modify (fun cs => set_wal (wal cs ++ [WAL_FlushAndSync]) cs) ;;;
   cs <~ get_cs ;;
   match privValidator cs with
   | None => panic nil_dereference
   | Some pv =>
       let addr := pv_Address pv in
       let valIndex := fst (vs_GetByAddress (Validators cs) addr) in
       let vote := {| vote_Type := type_; vote_Height := Height cs; vote_Round := Round cs;
                      vote_Timestamp := voteTime cs;
                      vote_BlockID := {| bid_Hash := hash; bid_PartsHeader := header |};
                      vote_ValidatorAddress := addr; vote_ValidatorIndex := valIndex;
                      vote_Signature := []; vote_BLSSignature := data |} in
       let r := pv_SignData pv (state_ChainID (state cs)) vote in
       modify (set_privValidator (Some (fst r))) ;;;
       ret (snd r)
   end)%go.

(** [signAddVote], lines 657-688: the vote signed and queued, or nil. *)
Definition signAddVote (type_ : SignedMsgType) (hash : bytes) (header : PartSetHeader)
    : C (option Vote) :=
  (cs <~ get_cs ;;
   match privValidator cs with
   | None => ret None
   | Some pv =>
       if negb (vs_HasAddress (Validators cs) (pv_Address pv)) then ret None
       else
         v <~ cs_Verifier ;;
         match v with
         | None => ret None
         | Some _ =>
             rd <~ (if is_PrecommitType type_ then
                      ver <~ the_Verifier ;;
                      data <~ previous_RandomData ;;
                      let r := ver_Sign ver data in
                      match snd r with
                      | Some _ => ret None
                      | None => if len (fst r) =? 0 then ret None else ret (Some (fst r))
                      end
                    else ret (Some [])) ;;
             match rd with
             | None => ret None
             | Some randomData =>
                 r <~ signVote type_ hash header randomData ;;
                 match snd r with
                 | None =>
                     sendInternalMessage {| mi_Vote := fst r; mi_PeerID := "" |} ;;;
                     ret (Some (fst r))
                 | Some _ => ret None
                 end
             end
         end
   end)%go.

Definition unlock (cs : BLSConsensusState) : BLSConsensusState :=
  set_LockedBlockParts None (set_LockedBlock None (set_LockedRound (-1) cs)).

(** The body of [enterPrecommit] past the guard, lines 1230-1306. *)
Definition enterPrecommit_body (round : Z) : C unit :=
  (cs <~ get_cs ;;
   match voteset_TwoThirdsMajority (hvs_Prevotes (Votes cs) round) with
   | None =>
       signAddVote PrecommitType [] PartSetHeader_zero ;;; ret tt
   | Some blockID =>
       publish EventPolka ;;;
       if fst (hvs_POLInfo (Votes cs)) <? round then
         panic "This POLRound should be the round"
       else if len (bid_Hash blockID) =? 0 then
         match LockedBlock cs with
         | None => ret tt
         | Some _ => modify unlock ;;; publish EventUnlock
         end ;;;
         signAddVote PrecommitType [] PartSetHeader_zero ;;; ret tt
       else if block_HashesTo (LockedBlock cs) (bid_Hash blockID) then
         modify (set_LockedRound round) ;;;
         publish EventRelock ;;;
         signAddVote PrecommitType (bid_Hash blockID) (bid_PartsHeader blockID) ;;; ret tt
       else if block_HashesTo (ProposalBlock cs) (bid_Hash blockID) then
         match blockExec_ValidateBlock (state cs) (ProposalBlock cs) with
         | Some _ => panic "enterPrecommit: +2/3 prevoted for an invalid block"
         | None =>
             modify (fun cs => set_LockedBlockParts (ProposalBlockParts cs)
                                 (set_LockedBlock (ProposalBlock cs)
                                    (set_LockedRound round cs))) ;;;
             publish EventLock ;;;
             signAddVote PrecommitType (bid_Hash blockID) (bid_PartsHeader blockID) ;;;
             ret tt
         end
       else
         modify unlock ;;;
         when (negb (partset_HasHeader (ProposalBlockParts cs) (bid_PartsHeader blockID)))
           (modify (fun cs =>
              set_ProposalBlockParts (Some (NewPartSetFromHeader (bid_PartsHeader blockID)))
                (set_ProposalBlock None cs))) ;;;
         publish EventUnlock ;;;
         signAddVote PrecommitType [] PartSetHeader_zero ;;; ret tt
   end)%go.

(** The guard of [enterPrecommit], line 1211. *)
Definition enterPrecommit_guard (height round : Z) (cs : BLSConsensusState) : bool :=
  negb (Height cs =? height) || (round <? Round cs)
  || ((Round cs =? round) && step_leb RoundStepPrecommit (Step cs)).

(** [enterPrecommit], lines 1208-1307. *)
Definition enterPrecommit (height round : Z) : C unit :=
  (cs <~ get_cs ;;
   if enterPrecommit_guard height round cs then ret tt
   else defer (enterPrecommit_body round)
              (updateRoundStep round RoundStepPrecommit ;;; newStep))%go.

(** [tryFinalizeCommit], lines 344-370. *)
Definition tryFinalizeCommit (height : Z) : C unit :=
  (cs <~ get_cs ;;
   if negb (Height cs =? height) then panic "tryFinalizeCommit() cs.Height vs height"
   else
     match voteset_TwoThirdsMajority (hvs_Precommits (Votes cs) (CommitRound cs)) with
     | None => ret tt
     | Some blockID =>
         if len (bid_Hash blockID) =? 0 then ret tt
         else if negb (block_HashesTo (ProposalBlock cs) (bid_Hash blockID)) then ret tt
         else finalizeCommit F height
     end)%go.

(** The body of [enterCommit] past the guard, lines 299-340.  Blocks are
    values here: [SetRandomData] changes the proposal block, and a locked
    block that is the same object in Go is not followed (the source notes
    that the Locked fields no longer matter from here on). *)
Definition enterCommit_body (commitRound : Z) : C unit :=
  (cs <~ get_cs ;;
   let precommits := hvs_Precommits (Votes cs) commitRound in
   match voteset_TwoThirdsMajority precommits with
   | None => panic "RunActionCommit() expects +2/3 precommits"
   | Some blockID =>
       when (block_HashesTo (LockedBlock cs) (bid_Hash blockID))
         (modify (fun cs => set_ProposalBlockParts (LockedBlockParts cs)
                              (set_ProposalBlock (LockedBlock cs) cs))) ;;;
       ver <~ the_Verifier ;;
       data <~ previous_RandomData ;;
       let r := ver_Recover ver data (voteset_GetVotes precommits) in
       match snd r with
       | Some _ => panic "Failed to recover random data from votes"
       | None =>
           modify (fun cs =>
             match ProposalBlock cs with
             | Some b => set_ProposalBlock (Some (block_SetRandomData (fst r) b)) cs
             | None => cs
             end) ;;;
           cs <~ get_cs ;;
           when (negb (block_HashesTo (ProposalBlock cs) (bid_Hash blockID))
                 && negb (partset_HasHeader (ProposalBlockParts cs) (bid_PartsHeader blockID)))
             (modify (fun cs =>
                set_ProposalBlockParts (Some (NewPartSetFromHeader (bid_PartsHeader blockID)))
                  (set_ProposalBlock None cs)) ;;;
              publish EventValidBlock ;;;
              fire EventValidBlock)
       end
   end)%go.

(** The deferred closure of [enterCommit] after its [recover], lines 288-296. *)
Definition enterCommit_deferred (height commitRound : Z) : C unit :=
  (cs <~ get_cs ;;
   updateRoundStep (Round cs) RoundStepCommit ;;;
   modify (set_CommitRound commitRound) ;;;
   modify (set_CommitTime (tmtime_Now cs)) ;;;
   newStep ;;;
   tryFinalizeCommit height)%go.

Definition enterCommit_guard (height : Z) (cs : BLSConsensusState) : bool :=
  negb (Height cs =? height) || step_leb RoundStepCommit (Step cs).

(** [enterCommit], lines 275-341.  The deferred closure recovers a panic of
    the body (it only logs it) and goes on. *)
Definition enterCommit (height commitRound : Z) : C unit :=
  (cs <~ get_cs ;;
   if enterCommit_guard height cs then ret tt
   else defer_recover (enterCommit_body commitRound)
                      (fun _ => ret tt)
                      (enterCommit_deferred height commitRound))%go.

(** The prevote arm of [addVote], lines 559-626. *)
Definition addVote_prevote (vote : Vote) (height : Z) : C unit :=
  (cs <~ get_cs ;;
   let prevotes := hvs_Prevotes (Votes cs) (vote_Round vote) in
   match voteset_TwoThirdsMajority prevotes with
   | None => ret tt
   | Some blockID =>
       when (match LockedBlock cs with Some _ => true | None => false end
             && (LockedRound cs <? vote_Round vote)
             && (vote_Round vote <=? Round cs)
             && negb (block_HashesTo (LockedBlock cs) (bid_Hash blockID)))
         (modify unlock ;;; publish EventUnlock) ;;;
       when (negb (len (bid_Hash blockID) =? 0)
             && (ValidRound cs <? vote_Round vote)
             && (vote_Round vote =? Round cs))
         (modify (fun cs =>
            if block_HashesTo (ProposalBlock cs) (bid_Hash blockID) then
              set_ValidBlockParts (ProposalBlockParts cs)
                (set_ValidBlock (ProposalBlock cs) (set_ValidRound (vote_Round vote) cs))
            else set_ProposalBlock None cs) ;;;
          modify (fun cs =>
            if negb (partset_HasHeader (ProposalBlockParts cs) (bid_PartsHeader blockID)) then
              set_ProposalBlockParts
                (Some (NewPartSetFromHeader (bid_PartsHeader blockID))) cs
            else cs) ;;;
          fire EventValidBlock ;;;
          publish EventValidBlock)
   end ;;;
   cs <~ get_cs ;;
   let prevotes := hvs_Prevotes (Votes cs) (vote_Round vote) in
   if (Round cs <? vote_Round vote) && voteset_HasTwoThirdsAny prevotes then
     enterNewRound F height (vote_Round vote)
   else if (Round cs =? vote_Round vote) && step_leb RoundStepPrevote (Step cs) then
     match voteset_TwoThirdsMajority prevotes with
     | Some blockID =>
         if isProposalComplete F cs || (len (bid_Hash blockID) =? 0) then
           enterPrecommit height (vote_Round vote)
         else if voteset_HasTwoThirdsAny prevotes then
           enterPrevoteWait F height (vote_Round vote)
         else ret tt
     | None =>
         if voteset_HasTwoThirdsAny prevotes then
           enterPrevoteWait F height (vote_Round vote)
         else ret tt
     end
   else
     match Proposal cs with
     | Some proposal =>
         if (0 <=? prop_POLRound proposal) && (prop_POLRound proposal =? vote_Round vote) then
           when (isProposalComplete F cs) (enterPrevote F height (Round cs))
         else ret tt
     | None => ret tt
     end)%go.

(** The precommit arm of [addVote], lines 628-648. *)
Definition addVote_precommit (vote : Vote) (height : Z) : C unit :=
  (cs <~ get_cs ;;
   let precommits := hvs_Precommits (Votes cs) (vote_Round vote) in
   match voteset_TwoThirdsMajority precommits with
   | Some blockID =>
       enterNewRound F height (vote_Round vote) ;;;
       enterPrecommit height (vote_Round vote) ;;;
       if negb (len (bid_Hash blockID) =? 0) then
         enterCommit height (vote_Round vote) ;;;
         cs <~ get_cs ;;
         when (SkipTimeoutCommit cs && voteset_HasAll precommits)
           (enterNewRound F (Height cs) 0)
       else enterPrecommitWait F height (vote_Round vote)
   | None =>
       when ((Round cs <=? vote_Round vote) && voteset_HasTwoThirdsAny precommits)
         (enterNewRound F height (vote_Round vote) ;;;
          enterPrecommitWait F height (vote_Round vote))
   end)%go.

(** The straggler branch of [addVote], lines 505-526. *)
Definition addVote_lastCommit (vote : Vote) : C (bool * option error) :=
  (cs <~ get_cs ;;
   if negb (step_eqb (Step cs) RoundStepNewHeight && is_PrecommitType (vote_Type vote)) then
     ret (false, Some ErrVoteHeightMismatch)
   else
     match LastCommit cs with
     | None => panic "AddVote() on nil VoteSet"
     | Some lastCommit =>
         let r := voteset_AddVote lastCommit vote in
         modify (set_LastCommit (Some (fst r))) ;;;
         if negb (fst (snd r)) then ret (snd r)
         else
           modify (fun cs => set_eventBus (eventBus cs ++ [EventVote vote]) cs) ;;;
           modify (fun cs => set_evsw (evsw cs ++ [EventVote vote]) cs) ;;;
           cs <~ get_cs ;;
           when (SkipTimeoutCommit cs && voteset_HasAll (LastCommit cs))
             (enterNewRound F (Height cs) 0) ;;;
           ret (snd r)
     end)%go.

(** The branch of [addVote] for a vote of the current height, lines 537-653. *)
Definition addVote_current (vote : Vote) (peerID : string) : C (bool * option error) :=
  (shareErr <~ (if is_PrecommitType (vote_Type vote) then
                  prevBlockData <~ previous_RandomData ;;
                  ver <~ the_Verifier ;;
                  ret (ver_VerifyRandomShare ver (vote_ValidatorAddress vote)
                         prevBlockData (vote_BLSSignature vote))
                else ret None) ;;
   match shareErr with
   | Some err => ret (false, Some (Errorf "random share authenticy check failed" err))
   | None =>
       cs <~ get_cs ;;
       let height := Height cs in
       let r := hvs_AddVote (Votes cs) vote peerID in
       modify (set_Votes (fst r)) ;;;
       if negb (fst (snd r)) then ret (snd r)
       else
         modify (fun cs => set_eventBus (eventBus cs ++ [EventVote vote]) cs) ;;;
         modify (fun cs => set_evsw (evsw cs ++ [EventVote vote]) cs) ;;;
         match vote_Type vote with
         | PrevoteType => addVote_prevote vote height
         | PrecommitType => addVote_precommit vote height
         | _ => panic "Unexpected vote type"
         end ;;;
         ret (snd r)
   end)%go.

(** [addVote], lines 499-654. *)
Definition addVote (vote : Vote) (peerID : string) : C (bool * option error) :=
  (cs <~ get_cs ;;
   if add64 (vote_Height vote) 1 =? Height cs then addVote_lastCommit vote
   else if negb (vote_Height vote =? Height cs) then ret (false, Some ErrVoteHeightMismatch)
   else addVote_current vote peerID)%go.

(** [tryAddVote], lines 238-272. *)
Definition tryAddVote (vote : Vote) (peerID : string) : C (bool * option error) :=
  (r <~ addVote vote peerID ;;
   match snd r with
   | None => ret (fst r, None)
   | Some err =>
       if is_ErrVoteHeightMismatch err then ret (fst r, Some err)
       else
         match err with
         | ErrVoteConflictingVotes ev =>
             cs <~ get_cs ;;
             match privValidator cs with
             | None => panic nil_dereference
             | Some pv =>
                 if bytes_Equal (vote_ValidatorAddress vote) (pv_Address pv) then
                   ret (fst r, Some err)
                 else
                   modify (fun cs => set_evpool (evpool cs ++ [ev]) cs) ;;;
                   ret (fst r, Some err)
             end
         | _ => ret (fst r, Some ErrAddingVote)
         end
   end)%go.

End Consensus.

(** ** Definitions the statements use *)

Definition state_of {S A : Type} (o : outcome S A) : S :=
  match o with Returned _ s => s | Panicked _ s => s end.

Section DealerStatements.
Context `{K : Kyber}.
Variable closure : nat -> D (option error * bool).

(** A computation on the dealer that leaves the transition queue as it is. *)
Definition keeps_queue {A : Type} (c : D A) : Prop :=
  forall d, transitions (state_of (c d)) = transitions d.

(** [consume ts d]: the dealer after the closures [ts], called one after the
    other, each reported ready without error and was taken off the queue;
    [None] when one of them did not. *)
Fixpoint consume (ts : list transition) (d : DKGDealer) : option DKGDealer :=
  match ts with
  | [] => Some d
  | tn :: ts' =>
      match call closure tn d with
      | Returned (None, true) d' => consume ts' (set_transitions (tail (transitions d')) d')
      | _ => None
      end
  end.

(** What the generator answers for each commits bundle, in turn. *)
Fixpoint bundle_answers (g : DistKeyGenerator) (cs : list SecretCommits)
    : list (option ComplaintCommits + error) :=
  match cs with
  | [] => []
  | c :: rest =>
      let r := dkg_ProcessSecretCommits g c in snd r :: bundle_answers (fst r) rest
  end.

(** An answer that lets the loop go on: no error of the generator, and a
    complaint that encodes. *)
Definition answer_ok (a : option ComplaintCommits + error) : bool :=
  match a with
  | inr _ => false
  | inl None => true
  | inl (Some complaint) =>
      match gob_ComplaintCommits complaint with inl _ => true | inr _ => false end
  end.

(** The complaint message for one answer: no data when the generator has no
    complaint, the encoded complaint and its number of commitments otherwise. *)
Definition complaint_message (d : DKGDealer) (a : option ComplaintCommits + error)
    : DKGData :=
  match a with
  | inl (Some complaint) =>
      match gob_ComplaintCommits complaint with
      | inl b => with_Data b (len (cc_DealCommitments complaint)) (new_msg DKGComplaint d)
      | inr _ => new_msg DKGComplaint d
      end
  | _ => new_msg DKGComplaint d
  end.

Definition no_complaint (a : option ComplaintCommits + error) : bool :=
  match a with inl None => true | _ => false end.

End DealerStatements.

Section ConsensusStatements.
Context `{T : Tendermint}.

(** Sign the precommit for [hash] and [header], then close the step as the
    deferred closure of [enterPrecommit] does. *)
Definition precommit_and_step (round : Z) (hash : bytes) (header : PartSetHeader)
    : C unit :=
  defer (bind (signAddVote PrecommitType hash header) (fun _ => ret tt))
        (bind (updateRoundStep round RoundStepPrecommit) (fun _ => newStep)).

(** [cs1] is [cs] but for the lock, the proposal block and its parts, and the
    events published. *)
Definition differ_in_lock_and_proposal (cs cs1 : BLSConsensusState) : Prop :=
  Height cs1 = Height cs /\ Round cs1 = Round cs /\ Step cs1 = Step cs /\
  Validators cs1 = Validators cs /\ Votes cs1 = Votes cs /\
  LastCommit cs1 = LastCommit cs /\
  ValidRound cs1 = ValidRound cs /\ ValidBlock cs1 = ValidBlock cs /\
  state cs1 = state cs /\ blockStore cs1 = blockStore cs /\
  privValidator cs1 = privValidator cs /\ dkg cs1 = dkg cs /\
  evpool cs1 = evpool cs /\ internalMsgQueue cs1 = internalMsgQueue cs /\
  wal cs1 = wal cs.

End ConsensusStatements.

(** ** A small kyber and a small tendermint to run the functions on *)

(** A generator that keeps its threshold and answers from fixed fields; it
    complains about a commits bundle that holds no commitment. *)
Record ScriptedDKG : Type := {
  sd_t : Z;
  sd_participants : list Z;
  sd_certified : bool;
  sd_qual : list Z;
  sd_finished : bool
}.

Definition scripted_kyber : Kyber := {|
  Point := Z;
  Scalar := Z;
  DistKeyGenerator := ScriptedDKG;
  Deal := Z;
  Response := Z;
  Justification := Z;
  SecretCommits := list Z;
  ComplaintCommits := Z;
  ReconstructCommits := Z;
  DistKeyShare := Z;
  NewDistKeyGenerator := fun suite sk pks t =>
    match suite, sk with
    | Some _, Some _ =>
        inl {| sd_t := t; sd_participants := pks; sd_certified := false;
               sd_qual := []; sd_finished := false |}
    | _, _ => inr (ErrorNew "dkg: no suite or no key")
    end;
  dkg_Deals := fun g => (g, inl (imap (fun i _ => (Z.of_nat i, 0)) (sd_participants g)));
  deal_Index := fun deal => deal;
  dkg_ProcessDeal := fun g deal => (g, inl deal);
  dkg_ProcessResponse := fun g resp => (g, inl None);
  dkg_ProcessJustification := fun g j => (g, None);
  dkg_Certified := sd_certified;
  dkg_QUAL := sd_qual;
  dkg_SecretCommits := fun g => (g, inl (sd_participants g));
  dkg_ProcessSecretCommits := fun g sc =>
    (g, inl (match sc with [] => Some 0 | _ :: _ => None end));
  dkg_ProcessComplaintCommits := fun g c => (g, inl None);
  dkg_ProcessReconstructCommits := fun g rc => (g, None);
  dkg_Finished := sd_finished;
  dkg_DistKeyShare := fun g => inl 0;
  sc_Commitments := fun sc => sc;
  cc_DealCommitments := fun c => [];
  gob_Deal := fun _ => inl [Byte.x01];
  gob_Response := fun _ => inl [Byte.x02];
  gob_Justification := fun _ => inl [Byte.x03];
  gob_SecretCommits := fun _ => inl [Byte.x04];
  gob_ComplaintCommits := fun _ => inl [Byte.x05]
|}.

Definition addr_of (b : Byte.byte) : bytes := [b].

Section ScriptedDealers.
#[local] Existing Instance scripted_kyber.

Definition validators_of (addrs : list bytes) : ValidatorSet :=
  {| vs_Validators := map (fun a => {| val_Address := a; val_VotingPower := 1 |}) addrs |}.

(** A dealer of validator [x01] among [addrs], after [NewDKGDealer]. *)
Definition new_dealer (addrs : list bytes) : DKGDealer :=
  {| dealerState := {| validators := validators_of addrs; addrBytes := addr_of Byte.x01;
                       participantID := 0; roundID := 0 |};
     eventFirer := []; sendMsgCb := [];
     pubKey := None; secKey := None; suiteG1 := Some SuiteG1; suiteG2 := Some SuiteG2;
     instance := None; transitions := [];
     pubKeys := []; deals := ∅; responses := []; justifications := ∅;
     commits := []; complaints := []; reconstructCommits := [];
     losers := [] |}.

Definition with_keys (pks : list PK2Addr) (d : DKGDealer) : DKGDealer :=
  {| dealerState := dealerState d; eventFirer := eventFirer d; sendMsgCb := sendMsgCb d;
     pubKey := Some 11; secKey := Some 5; suiteG1 := suiteG1 d; suiteG2 := suiteG2 d;
     instance := instance d; transitions := transitions d; pubKeys := pks;
     deals := deals d; responses := responses d; justifications := justifications d;
     commits := commits d; complaints := complaints d;
     reconstructCommits := reconstructCommits d; losers := losers d |}.

Definition with_commits (cs : list (list Z)) (d : DKGDealer) : DKGDealer :=
  {| dealerState := dealerState d; eventFirer := eventFirer d; sendMsgCb := sendMsgCb d;
     pubKey := pubKey d; secKey := secKey d; suiteG1 := suiteG1 d; suiteG2 := suiteG2 d;
     instance := instance d; transitions := transitions d; pubKeys := pubKeys d;
     deals := deals d; responses := responses d; justifications := justifications d;
     commits := cs; complaints := complaints d;
     reconstructCommits := reconstructCommits d; losers := losers d |}.

Definition five_addrs : list bytes :=
  map addr_of [Byte.x01; Byte.x02; Byte.x03; Byte.x04; Byte.x05].

Definition three_addrs : list bytes := map addr_of [Byte.x01; Byte.x02; Byte.x03].

Definition keys_of (addrs : list bytes) : list PK2Addr :=
  imap (fun i a => {| pk_Addr := a; pk_PK := Z.of_nat i + 100 |}) addrs.

(** Five validators, all public keys received. *)
Definition dealer_five : DKGDealer := with_keys (keys_of five_addrs) (new_dealer five_addrs).

(** The same dealer once its generator has finished. *)
Definition dealer_five_finished : DKGDealer :=
  set_instance
    (Some {| sd_t := 3; sd_participants := [100; 101; 102; 103; 104]; sd_certified := true;
             sd_qual := [0; 1; 2; 3; 4]; sd_finished := true |})
    dealer_five.

(** Three validators; the generator is certified with QUAL = {0, 1}. *)
Definition dealer_three_qual_two : DKGDealer :=
  set_instance
    (Some {| sd_t := 2; sd_participants := [100; 101; 102]; sd_certified := true;
             sd_qual := [0; 1]; sd_finished := false |})
    (with_keys (keys_of three_addrs) (new_dealer three_addrs)).

(** Three validators, QUAL = {0, 1, 2}, three commits bundles received. *)
Definition dealer_three_commits (cs : list (list Z)) : DKGDealer :=
  with_commits cs
    (set_instance
       (Some {| sd_t := 2; sd_participants := [100; 101; 102]; sd_certified := true;
                sd_qual := [0; 1; 2]; sd_finished := false |})
       (with_keys (keys_of three_addrs) (new_dealer three_addrs))).

(** A closure that is never ready. *)
Definition idle_closure : nat -> D (option error * bool) := fun _ => ret (None, false).

End ScriptedDealers.

(** A vote set that answers from fixed fields and keeps the votes it was
    given; a second vote of a validator for another block is a conflict. *)
Record ScriptedVoteSet : Type := {
  sv_maj23 : option BlockID;
  sv_any23 : bool;
  sv_all : bool;
  sv_votes : list Vote
}.

Fixpoint sv_find (idx : Z) (votes : list Vote) : option Vote :=
  match votes with
  | [] => None
  | v :: rest => if vote_ValidatorIndex v =? idx then Some v else sv_find idx rest
  end.

Definition sv_AddVote (vs : ScriptedVoteSet) (v : Vote)
    : ScriptedVoteSet * (bool * option error) :=
  match sv_find (vote_ValidatorIndex v) (sv_votes vs) with
  | None =>
      ({| sv_maj23 := sv_maj23 vs; sv_any23 := sv_any23 vs; sv_all := sv_all vs;
          sv_votes := sv_votes vs ++ [v] |}, (true, None))
  | Some old =>
      if bytes_Equal (bid_Hash (vote_BlockID old)) (bid_Hash (vote_BlockID v))
      then (vs, (false, None))
      else (vs, (false, Some (ErrVoteConflictingVotes {| dve_VoteA := old; dve_VoteB := v |})))
  end.

Record ScriptedVotes : Type := {
  sh_prevotes : option ScriptedVoteSet;
  sh_precommits : option ScriptedVoteSet;
  sh_polRound : Z
}.

Record ScriptedBlock : Type := {
  sb_hash : bytes;
  sb_random : bytes
}.

Record ScriptedParts : Type := {
  sp_header : PartSetHeader;
  sp_count : Z
}.

Definition PartSetHeader_eqb (a b : PartSetHeader) : bool :=
  (psh_Total a =? psh_Total b) && bytes_Equal (psh_Hash a) (psh_Hash b).

(** The state of package [state] as the functions see it: a chain id, and
    whether [ValidateBlock] accepts. *)
Record ScriptedState : Type := {
  ss_chain : string;
  ss_valid : bool
}.

Definition option_is_Some {A : Type} (o : option A) : bool :=
  match o with Some _ => true | None => false end.

Definition scripted_tendermint : Tendermint := {|
  Block := ScriptedBlock;
  PartSet := ScriptedParts;
  VoteSet := ScriptedVoteSet;
  HeightVoteSet := ScriptedVotes;
  SmState := ScriptedState;
  BlockStore := list (Z * ScriptedBlock);
  PrivValidator := bytes;
  InitialRandomData := [Byte.x2a];
  block_HashesTo := fun b hash =>
    if len hash =? 0 then false
    else match b with Some b => bytes_Equal (sb_hash b) hash | None => false end;
  block_RandomData := sb_random;
  block_SetRandomData := fun d b => {| sb_hash := sb_hash b; sb_random := d |};
  block_of_RandomData := fun d => {| sb_hash := []; sb_random := d |};
  partset_HasHeader := fun ps h =>
    match ps with Some ps => PartSetHeader_eqb (sp_header ps) h | None => false end;
  NewPartSetFromHeader := fun h => {| sp_header := h; sp_count := 0 |};
  voteset_TwoThirdsMajority := fun vs =>
    match vs with Some vs => sv_maj23 vs | None => None end;
  voteset_HasTwoThirdsAny := fun vs =>
    match vs with Some vs => sv_any23 vs | None => false end;
  voteset_HasAll := fun vs => match vs with Some vs => sv_all vs | None => false end;
  voteset_GetVotes := fun vs => match vs with Some vs => sv_votes vs | None => [] end;
  voteset_AddVote := sv_AddVote;
  hvs_Prevotes := fun h _ => sh_prevotes h;
  hvs_Precommits := fun h _ => sh_precommits h;
  hvs_POLInfo := fun h =>
    (sh_polRound h, {| bid_Hash := []; bid_PartsHeader := PartSetHeader_zero |});
  hvs_AddVote := fun h v _ => (h, (false, None));
  blockExec_ValidateBlock := fun st _ =>
    if ss_valid st then None else Some (ErrorNew "invalid block");
  blockStore_LoadBlock := fun store h =>
    snd <$> List.find (fun e => fst e =? h) store;
  state_ChainID := ss_chain;
  pv_Address := fun pv => pv;
  pv_SignData := fun pv _ v => (pv, (v, None))
|}.

(** A verifier whose [Recover] fails and whose other methods succeed. *)
Definition failing_recover : Verifier :=
  {| ver_Sign := fun d => ([Byte.x07], None);
     ver_VerifyRandomShare := fun _ _ _ => None;
     ver_VerifyRandomData := fun _ _ => None;
     ver_Recover := fun _ _ => ([], Some (ErrorNew "not enough shares")) |}.

Section ScriptedMachines.
#[local] Existing Instance scripted_tendermint.

(** The state functions for the runs below, none of which calls them: they
    stand for no behaviour of the source.  Each one panics with a message of
    its own, so that a run that did reach one would end in that panic and
    show it; an outcome that returns, or panics with another message, does
    not depend on them.  [isProposalComplete] answers no: the machines below
    hold no proposal. *)
Definition quiet_functions : StateFunctions :=
  {| enterNewRound := fun _ _ => panic "enterNewRound is not followed";
     enterPrevote := fun _ _ => panic "enterPrevote is not followed";
     enterPrevoteWait := fun _ _ => panic "enterPrevoteWait is not followed";
     enterPrecommitWait := fun _ _ => panic "enterPrecommitWait is not followed";
     finalizeCommit := fun _ => panic "finalizeCommit is not followed";
     isProposalComplete := fun _ => false |}.

Definition hash_B : bytes := [Byte.x0b].
Definition header_B : PartSetHeader := {| psh_Total := 1; psh_Hash := [Byte.xb0] |}.
Definition blockID_B : BlockID := {| bid_Hash := hash_B; bid_PartsHeader := header_B |}.
Definition block_B : ScriptedBlock := {| sb_hash := hash_B; sb_random := [] |}.
Definition parts_B : ScriptedParts := {| sp_header := header_B; sp_count := 1 |}.

Definition majority_for (b : option BlockID) : ScriptedVoteSet :=
  {| sv_maj23 := b; sv_any23 := true; sv_all := false; sv_votes := [] |}.

(** Validator [x01] of three at height 2, round 0, in step [step], with the
    proposal block [B] complete, nothing locked, and the given vote sets. *)
Definition machine (step : RoundStepType) (votes : ScriptedVotes)
    (lastCommit : option ScriptedVoteSet) (valid : bool) (d : option DKG)
    : BLSConsensusState :=
  {| Height := 2; Round := 0; Step := step; CommitTime := 0;
     Validators := validators_of (map addr_of [Byte.x01; Byte.x02; Byte.x03]);
     Proposal := None;
     ProposalBlock := Some block_B; ProposalBlockParts := Some parts_B;
     LockedRound := -1; LockedBlock := None; LockedBlockParts := None;
     ValidRound := -1; ValidBlock := None; ValidBlockParts := None;
     Votes := votes; CommitRound := -1; LastCommit := lastCommit;
     TriggeredTimeoutPrecommit := false; SkipTimeoutCommit := false;
     state := {| ss_chain := "test-chain"; ss_valid := valid |};
     blockStore := [(1, {| sb_hash := [Byte.x0a]; sb_random := [Byte.x2a] |})];
     privValidator := Some (addr_of Byte.x01);
     dkg := d;
     evpool := []; eventBus := []; evsw := []; internalMsgQueue := []; wal := [];
     nSteps := 0; tmtime_Now := 1000; voteTime := 1000 |}.

Definition votes_for (b : option BlockID) : ScriptedVotes :=
  {| sh_prevotes := Some (majority_for b); sh_precommits := Some (majority_for b);
     sh_polRound := 0 |}.

Definition precommit_of (idx : Z) (addr : bytes) (height : Z) (hash : bytes) : Vote :=
  {| vote_Type := PrecommitType; vote_Height := height; vote_Round := 0;
     vote_Timestamp := 999;
     vote_BlockID := {| bid_Hash := hash; bid_PartsHeader := header_B |};
     vote_ValidatorAddress := addr; vote_ValidatorIndex := idx;
     vote_Signature := [Byte.x01]; vote_BLSSignature := [Byte.x02] |}.

Definition dkg_failing_recover : DKG := {| dkg_Verifier := Some failing_recover |}.
Definition dkg_without_verifier : DKG := {| dkg_Verifier := None |}.

(** In step Precommit with a precommit majority for [B], which the node
    holds; [Recover] will fail. *)
Definition machine_commit : BLSConsensusState :=
  machine RoundStepPrecommit (votes_for (Some blockID_B)) None true (Some dkg_failing_recover).

(** The same, on a node that has not received the block [B] yet: it holds
    neither the block nor its parts. *)
Definition machine_commit_waiting : BLSConsensusState :=
  set_ProposalBlockParts None (set_ProposalBlock None machine_commit).

(** In step Prevote with a prevote majority for the proposal block [B];
    [valid] says whether [ValidateBlock] accepts it. *)
Definition machine_polka (valid : bool) : BLSConsensusState :=
  machine RoundStepPrevote (votes_for (Some blockID_B)) None valid (Some dkg_failing_recover).

Definition hash_A : bytes := [Byte.x0a].

(** In step NewHeight at height 2; the last commit holds the precommits of
    validators 0 (the node itself) and 1 for the block [A] of height 1. *)
Definition machine_new_height : BLSConsensusState :=
  machine RoundStepNewHeight (votes_for None)
    (Some {| sv_maj23 := None; sv_any23 := false; sv_all := false;
             sv_votes := [precommit_of 0 (addr_of Byte.x01) 1 hash_A;
                          precommit_of 1 (addr_of Byte.x02) 1 hash_A] |})
    true (Some dkg_failing_recover).

End ScriptedMachines.

(** ** Further functions of the dealer: the message handlers *)

(** The state a round gathers and the identity of the dealer: what no
    transition is to change. *)
Definition dealer_data `{K : Kyber} (d : DKGDealer) :=
  (validators (dealerState d), addrBytes (dealerState d), roundID (dealerState d),
   (pubKey d, secKey d, suiteG1 d, suiteG2 d),
   (deals d, responses d, justifications d),
   (commits d, complaints d, reconstructCommits d),
   losers d).

(** A computation that leaves [proj] of the state as it is, however it
    ends. *)
Definition keeps_field {S B A : Type} (proj : S -> B) (c : M S A) : Prop :=
  forall s, proj (state_of (c s)) = proj s.

Section DealerHandlers.
Context `{K : Kyber}.

(** What the handlers and [Start] take from kyber, gob and package [types]
    beyond the interface above: equality of points; the decoders (gob decodes
    into a value the caller prepared, for commits and complaints with
    [NumEntities] points in it; the result is what that value holds after);
    the encoder of points; the multiple of the base point by a scalar;
    the index a response names; and [msg.GetAddrString()]. *)
Variable point_Equal : Point -> Point -> bool.
Variable gob_decode_Point : bytes -> Point + error.
Variable gob_decode_Deal : bytes -> Deal + error.
Variable gob_decode_Response : bytes -> Response + error.
Variable gob_decode_SecretCommits : Z -> bytes -> SecretCommits + error.
Variable gob_decode_ComplaintCommits : Z -> bytes -> ComplaintCommits + error.
Variable gob_decode_ReconstructCommits : bytes -> ReconstructCommits + error.
Variable gob_Point : Point -> bytes + error.
Variable point_Mul : Scalar -> Point.
Variable response_Index : Response -> Z.
Variable GetAddrString : DKGData -> string.
Variable closure : nat -> D (option error * bool).

(** [bytes.NewBuffer(msg.Data)]: a nil slice is an empty buffer. *)
Definition msg_buffer (msg : DKGData) : bytes :=
  match dd_Data msg with Some b => b | None => [] end.

(** The loop of [PKStore.Add], lines 752-756: is there an entry with the
    address (compared through [String()], so as bytes) and an equal key? *)
Fixpoint PKStore_holds (newPk : PK2Addr) (s : list PK2Addr) : bool :=
  match s with
  | [] => false
  | pk :: rest =>
      if bytes_Equal (pk_Addr pk) (pk_Addr newPk) && point_Equal (pk_PK pk) (pk_PK newPk)
      then true
      else PKStore_holds newPk rest
  end.

(** [PKStore.Add], lines 751-760. *)
Definition PKStore_Add (newPk : PK2Addr) (s : list PK2Addr) : list PK2Addr * bool :=
  if PKStore_holds newPk s then (s, false) else (s ++ [newPk], true).

(** [d.suiteG2.Point()]: a nil suite panics. *)
Definition suiteG2_Point : D unit :=
  fun d => match suiteG2 d with
           | Some _ => Returned tt d
           | None => Panicked nil_dereference d
           end.

(** [if err := d.Transit(); err != nil { return fmt.Errorf(...) }; return nil],
    the end of every handler. *)
Definition handler_Transit (fuel : nat) (d : DKGDealer)
    : option (outcome DKGDealer (option error)) :=
  match Transit closure fuel d with
  | None => None
  | Some (Panicked m d') => Some (Panicked m d')
  | Some (Returned None d') => Some (Returned None d')
  | Some (Returned (Some err) d') => Some (Returned (Some (Errorf "failed to Transit" err)) d')
  end.

(** [HandleDKGPubKey], lines 203-218. *)
Definition HandleDKGPubKey (fuel : nat) (msg : DKGData) (d : DKGDealer)
    : option (outcome DKGDealer (option error)) :=
  match suiteG2_Point d with
  | Panicked m d' => Some (Panicked m d')
  | Returned _ _ =>
      match gob_decode_Point (msg_buffer msg) with
      | inr err =>
          Some (Returned (Some (Errorf "dkgState: failed to decode public key" err)) d)
      | inl pubKey =>
          handler_Transit fuel
            (set_pubKeys (fst (PKStore_Add {| pk_Addr := dd_Addr msg; pk_PK := pubKey |}
                                 (pubKeys d))) d)
      end
  end.

Definition set_deals (x : gmap string Deal) (d : DKGDealer) : DKGDealer :=
  {| dealerState := dealerState d; eventFirer := eventFirer d; sendMsgCb := sendMsgCb d;
     pubKey := pubKey d; secKey := secKey d; suiteG1 := suiteG1 d; suiteG2 := suiteG2 d;
     instance := instance d; transitions := transitions d; pubKeys := pubKeys d;
     deals := x; responses := responses d; justifications := justifications d;
     commits := commits d; complaints := complaints d;
     reconstructCommits := reconstructCommits d; losers := losers d |}.

Definition set_responses (x : list Response) (d : DKGDealer) : DKGDealer :=
  {| dealerState := dealerState d; eventFirer := eventFirer d; sendMsgCb := sendMsgCb d;
     pubKey := pubKey d; secKey := secKey d; suiteG1 := suiteG1 d; suiteG2 := suiteG2 d;
     instance := instance d; transitions := transitions d; pubKeys := pubKeys d;
     deals := deals d; responses := x; justifications := justifications d;
     commits := commits d; complaints := complaints d;
     reconstructCommits := reconstructCommits d; losers := losers d |}.

(** [HandleDKGDeal], lines 282-311.  The map [d.deals] is written only past
    [d.suiteG2.Point()]; a dealer whose suite is nil has panicked there, and
    the dealers the sources build have a map whenever they have a suite. *)
Definition HandleDKGDeal (fuel : nat) (msg : DKGData) (d : DKGDealer)
    : option (outcome DKGDealer (option error)) :=
  match suiteG2_Point d with
  | Panicked m d' => Some (Panicked m d')
  | Returned _ _ =>
      match gob_decode_Deal (msg_buffer msg) with
      | inr err => Some (Returned (Some (Errorf "failed to decode deal" err)) d)
      | inl deal =>
          if negb (participantID (dealerState d) =? dd_ToIndex msg) then
            Some (Returned None d)
          else
            match deals d !! GetAddrString msg with
            | Some _ => Some (Returned None d)
            | None =>
                handler_Transit fuel (set_deals (<[GetAddrString msg := deal]> (deals d)) d)
            end
      end
  end.

(** [uint32(x)] of a Go [int]. *)
Definition to_uint32 (x : Z) : Z := x mod 2 ^ 32.

(** [HandleDKGResponse], lines 359-381. *)
Definition HandleDKGResponse (fuel : nat) (msg : DKGData) (d : DKGDealer)
    : option (outcome DKGDealer (option error)) :=
  match gob_decode_Response (msg_buffer msg) with
  | inr err => Some (Returned (Some (Errorf "failed to decode deal" err)) d)
  | inl resp =>
      if to_uint32 (participantID (dealerState d)) =? response_Index resp then
        Some (Returned None d)
      else handler_Transit fuel (set_responses (responses d ++ [resp]) d)
  end.

Definition set_commits (x : list SecretCommits) (d : DKGDealer) : DKGDealer :=
  {| dealerState := dealerState d; eventFirer := eventFirer d; sendMsgCb := sendMsgCb d;
     pubKey := pubKey d; secKey := secKey d; suiteG1 := suiteG1 d; suiteG2 := suiteG2 d;
     instance := instance d; transitions := transitions d; pubKeys := pubKeys d;
     deals := deals d; responses := responses d; justifications := justifications d;
     commits := x; complaints := complaints d;
     reconstructCommits := reconstructCommits d; losers := losers d |}.

Definition set_complaints (x : list (option ComplaintCommits)) (d : DKGDealer)
    : DKGDealer :=
  {| dealerState := dealerState d; eventFirer := eventFirer d; sendMsgCb := sendMsgCb d;
     pubKey := pubKey d; secKey := secKey d; suiteG1 := suiteG1 d; suiteG2 := suiteG2 d;
     instance := instance d; transitions := transitions d; pubKeys := pubKeys d;
     deals := deals d; responses := responses d; justifications := justifications d;
     commits := commits d; complaints := x;
     reconstructCommits := reconstructCommits d; losers := losers d |}.

Definition set_reconstructCommits (x : list (option ReconstructCommits)) (d : DKGDealer)
    : DKGDealer :=
  {| dealerState := dealerState d; eventFirer := eventFirer d; sendMsgCb := sendMsgCb d;
     pubKey := pubKey d; secKey := secKey d; suiteG1 := suiteG1 d; suiteG2 := suiteG2 d;
     instance := instance d; transitions := transitions d; pubKeys := pubKeys d;
     deals := deals d; responses := responses d; justifications := justifications d;
     commits := commits d; complaints := complaints d;
     reconstructCommits := x; losers := losers d |}.

(** The loop [for i := 0; i < msg.NumEntities; i++ { ... d.suiteG2.Point() }]:
    it calls the suite when it runs at all. *)
Definition prepare_points (n : Z) : D unit :=
  if 0 <? n then suiteG2_Point else ret tt.

(** [HandleDKGCommit], lines 557-573. *)
Definition HandleDKGCommit (fuel : nat) (msg : DKGData) (d : DKGDealer)
    : option (outcome DKGDealer (option error)) :=
  match prepare_points (dd_NumEntities msg) d with
  | Panicked m d' => Some (Panicked m d')
  | Returned _ _ =>
      match gob_decode_SecretCommits (dd_NumEntities msg) (msg_buffer msg) with
      | inr err => Some (Returned (Some (Errorf "failed to decode commit" err)) d)
      | inl c => handler_Transit fuel (set_commits (commits d ++ [c]) d)
      end
  end.

(** [HandleDKGComplaint], lines 618-640: a message without data stands for
    no complaint, and is stored as nil. *)
Definition HandleDKGComplaint (fuel : nat) (msg : DKGData) (d : DKGDealer)
    : option (outcome DKGDealer (option error)) :=
  match dd_Data msg with
  | None => handler_Transit fuel (set_complaints (complaints d ++ [None]) d)
  | Some b =>
      match prepare_points (dd_NumEntities msg) d with
      | Panicked m d' => Some (Panicked m d')
      | Returned _ _ =>
          match gob_decode_ComplaintCommits (dd_NumEntities msg) b with
          | inr err => Some (Returned (Some (Errorf "failed to decode complaint" err)) d)
          | inl c => handler_Transit fuel (set_complaints (complaints d ++ [Some c]) d)
          end
      end
  end.

(** [HandleDKGReconstructCommit], lines 676-693. *)
Definition HandleDKGReconstructCommit (fuel : nat) (msg : DKGData) (d : DKGDealer)
    : option (outcome DKGDealer (option error)) :=
  match dd_Data msg with
  | None =>
      handler_Transit fuel (set_reconstructCommits (reconstructCommits d ++ [None]) d)
  | Some b =>
      match gob_decode_ReconstructCommits b with
      | inr err => Some (Returned (Some (Errorf "failed to decode complaint" err)) d)
      | inl rc =>
          handler_Transit fuel
            (set_reconstructCommits (reconstructCommits d ++ [Some rc]) d)
      end
  end.

Definition set_roundID (x : Z) (d : DKGDealer) : DKGDealer :=
  set_dealerState
    {| validators := validators (dealerState d); addrBytes := addrBytes (dealerState d);
       participantID := participantID (dealerState d); roundID := x |} d.

Definition set_keyPair (sk : Scalar) (pk : Point) (d : DKGDealer) : DKGDealer :=
  {| dealerState := dealerState d; eventFirer := eventFirer d; sendMsgCb := sendMsgCb d;
     pubKey := Some pk; secKey := Some sk; suiteG1 := suiteG1 d; suiteG2 := suiteG2 d;
     instance := instance d; transitions := transitions d; pubKeys := pubKeys d;
     deals := deals d; responses := responses d; justifications := justifications d;
     commits := commits d; complaints := complaints d;
     reconstructCommits := reconstructCommits d; losers := losers d |}.

(** [Start], lines 107-130; [sk] is the scalar [Pick] draws from the random
    stream. *)
Definition Start (sk : Scalar) : D (option error) :=
  (modify (fun d => set_roundID (add64 (roundID (dealerState d)) 1) d) ;;;
   suiteG2_Point ;;;
   modify (set_keyPair sk (point_Mul sk)) ;;;
   modify GenerateTransitions ;;;
   match gob_Point (point_Mul sk) with
   | inr err => ret (Some (Errorf "failed to encode public key" err))
   | inl b =>
       m <~ gets (new_msg DKGPubKey) ;;
       SendMsgCb (with_Data b 0 m) ;;;
       ret None
   end)%go.

(** *** The dealers of dkg_dealer_deal_mocks.go *)

(** [DKGMockDontSendOneDeal.GetDeals], lines 61-68: [deals[:len(deals)-1]]
    panics on no deal at all. *)
Definition DontSendOneDeal_GetDeals : D (list DKGData * option error) :=
  (r <~ GetDeals ;;
   match fst r with
   | [] => panic slice_out_of_range
   | _ :: _ => ret (removelast (fst r), snd r)
   end)%go.

(** [DKGMockDontSendOneDeal.SendDeals], lines 42-59. *)
Definition DontSendOneDeal_SendDeals : D (option error * bool) :=
  (ready <~ gets IsReady ;;
   if negb ready then ret (None, false)
   else
     r <~ DontSendOneDeal_GetDeals ;;
     match snd r with
     | Some err => ret (Some err, true)
     | None => send_all (fst r) ;;; ret (None, true)
     end)%go.

(** [DKGMockDontSendAnyDeal.SendDeals], lines 102-111. *)
Definition DontSendAnyDeal_SendDeals : D (option error * bool) :=
  (ready <~ gets IsReady ;;
   if negb ready then ret (None, false) else ret (None, true))%go.

(** The closures the two mock dealers put in the queue in place of
    [SendDeals]: number 0 is that of [DKGMockDontSendOneDeal], the others that
    of [DKGMockDontSendAnyDeal]. *)
Definition deal_mock_closure (id : nat) : D (option error * bool) :=
  match id with
  | O => DontSendOneDeal_SendDeals
  | S _ => DontSendAnyDeal_SendDeals
  end.

(** [GenerateTransitions] of the two mocks, lines 28-40 and 88-100. *)
Definition mock_GenerateTransitions (id : nat) (d : DKGDealer) : DKGDealer :=
  SetTransitions
    [ tn_other id; tn_ProcessDeals; tn_ProcessResponses; tn_ProcessJustifications;
      tn_ProcessCommits; tn_ProcessComplaints; tn_ProcessReconstructCommits ] d.

(** [Start] of the two mocks, lines 19-26 and 79-86. *)
Definition mock_Start (id : nat) (sk : Scalar) : D (option error) :=
  (err <~ Start sk ;;
   match err with
   | Some e => ret (Some e)
   | None => modify (mock_GenerateTransitions id) ;;; ret None
   end)%go.

End DealerHandlers.

(** ** The life of a dealer: its constructor and the calls that change it *)

Section DealerLife.
Context `{K : Kyber}.
Variable point_Equal : Point -> Point -> bool.
Variable gob_decode_Point : bytes -> Point + error.
Variable gob_decode_Deal : bytes -> Deal + error.
Variable gob_decode_Response : bytes -> Response + error.
Variable gob_decode_Justification : bytes -> Justification + error.
Variable gob_decode_SecretCommits : Z -> bytes -> SecretCommits + error.
Variable gob_decode_ComplaintCommits : Z -> bytes -> ComplaintCommits + error.
Variable gob_decode_ReconstructCommits : bytes -> ReconstructCommits + error.
Variable gob_Point : Point -> bytes + error.
Variable point_Mul : Scalar -> Point.
Variable response_Index : Response -> Z.
Variable GetAddrString : DKGData -> string.
Variable closure : nat -> D (option error * bool).

(** [NewDKGDealer], lines 90-105; [addr] is [pubKey.Address().Bytes()].  The
    literal sets the validators, the address, the two callbacks, the two
    suites and the two maps; every other field has its zero value. *)
Definition NewDKGDealer (vals : ValidatorSet) (addr : bytes) : DKGDealer :=
  {| dealerState := {| validators := vals; addrBytes := addr;
                       participantID := 0; roundID := 0 |};
     eventFirer := []; sendMsgCb := [];
     pubKey := None; secKey := None; suiteG1 := Some SuiteG1; suiteG2 := Some SuiteG2;
     instance := None; transitions := [];
     pubKeys := []; deals := ∅; responses := []; justifications := ∅;
     commits := []; complaints := []; reconstructCommits := [];
     losers := [] |}.

Definition set_justifications (x : gmap string (option Justification)) (d : DKGDealer)
    : DKGDealer :=
  {| dealerState := dealerState d; eventFirer := eventFirer d; sendMsgCb := sendMsgCb d;
     pubKey := pubKey d; secKey := secKey d; suiteG1 := suiteG1 d; suiteG2 := suiteG2 d;
     instance := instance d; transitions := transitions d; pubKeys := pubKeys d;
     deals := deals d; responses := responses d; justifications := x;
     commits := commits d; complaints := complaints d;
     reconstructCommits := reconstructCommits d; losers := losers d |}.

Definition nil_map : string := "assignment to entry in nil map".

(** [HandleDKGJustification], lines 450-471: a message without data stands
    for no justification, and is stored as nil.  The write to the map panics
    on a nil map.  The record does not tell a nil map from an empty one:
    [NewDKGDealer] makes the maps together with the suites, [ResetDKGData]
    drops them together and nothing else assigns either, so the map is nil
    when the suite is. *)
Definition HandleDKGJustification (fuel : nat) (msg : DKGData) (d : DKGDealer)
    : option (outcome DKGDealer (option error)) :=
  match match dd_Data msg with
        | None => inl None
        | Some b => match gob_decode_Justification b with
                    | inl j => inl (Some j)
                    | inr err => inr err
                    end
        end with
  | inr err => Some (Returned (Some (Errorf "failed to decode deal" err)) d)
  | inl justification =>
      match justifications d !! GetAddrString msg with
      | Some _ => Some (Returned None d)
      | None =>
          match suiteG2 d with
          | None => Some (Panicked nil_map d)
          | Some _ =>
              handler_Transit closure fuel
                (set_justifications
                   (<[GetAddrString msg := justification]> (justifications d)) d)
          end
      end
  end.

(** The calls that can change a dealer: the methods of the interface
    [Dealer], lines 22-53, but for the getters ([GetState], [GetLosers],
    [IsReady], [IsDealsReady], [IsResponsesReady], [IsJustificationsReady] and
    [GetVerifier], which only read), and the methods the mock dealers of
    dkg_dealer_deal_mocks.go put in their place.  A transition is called
    through [Transit] or, being a method, on its own. *)
Inductive dealer_method : Type :=
| do_Start (sk : Scalar)
| do_Transit
| do_ResetDKGData
| do_GenerateTransitions
| do_SetTransitions (t : list transition)
| do_HandleDKGPubKey (msg : DKGData)
| do_HandleDKGDeal (msg : DKGData)
| do_HandleDKGResponse (msg : DKGData)
| do_HandleDKGJustification (msg : DKGData)
| do_HandleDKGCommit (msg : DKGData)
| do_HandleDKGComplaint (msg : DKGData)
| do_HandleDKGReconstructCommit (msg : DKGData)
| do_transition (tn : transition)
| do_GetDeals
| do_GetResponses
| do_GetJustifications
| do_GetCommits
| do_SendMsgCb (msg : DKGData)
| do_mock_Start (id : nat) (sk : Scalar)
| do_mock_GenerateTransitions (id : nat)
| do_mock_GetDeals.

(** The dealer a call leaves, however the call ends (a return or a panic);
    [None] when [fuel] iterations of [Transit] did not suffice. *)
Definition dealer_after (fuel : nat) (m : dealer_method) (d : DKGDealer)
    : option DKGDealer :=
  match m with
  | do_Start sk => Some (state_of (Start gob_Point point_Mul sk d))
  | do_Transit => state_of <$> Transit closure fuel d
  | do_ResetDKGData => Some (ResetDKGData d)
  | do_GenerateTransitions => Some (GenerateTransitions d)
  | do_SetTransitions t => Some (SetTransitions t d)
  | do_HandleDKGPubKey msg =>
      state_of <$> HandleDKGPubKey point_Equal gob_decode_Point closure fuel msg d
  | do_HandleDKGDeal msg =>
      state_of <$> HandleDKGDeal gob_decode_Deal GetAddrString closure fuel msg d
  | do_HandleDKGResponse msg =>
      state_of <$> HandleDKGResponse gob_decode_Response response_Index closure fuel msg d
  | do_HandleDKGJustification msg => state_of <$> HandleDKGJustification fuel msg d
  | do_HandleDKGCommit msg =>
      state_of <$> HandleDKGCommit gob_decode_SecretCommits closure fuel msg d
  | do_HandleDKGComplaint msg =>
      state_of <$> HandleDKGComplaint gob_decode_ComplaintCommits closure fuel msg d
  | do_HandleDKGReconstructCommit msg =>
      state_of <$>
        HandleDKGReconstructCommit gob_decode_ReconstructCommits closure fuel msg d
  | do_transition tn => Some (state_of (call closure tn d))
  | do_GetDeals => Some (state_of (GetDeals d))
  | do_GetResponses => Some (state_of (GetResponses d))
  | do_GetJustifications => Some (state_of (GetJustifications d))
  | do_GetCommits => Some (state_of (GetCommits d))
  | do_SendMsgCb msg => Some (state_of (SendMsgCb msg d))
  | do_mock_Start id sk => Some (state_of (mock_Start gob_Point point_Mul id sk d))
  | do_mock_GenerateTransitions id => Some (mock_GenerateTransitions id d)
  | do_mock_GetDeals => Some (state_of (DontSendOneDeal_GetDeals d))
  end.

(** The dealers the program can hold: what [NewDKGDealer] returns, and what
    a call leaves of such a dealer. *)
Inductive dealer_reachable : DKGDealer -> Prop :=
| reach_NewDKGDealer (vals : ValidatorSet) (addr : bytes) :
    dealer_reachable (NewDKGDealer vals addr)
| reach_method (fuel : nat) (m : dealer_method) (d d' : DKGDealer) :
    dealer_reachable d -> dealer_after fuel m d = Some d' -> dealer_reachable d'.

(** A sequence of calls, one after the other. *)
Fixpoint dealer_after_all (fuel : nat) (ms : list dealer_method) (d : DKGDealer)
    : option DKGDealer :=
  match ms with
  | [] => Some d
  | m :: rest =>
      match dealer_after fuel m d with
      | Some d' => dealer_after_all fuel rest d'
      | None => None
      end
  end.

End DealerLife.

(** ** Invariants of the dealer *)

Section DealerInvariants.
Context `{K : Kyber}.

(** A computation on the dealer that keeps [Inv], however it ends, and
    returns values in [Q]. *)
Definition establishes (Inv : DKGDealer -> Prop) {A : Type} (c : D A) (Q : A -> Prop)
    : Prop :=
  forall d, Inv d ->
    match c d with
    | Returned a d' => Inv d' /\ Q a
    | Panicked _ d' => Inv d'
    end.

(** What makes [Inv] an invariant of the dealer's transitions: it is kept by
    the assignments they make and by sending a message in [ok], and the
    messages they build, of a type in [allowed], are in [ok]. *)
Record dealer_invariant (Inv : DKGDealer -> Prop) (ok : DKGData -> Prop)
    (allowed : DKGDataType -> Prop) : Prop := {
  di_instance : forall x d, Inv d -> Inv (set_instance x d);
  di_eventFirer : forall x d, Inv d -> Inv (set_eventFirer x d);
  di_participantID : forall x d, Inv d -> Inv (set_participantID x d);
  di_losers : forall x d, Inv d -> Inv (set_losers x d);
  di_sorted : forall d, Inv d -> Inv (set_pubKeys (PKStore_Sort (pubKeys d)) d);
  di_value_receiver : forall d c, Inv d -> Inv c -> Inv (after_value_receiver d c);
  di_send : forall m d, ok m -> Inv d -> Inv (set_sendMsgCb (sendMsgCb d ++ [m]) d);
  di_new_msg : forall t d, allowed t -> Inv d -> ok (new_msg t d);
  di_with_Data : forall b n m, ok m -> ok (with_Data b n m);
  di_with_ToIndex : forall i m, ok m -> ok (with_ToIndex i m);
  di_set_Data : forall x m, ok m -> ok (set_Data x m)
}.

(** No entry of the key store comes before one of a smaller address. *)
Definition PKStore_ordered (s : list PK2Addr) : Prop :=
  StronglySorted (fun x y => PKStore_Less y x = false) s.

(** The addresses of the key store go strictly up. *)
Definition PKStore_increasing (s : list PK2Addr) : Prop :=
  StronglySorted (fun x y => PKStore_Less x y = true) s.

(** What a step from [d] to [d'] has sent: the messages [d'] holds beyond
    those of [d] bear the address and the round id of [d] and have a type in
    [allowed]; the dealer keeps that address and round id. *)
Definition dealer_sends (allowed : DKGDataType -> Prop) (d d' : DKGDealer) : Prop :=
  addrBytes (dealerState d') = addrBytes (dealerState d) /\
  roundID (dealerState d') = roundID (dealerState d) /\
  exists new : list DKGData,
    sendMsgCb d' = sendMsgCb d ++ new /\
    Forall (fun m => dd_Addr m = addrBytes (dealerState d) /\
                     dd_RoundID m = roundID (dealerState d) /\
                     allowed (dd_Type m)) new.

(** The type of the messages each transition of the dealer sends;
    [ProcessReconstructCommits] sends none. *)
Definition message_type (tn : transition) : option DKGDataType :=
  match tn with
  | tn_SendDeals => Some DKGDeal
  | tn_ProcessDeals => Some DKGResponse
  | tn_ProcessResponses => Some DKGJustification
  | tn_ProcessJustifications => Some DKGCommits
  | tn_ProcessCommits => Some DKGComplaint
  | tn_ProcessComplaints => Some DKGReconstructCommit
  | tn_ProcessReconstructCommits => None
  | tn_other _ => None
  end.

End DealerInvariants.

(** ** Scripted messages and decoders *)

Section ScriptedMessages.
#[local] Existing Instance scripted_kyber.

(** The same five validators, the keys received in the opposite order. *)
Definition dealer_five_reversed : DKGDealer :=
  with_keys (rev (keys_of five_addrs)) (new_dealer five_addrs).

(** Five validators and their keys, but no key pair of the dealer's own:
    the generator cannot be built. *)
Definition dealer_five_no_key : DKGDealer :=
  set_pubKeys (keys_of five_addrs) (new_dealer five_addrs).

(** Three validators, two keys received. *)
Definition dealer_three_two_keys : DKGDealer :=
  GenerateTransitions
    (with_keys (keys_of (map addr_of [Byte.x01; Byte.x02])) (new_dealer three_addrs)).

Definition addr_string (msg : DKGData) : string := string_of_list_byte (dd_Addr msg).

(** A message of validator [x03]: its public key, a deal for participant 0,
    or, with [None] for the data, no complaint. *)
Definition message_of_x03 (t : DKGDataType) (data : option bytes) : DKGData :=
  {| dd_Type := t; dd_RoundID := 0; dd_Addr := addr_of Byte.x03; dd_Data := data;
     dd_ToIndex := 0; dd_NumEntities := 0 |}.

(** Decoders and an encoder that always succeed, and the multiple of the
    base point by [sk] as [sk] itself. *)
Definition equal_Point : Point -> Point -> bool := Z.eqb.
Definition decode_Point : bytes -> Point + error := fun _ => inl 102.
Definition decode_Deal : bytes -> Deal + error := fun _ => inl 0.
Definition decode_Response : bytes -> Response + error := fun _ => inl 0.
Definition decode_Justification : bytes -> Justification + error := fun _ => inl 0.
Definition response_of : Response -> Z := fun r => r.
Definition decode_SecretCommits : Z -> bytes -> SecretCommits + error := fun _ _ => inl [].
Definition decode_ComplaintCommits : Z -> bytes -> ComplaintCommits + error :=
  fun _ _ => inl 0.
Definition decode_ReconstructCommits : bytes -> ReconstructCommits + error :=
  fun _ => inl 0.
Definition encode_Point : Point -> bytes + error := fun _ => inl [Byte.x09].
Definition base_Mul : Scalar -> Point := fun sk => sk.

(** The calls of a round that breaks off: the dealer starts, receives a
    public key, commits and an empty justification of validator [x03], and is
    asked for its commits. *)
Definition calls_of_a_round : list dealer_method :=
  [ do_Start 5;
    do_HandleDKGPubKey (message_of_x03 DKGPubKey (Some [Byte.x09]));
    do_HandleDKGCommit (message_of_x03 DKGCommits (Some [Byte.x01]));
    do_HandleDKGJustification (message_of_x03 DKGJustification None);
    do_GetCommits ].

End ScriptedMessages.

(** ** A verifier that refuses shares *)

Section ScriptedShares.
#[local] Existing Instance scripted_tendermint.

(** A verifier that accepts the share [07] only. *)
Definition checking_shares : Verifier :=
  {| ver_Sign := fun d => ([Byte.x07], None);
     ver_VerifyRandomShare := fun _ _ share =>
       if bytes_Equal share [Byte.x07] then None else Some (ErrorNew "bad share");
     ver_VerifyRandomData := fun _ _ => None;
     ver_Recover := fun _ _ => ([Byte.x2b], None) |}.

Definition dkg_checking_shares : DKG := {| dkg_Verifier := Some checking_shares |}.

(** In step Prevote at height 2, round 0, no majority yet. *)
Definition machine_prevote : BLSConsensusState :=
  machine RoundStepPrevote (votes_for None) None true (Some dkg_checking_shares).

(** In step Precommit, no majority of precommits. *)
Definition machine_precommit : BLSConsensusState :=
  machine RoundStepPrecommit (votes_for None) None true (Some dkg_checking_shares).

(** The hash of a scripted block and the header of a scripted part set. *)
Definition scripted_Hash : Block -> bytes := sb_hash.
Definition scripted_Header : option PartSet -> PartSetHeader :=
  fun ps => match ps with Some ps => sp_header ps | None => PartSetHeader_zero end.

Definition block_A : ScriptedBlock := {| sb_hash := hash_A; sb_random := [] |}.

(** In step Propose, locked on the block [A] since an earlier round, with the
    proposal block [B] complete. *)
Definition machine_locked : BLSConsensusState :=
  set_LockedBlockParts (Some parts_B)
    (set_LockedBlock (Some block_A)
       (machine RoundStepPropose (votes_for None) None true (Some dkg_checking_shares))).

End ScriptedShares.

(** ** Further functions of the round state machine *)

Section Proposals.
Context `{T : Tendermint}.

(** The two sentinel errors of package [consensus] that [defaultSetProposal]
    returns, and the check of the proposal's signature against the proposer's
    key, [cs.Validators.GetProposer().PubKey.VerifyBytes(...)]: [None] when
    the set has no proposer, whose key the call then takes from nil. *)
Variable ErrInvalidProposalPOLRound : error.
Variable ErrInvalidProposalSignature : error.
Variable proposal_signed : BLSConsensusState -> types_Proposal -> option bool.

Definition set_Proposal (x : option types_Proposal) (cs : BLSConsensusState)
    : BLSConsensusState :=
  {| Height := Height cs; Round := Round cs; Step := Step cs; CommitTime := CommitTime cs;
     Validators := Validators cs; Proposal := x;
     ProposalBlock := ProposalBlock cs; ProposalBlockParts := ProposalBlockParts cs;
     LockedRound := LockedRound cs; LockedBlock := LockedBlock cs;
     LockedBlockParts := LockedBlockParts cs;
     ValidRound := ValidRound cs; ValidBlock := ValidBlock cs;
     ValidBlockParts := ValidBlockParts cs;
     Votes := Votes cs; CommitRound := CommitRound cs; LastCommit := LastCommit cs;
     TriggeredTimeoutPrecommit := TriggeredTimeoutPrecommit cs;
     SkipTimeoutCommit := SkipTimeoutCommit cs;
     state := state cs; blockStore := blockStore cs; privValidator := privValidator cs;
     dkg := dkg cs; evpool := evpool cs; eventBus := eventBus cs; evsw := evsw cs;
     internalMsgQueue := internalMsgQueue cs; wal := wal cs; nSteps := nSteps cs;
     tmtime_Now := tmtime_Now cs; voteTime := voteTime cs |}.

(** [defaultSetProposal], lines 728-760. *)
Definition defaultSetProposal (proposal : types_Proposal) : C (option error) :=
  (cs <~ get_cs ;;
   match Proposal cs with
   | Some _ => ret None
   | None =>
       if negb (prop_Height proposal =? Height cs) || negb (prop_Round proposal =? Round cs)
       then ret None
       else if (prop_POLRound proposal <? -1)
               || ((0 <=? prop_POLRound proposal)
                   && (prop_Round proposal <=? prop_POLRound proposal))
       then ret (Some ErrInvalidProposalPOLRound)
       else
         match proposal_signed cs proposal with
         | None => panic nil_dereference
         | Some false => ret (Some ErrInvalidProposalSignature)
         | Some true =>
         modify (set_Proposal (Some proposal)) ;;;
         cs <~ get_cs ;;
         match ProposalBlockParts cs with
         | None =>
             modify (set_ProposalBlockParts
                       (Some (NewPartSetFromHeader (bid_PartsHeader (prop_BlockID proposal)))))
         | Some _ => ret tt
         end ;;;
         ret None
         end
   end)%go.

End Proposals.

Module Prevote.
Section Prevote.
Context `{T : Tendermint}.

(** [Block.Hash()], and [PartSet.Header()], whose receiver may be nil. *)
Variable block_Hash : Block -> bytes.
Variable partset_Header : option PartSet -> PartSetHeader.

(** [defaultDoPrevote], lines 1140-1171, which [NewBLSConsensusState] puts
    in [cs.doPrevote]. *)
Definition defaultDoPrevote (height round : Z) : C unit :=
  (cs <~ get_cs ;;
   match LockedBlock cs with
   | Some locked =>
       signAddVote PrevoteType (block_Hash locked) (partset_Header (LockedBlockParts cs)) ;;;
       ret tt
   | None =>
       match ProposalBlock cs with
       | None => signAddVote PrevoteType [] PartSetHeader_zero ;;; ret tt
       | Some block =>
           match blockExec_ValidateBlock (state cs) (ProposalBlock cs) with
           | Some _ => signAddVote PrevoteType [] PartSetHeader_zero ;;; ret tt
           | None =>
               signAddVote PrevoteType (block_Hash block)
                 (partset_Header (ProposalBlockParts cs)) ;;;
               ret tt
           end
       end
   end)%go.

(** The guard of [enterPrevote], line 1114. *)
Definition enterPrevote_guard (height round : Z) (cs : BLSConsensusState) : bool :=
  negb (Height cs =? height) || (round <? Round cs)
  || ((Round cs =? round) && step_leb RoundStepPrevote (Step cs)).

(** [enterPrevote], lines 1113-1138, with [cs.doPrevote] the default. *)
Definition enterPrevote (height round : Z) : C unit :=
  (cs <~ get_cs ;;
   if enterPrevote_guard height round cs then ret tt
   else defer (defaultDoPrevote height round)
              (updateRoundStep round RoundStepPrevote ;;; newStep))%go.

End Prevote.
End Prevote.

(** What signing a vote leaves alone: all of the round state but the WAL, the
    private validator and the internal message queue. *)
Definition round_state `{T : Tendermint} (cs : BLSConsensusState) :=
  (Height cs, Round cs, Step cs, Validators cs, Votes cs, LastCommit cs,
   (Proposal cs, ProposalBlock cs, ProposalBlockParts cs),
   (LockedRound cs, LockedBlock cs, LockedBlockParts cs),
   (ValidRound cs, ValidBlock cs, ValidBlockParts cs),
   (CommitRound cs, state cs, blockStore cs, dkg cs),
   (evpool cs, eventBus cs, evsw cs)).

(** The place of a state in the run of a height: its round, then its step. *)
Definition not_before `{T : Tendermint} (cs cs1 : BLSConsensusState) : Prop :=
  Round cs < Round cs1 \/
  (Round cs1 = Round cs /\ step_byte (Step cs) <= step_byte (Step cs1)).

(** ** Validator updates (the block executor, dkg_dealer.go lines 1131-1218) *)

(** [abci.ValidatorUpdate], as far as [validateValidatorUpdates] reads it. *)
Record ValidatorUpdate : Type := {
  vu_KeyType : string;
  vu_Power : Z
}.

(** [validateValidatorUpdates], lines 1131-1150; [IsValidPubkeyType] is the
    method of the validator parameters. *)
Fixpoint validateValidatorUpdates (abciUpdates : list ValidatorUpdate)
    (IsValidPubkeyType : string -> bool) : option error :=
  match abciUpdates with
  | [] => None
  | valUpdate :: rest =>
      if vu_Power valUpdate <? 0 then Some (ErrorNew "Voting power can't be negative")
      else if vu_Power valUpdate =? 0 then validateValidatorUpdates rest IsValidPubkeyType
      else if negb (IsValidPubkeyType (vu_KeyType valUpdate)) then
        Some (ErrorNew "Validator is using pubkey, which is unsupported for consensus")
      else validateValidatorUpdates rest IsValidPubkeyType
  end.

(** [*types.Validator] as an update: the fields [updateValidators] reads or
    writes. *)
Record types_Validator : Type := {
  tv_Address : bytes;
  tv_VotingPower : Z;
  tv_ProposerPriority : Z
}.

Definition set_ProposerPriority (x : Z) (v : types_Validator) : types_Validator :=
  {| tv_Address := tv_Address v; tv_VotingPower := tv_VotingPower v;
     tv_ProposerPriority := x |}.

Section ValidatorUpdates.

(** The validator set [updateValidators] works on, through the methods it
    calls: the set is behind a pointer, so each method returns the set it
    leaves; and the bound [types.MaxTotalVotingPower]. *)
Variable ValSet : Type.
Variable valset_GetByAddress : ValSet -> bytes -> option types_Validator.
Variable valset_Remove : ValSet -> bytes -> ValSet * bool.
Variable valset_Add : ValSet -> types_Validator -> ValSet * bool.
Variable valset_Update : ValSet -> types_Validator -> ValSet * bool.
Variable valset_TotalVotingPower : ValSet -> Z.
Variable MaxTotalVotingPower : Z.

(** [updatedVotingPower > types.MaxTotalVotingPower || updatedVotingPower < 0] *)
Definition overflow (updatedVotingPower : Z) : bool :=
  (MaxTotalVotingPower <? updatedVotingPower) || (updatedVotingPower <? 0).

(** [-(totalVotingPower + (totalVotingPower >> 3))], line 1190. *)
Definition new_ProposerPriority (totalVotingPower : Z) : Z :=
  sub64 0 (add64 totalVotingPower (Z.shiftr totalVotingPower 3)).

(** [updateValidators], lines 1155-1218: the set as the call leaves it, and
    the error. *)
Fixpoint updateValidators (currentSet : ValSet) (updates : list types_Validator)
    (isVotingPowerEqual : bool) : ValSet * option error :=
  match updates with
  | [] => (currentSet, None)
  | valUpdate :: rest =>
      if negb isVotingPowerEqual && (tv_VotingPower valUpdate <? 0) then
        (currentSet, Some (ErrorNew "Voting power can't be negative"))
      else
        let address := tv_Address valUpdate in
        let val := valset_GetByAddress currentSet address in
        if negb isVotingPowerEqual && (tv_VotingPower valUpdate =? 0) then
          let r := valset_Remove currentSet address in
          if negb (snd r) then (fst r, Some (ErrorNew "Failed to remove validator"))
          else updateValidators (fst r) rest isVotingPowerEqual
        else
          match val with
          | None =>
              let totalVotingPower := valset_TotalVotingPower currentSet in
              if negb isVotingPowerEqual
                 && overflow (add64 (tv_VotingPower valUpdate) totalVotingPower)
              then
                (currentSet,
                 Some (ErrorNew "Failed to add new validator. Adding it would exceed max allowed total voting power"))
              else
                let valUpdate' :=
                  if negb isVotingPowerEqual
                  then set_ProposerPriority (new_ProposerPriority totalVotingPower) valUpdate
                  else valUpdate in
                let r := valset_Add currentSet valUpdate' in
                if negb (snd r) then (fst r, Some (ErrorNew "Failed to add new validator"))
                else updateValidators (fst r) rest isVotingPowerEqual
          | Some val =>
              let totalVotingPower := valset_TotalVotingPower currentSet in
              if negb isVotingPowerEqual
                 && overflow (add64 (sub64 totalVotingPower (tv_VotingPower val))
                                (tv_VotingPower valUpdate))
              then
                (currentSet,
                 Some (ErrorNew "Failed to update existing validator. Updating it would exceed max allowed total voting power"))
              else
                let r := valset_Update currentSet valUpdate in
                if negb (snd r) then (fst r, Some (ErrorNew "Failed to update validator"))
                else updateValidators (fst r) rest isVotingPowerEqual
          end
  end.

End ValidatorUpdates.

(** What [validateValidatorUpdates] is to let through. *)
Definition valid_update (IsValidPubkeyType : string -> bool) (u : ValidatorUpdate) : Prop :=
  0 <= vu_Power u /\ (vu_Power u = 0 \/ IsValidPubkeyType (vu_KeyType u) = true).

(** A validator set as the list of its validators, to run [updateValidators]
    on. *)
Definition validator_of (b : Byte.byte) (power : Z) : types_Validator :=
  {| tv_Address := [b]; tv_VotingPower := power; tv_ProposerPriority := 0 |}.

Definition scripted_GetByAddress (s : list types_Validator) (addr : bytes)
    : option types_Validator :=
  List.find (fun v => bytes_Equal (tv_Address v) addr) s.

Definition scripted_Remove (s : list types_Validator) (addr : bytes)
    : list types_Validator * bool :=
  match scripted_GetByAddress s addr with
  | Some _ => (List.filter (fun v => negb (bytes_Equal (tv_Address v) addr)) s, true)
  | None => (s, false)
  end.

Definition scripted_Add (s : list types_Validator) (v : types_Validator)
    : list types_Validator * bool :=
  match scripted_GetByAddress s (tv_Address v) with
  | Some _ => (s, false)
  | None => (s ++ [v], true)
  end.

Definition scripted_Update (s : list types_Validator) (v : types_Validator)
    : list types_Validator * bool :=
  match scripted_GetByAddress s (tv_Address v) with
  | Some _ =>
      (map (fun w => if bytes_Equal (tv_Address w) (tv_Address v) then v else w) s, true)
  | None => (s, false)
  end.

Definition scripted_TotalVotingPower (s : list types_Validator) : Z :=
  fold_right (fun v total => add64 (tv_VotingPower v) total) 0 s.

(** * Statements about the dealer *)

Section DealerFrame.
Context `{K : Kyber}.

Lemma keeps_ret {A : Type} (a : A) : keeps_queue (ret a).
Proof. intros d. reflexivity. Qed.

Lemma keeps_panic {A : Type} (m : string) : keeps_queue (@panic DKGDealer A m).
Proof. intros d. reflexivity. Qed.

Lemma keeps_gets {A : Type} (f : DKGDealer -> A) : keeps_queue (gets f).
Proof. intros d. reflexivity. Qed.

Lemma keeps_modify (f : DKGDealer -> DKGDealer) :
  (forall d, transitions (f d) = transitions d) -> keeps_queue (modify f).
Proof. intros Hf d. apply Hf. Qed.

Lemma keeps_bind {A B : Type} (c : D A) (k : A -> D B) :
  keeps_queue c -> (forall a, keeps_queue (k a)) -> keeps_queue (bind c k).
Proof.
  intros Hc Hk d. unfold bind. specialize (Hc d).
  destruct (c d) as [a d'|m d']; simpl in *.
  - rewrite Hk. exact Hc.
  - exact Hc.
Qed.

Lemma keeps_when (b : bool) (c : D unit) : keeps_queue c -> keeps_queue (when b c).
Proof. intros Hc. destruct b; [exact Hc | apply keeps_ret]. Qed.

Lemma keeps_on_instance {A : Type} (op : DistKeyGenerator -> DistKeyGenerator * A) :
  keeps_queue (on_instance op).
Proof.
  intros d. unfold on_instance. destruct (instance d) as [g|]; [|reflexivity].
  destruct (op g). reflexivity.
Qed.

Lemma keeps_read_instance {A : Type} (f : DistKeyGenerator -> A) :
  keeps_queue (read_instance f).
Proof. intros d. unfold read_instance. destruct (instance d); reflexivity. Qed.

Lemma keeps_FireEvent (e : DKGEvent) (data : option Z) : keeps_queue (FireEvent e data).
Proof. apply keeps_modify. reflexivity. Qed.

Lemma keeps_SendMsgCb (m : DKGData) : keeps_queue (SendMsgCb m).
Proof. apply keeps_modify. reflexivity. Qed.

Lemma keeps_value_receiver {A : Type} (body : D A) : keeps_queue (value_receiver body).
Proof. intros d. unfold value_receiver. destruct (body d); reflexivity. Qed.

Lemma keeps_send_all (msgs : list DKGData) : keeps_queue (send_all msgs).
Proof.
  induction msgs as [|m rest IH]; simpl.
  - apply keeps_ret.
  - apply keeps_bind; [apply keeps_SendMsgCb | intros _; exact IH].
Qed.

Create HintDb keeps.

(** One step of a frame proof: a rule for the head construct, or a case
    split on what a [match] or [if] looks at. *)
Ltac keeps_step :=
  first
    [ solve [auto 1 with keeps nocore]
    | apply keeps_ret | apply keeps_panic | apply keeps_gets
    | apply keeps_FireEvent | apply keeps_SendMsgCb | apply keeps_send_all
    | apply keeps_on_instance | apply keeps_read_instance
    | apply keeps_value_receiver
    | apply keeps_when
    | apply keeps_modify; intros; reflexivity
    | apply keeps_bind; [| intros ?]
    | match goal with
      | |- keeps_queue (match ?x with _ => _ end) => destruct x
      end ].

Ltac keeps := repeat keeps_step.

Lemma keeps_GetDeals_encode ds acc : keeps_queue (GetDeals_encode ds acc).
Proof.
  revert acc. induction ds as [|[i deal] rest IH]; intros acc; simpl.
  - apply keeps_ret.
  - destruct (gob_Deal deal); keeps; auto.
Qed.
#[local] Hint Resolve keeps_GetDeals_encode : keeps.

Lemma keeps_GetDeals : keeps_queue GetDeals.
Proof. unfold GetDeals, Size. keeps. Qed.
#[local] Hint Resolve keeps_GetDeals : keeps.

Lemma keeps_SendDeals : keeps_queue SendDeals.
Proof. unfold SendDeals. keeps. Qed.

Lemma keeps_GetResponses_loop ds acc : keeps_queue (GetResponses_loop ds acc).
Proof.
  revert acc. induction ds as [|deal rest IH]; intros acc; simpl; keeps; auto.
Qed.
#[local] Hint Resolve keeps_GetResponses_loop : keeps.

Lemma keeps_ProcessDeals : keeps_queue ProcessDeals.
Proof.
  unfold ProcessDeals, GetResponses. keeps.
Qed.

Lemma keeps_GetJustifications_loop rs acc : keeps_queue (GetJustifications_loop rs acc).
Proof.
  revert acc. induction rs as [|resp rest IH]; intros acc; simpl.
  - apply keeps_ret.
  - unfold processResponse. keeps; auto.
Qed.
#[local] Hint Resolve keeps_GetJustifications_loop : keeps.

Lemma keeps_ProcessResponses : keeps_queue ProcessResponses.
Proof.
  unfold ProcessResponses, GetJustifications. keeps.
Qed.

Lemma keeps_ProcessJustifications : keeps_queue ProcessJustifications.
Proof. unfold ProcessJustifications, GetCommits. keeps. Qed.

Lemma keeps_ProcessCommits_loop cs fin acc : keeps_queue (ProcessCommits_loop cs fin acc).
Proof.
  revert fin acc. induction cs as [|c rest IH]; intros fin acc; simpl; keeps; auto.
Qed.
#[local] Hint Resolve keeps_ProcessCommits_loop : keeps.

Lemma keeps_ProcessCommits : keeps_queue ProcessCommits.
Proof. unfold ProcessCommits. keeps. Qed.

Lemma keeps_ProcessComplaints_loop cs : keeps_queue (ProcessComplaints_loop cs).
Proof. induction cs as [|[c|] rest IH]; simpl; keeps; auto. Qed.
#[local] Hint Resolve keeps_ProcessComplaints_loop : keeps.

Lemma keeps_ProcessComplaints : keeps_queue ProcessComplaints.
Proof. unfold ProcessComplaints. keeps. Qed.

Lemma keeps_ProcessReconstructCommits_loop rcs :
  keeps_queue (ProcessReconstructCommits_loop rcs).
Proof. induction rcs as [|[rc|] rest IH]; simpl; keeps; auto. Qed.
#[local] Hint Resolve keeps_ProcessReconstructCommits_loop : keeps.

Lemma keeps_ProcessReconstructCommits : keeps_queue ProcessReconstructCommits.
Proof.
  unfold ProcessReconstructCommits. keeps.
Qed.

(** None of the dealer's own transitions touches the queue; with closures
    that do not either, no call does. *)
Lemma keeps_call (closure : nat -> D (option error * bool)) :
  (forall id, keeps_queue (closure id)) ->
  forall tn, keeps_queue (call closure tn).
Proof.
  intros Hc [| | | | | | |id]; simpl;
    auto using keeps_SendDeals, keeps_ProcessDeals, keeps_ProcessResponses,
      keeps_ProcessJustifications, keeps_ProcessCommits, keeps_ProcessComplaints,
      keeps_ProcessReconstructCommits.
Qed.

(** A computation that, when it returns, reports ready. *)
Definition reports_ready (c : D (option error * bool)) : Prop :=
  forall d r d', c d = Returned r d' -> snd r = true.

Lemma ready_ret (e : option error) : reports_ready (ret (e, true)).
Proof. intros d r d' H. injection H as <- _. reflexivity. Qed.

Lemma ready_bind {A : Type} (c : D A) (k : A -> D (option error * bool)) :
  (forall a, reports_ready (k a)) -> reports_ready (bind c k).
Proof.
  intros Hk d r d'. unfold bind. destruct (c d) as [a d1|m d1]; [|discriminate].
  apply Hk.
Qed.

Ltac ready_step :=
  first
    [ apply ready_ret
    | apply ready_bind; intros ?
    | match goal with
      | |- reports_ready (match ?x with _ => _ end) => destruct x
      end ].

(** The guard of the dealer's own transitions: not ready and nothing done,
    or the rest of the transition, which reports ready. *)
Lemma guarded_not_ready {A : Type} (pre : D A) (test : A -> bool)
    (rest : A -> D (option error * bool)) (d d' : DKGDealer) (err : option error) :
  (forall d0, exists a, pre d0 = Returned a d0 \/ exists m, pre d0 = Panicked m d0) ->
  (forall a, reports_ready (rest a)) ->
  bind pre (fun a => if test a then ret (None, false) else rest a) d
  = Returned (err, false) d' ->
  d' = d /\ err = None.
Proof.
  intros Hpre Hrest. unfold bind.
  destruct (Hpre d) as [a [-> | [m ->]]]; [|discriminate].
  destruct (test a).
  - intros H. injection H as <- <-. split; reflexivity.
  - intros H. apply Hrest in H. discriminate.
Qed.

(** A transition of the dealer's own that reports not ready has done nothing
    and returns no error. *)
Lemma own_transition_not_ready_noop (closure : nat -> D (option error * bool))
    (tn : transition) (d d' : DKGDealer) (err : option error) :
  (forall id, tn <> tn_other id) ->
  call closure tn d = Returned (err, false) d' ->
  d' = d /\ err = None.
Proof.
  intros Hown. destruct tn as [| | | | | | |id]; [..|destruct (Hown id); reflexivity]; simpl.
  - apply (guarded_not_ready (gets IsReady) negb).
    + intros d0. eexists. left. reflexivity.
    + intros a. repeat ready_step.
  - apply (guarded_not_ready (gets IsDealsReady) negb).
    + intros d0. eexists. left. reflexivity.
    + intros a. repeat ready_step.
  - apply (guarded_not_ready (gets IsResponsesReady) negb).
    + intros d0. eexists. left. reflexivity.
    + intros a. repeat ready_step.
  - apply (guarded_not_ready (gets IsJustificationsReady) negb).
    + intros d0. eexists. left. reflexivity.
    + intros a. repeat ready_step.
  - unfold ProcessCommits. intros H.
    unfold bind at 1 in H. unfold gets at 1 in H. cbv beta iota in H.
    unfold bind at 1 in H. unfold read_instance at 1 in H.
    destruct (instance d) as [g|]; [|discriminate].
    destruct (len (commits d) <? len (dkg_QUAL g)).
    + injection H as <- <-. split; reflexivity.
    + exfalso. revert H.
      match goal with
      | |- ?c d = _ -> False =>
          assert (reports_ready c) as Hr by (repeat ready_step); intros H
      end.
      apply Hr in H. discriminate.
  - unfold ProcessComplaints. intros H.
    unfold bind at 1 in H. unfold gets at 1 in H. cbv beta iota in H.
    unfold bind at 1 in H. unfold read_instance at 1 in H.
    destruct (instance d) as [g|]; [|discriminate].
    destruct (len (complaints d) <? sub64 (len (dkg_QUAL g)) 1).
    + injection H as <- <-. split; reflexivity.
    + exfalso. revert H.
      match goal with
      | |- ?c d = _ -> False =>
          assert (reports_ready c) as Hr by (repeat ready_step); intros H
      end.
      apply Hr in H. discriminate.
  - unfold ProcessReconstructCommits. intros H.
    unfold bind at 1 in H. unfold gets at 1 in H. cbv beta iota in H.
    unfold bind at 1 in H. unfold read_instance at 1 in H.
    destruct (instance d) as [g|]; [|discriminate].
    destruct (len (reconstructCommits d) <? sub64 (len (dkg_QUAL g)) 1).
    + injection H as <- <-. split; reflexivity.
    + exfalso. revert H.
      match goal with
      | |- ?c d = _ -> False =>
          assert (reports_ready c) as Hr by (repeat ready_step); intros H
      end.
      apply Hr in H. discriminate.
Qed.

End DealerFrame.


Section DealerQueueStep.
Context `{K : Kyber}.
Variable closure : nat -> D (option error * bool).

(** One iteration, for any closure at the head: not ready, or ready with an
    error, and [Transit] returns on the dealer as the closure left it. *)
Lemma Transit_head_stops (fuel : nat) (d d' : DKGDealer) (tn : transition)
    (q : list transition) (err : option error) (ready : bool) :
  transitions d = tn :: q ->
  call closure tn d = Returned (err, ready) d' ->
  (ready = false -> Transit closure (S fuel) d = Some (Returned None d')) /\
  (ready = true -> forall e, err = Some e ->
     Transit closure (S fuel) d = Some (Returned (Some e) d')).
Proof.
  intros Hq Hcall. simpl. rewrite Hq, Hcall. split.
  - intros ->. reflexivity.
  - intros -> e ->. reflexivity.
Qed.

End DealerQueueStep.

Section DealerQueueRun.
Context `{K : Kyber}.
Variable closure : nat -> D (option error * bool).
Hypothesis closure_keeps_queue : forall id, keeps_queue (closure id).

Lemma call_Returned_queue tn d r d' :
  call closure tn d = Returned r d' -> transitions d' = transitions d.
Proof.
  intros H. pose proof (keeps_call closure closure_keeps_queue tn d) as Hk.
  rewrite H in Hk. exact Hk.
Qed.

(** C4. [Transit] works through the queue from its head, in order: the
    closures of a prefix [done] of the queue were called one after the other,
    each reported ready without error and was removed; then either the queue
    is empty and [Transit] returns nil, or the next closure was called and
    reported not ready ([Transit] returns nil) or ready with an error
    ([Transit] returns that error), and in both cases it is still at the head
    of the queue.  This holds for every queue whose closures, other than the
    dealer's own methods, leave the queue alone, with as many iterations as
    the queue is long. *)
Theorem Transit_runs_queue_in_order :
  forall (fuel : nat) (d : DKGDealer),
    (length (transitions d) < fuel)%nat ->
    exists (done rest : list transition) (d1 : DKGDealer),
      transitions d = done ++ rest /\
      consume closure done d = Some d1 /\
      transitions d1 = rest /\
      match rest with
      | [] => Transit closure fuel d = Some (Returned None d1)
      | tn :: _ =>
          match call closure tn d1 with
          | Panicked m d2 => Transit closure fuel d = Some (Panicked m d2)
          | Returned (err, ready) d2 =>
              transitions d2 = rest /\
              match ready, err with
              | false, _ => Transit closure fuel d = Some (Returned None d2)
              | true, Some e => Transit closure fuel d = Some (Returned (Some e) d2)
              | true, None => False
              end
          end
      end.
Proof.
  induction fuel as [|fuel IH]; intros d Hlen; [lia|].
  destruct (transitions d) as [|tn q] eqn:Hq.
  - exists [], [], d. simpl. rewrite Hq. auto.
  - destruct (call closure tn d) as [[err ready] d2|m d2] eqn:Hcall.
    + pose proof (call_Returned_queue _ _ _ _ Hcall) as Hframe. rewrite Hq in Hframe.
      destruct ready; [destruct err as [e|]|].
      * exists [], (tn :: q), d. rewrite Hcall. simpl. rewrite Hq, Hcall. auto.
      * destruct (IH (set_transitions q d2)) as (done & rest & d1 & Hsplit & Hcons & Hrest & Hend).
        { simpl in *. lia. }
        exists (tn :: done), rest, d1. simpl in Hsplit.
        repeat split.
        -- simpl. congruence.
        -- simpl. rewrite Hcall, Hframe. exact Hcons.
        -- exact Hrest.
        -- assert (Transit closure (S fuel) d = Transit closure fuel (set_transitions q d2)) as ->.
           { simpl. rewrite Hq, Hcall, Hframe. reflexivity. }
           exact Hend.
      * exists [], (tn :: q), d. rewrite Hcall. simpl. rewrite Hq, Hcall. auto.
    + exists [], (tn :: q), d. rewrite Hcall. simpl. rewrite Hq, Hcall. auto.
Qed.

End DealerQueueRun.

Section DealerRound.
Context `{K : Kyber}.

(** [ResetDKGData] assigns nil to the key pair, both suites, the generator,
    the transition queue, the public-key store, the deals, the responses, the
    justifications, the commits, the complaints and the reconstruct-commits;
    it has no assignment to the losers list. *)
Lemma ResetDKGData_clears_all_but_losers :
  forall d : DKGDealer,
    pubKey (ResetDKGData d) = None /\
    secKey (ResetDKGData d) = None /\
    suiteG1 (ResetDKGData d) = None /\
    suiteG2 (ResetDKGData d) = None /\
    instance (ResetDKGData d) = None /\
    transitions (ResetDKGData d) = [] /\
    pubKeys (ResetDKGData d) = [] /\
    deals (ResetDKGData d) = ∅ /\
    responses (ResetDKGData d) = [] /\
    justifications (ResetDKGData d) = ∅ /\
    commits (ResetDKGData d) = [] /\
    complaints (ResetDKGData d) = [] /\
    reconstructCommits (ResetDKGData d) = [] /\
    losers (ResetDKGData d) = losers d.
Proof. intros d. unfold ResetDKGData. simpl. repeat split. Qed.

(** The identity of the dealer and its round counter outlive the reset too. *)
Lemma ResetDKGData_keeps_DealerState (d : DKGDealer) :
  dealerState (ResetDKGData d) = dealerState d.
Proof. reflexivity. Qed.

(** Whatever [GetCommits] does, the dealer it was called on has the losers it
    had: the method has a value receiver. *)
Lemma GetCommits_keeps_losers (d : DKGDealer) :
  losers (state_of (GetCommits d)) = losers d.
Proof.
  unfold GetCommits, value_receiver. destruct (GetCommits_body d); reflexivity.
Qed.

(** So [GetLosers] after [GetCommits] answers as before it. *)
Lemma GetLosers_after_GetCommits (d : DKGDealer) :
  GetLosers (state_of (GetCommits d)) = GetLosers d.
Proof.
  unfold GetLosers. rewrite GetCommits_keeps_losers.
  unfold GetCommits, value_receiver. destruct (GetCommits_body d); reflexivity.
Qed.

(** The parameters of the verifier [GetVerifier] builds. *)
Lemma GetVerifier_parameters (d : DKGDealer) (v : BLSVerifier) :
  GetVerifier d = inl v ->
  bls_t v = mul64 (quot64 (vs_Size (validators (dealerState d))) 3) 2 /\
  bls_n v = vs_Size (validators (dealerState d)).
Proof.
  unfold GetVerifier. intros H.
  destruct (instance d) as [g|]; [|discriminate].
  destruct (dkg_Finished g); [|discriminate]. simpl in H.
  destruct (dkg_DistKeyShare g); [|discriminate].
  injection H as <-. split; reflexivity.
Qed.

(** The threshold [GetDeals] builds the generator with: when the library
    refuses that call, [GetDeals] returns its error. *)
Lemma GetDeals_threshold (d : DKGDealer) (err : error) :
  NewDistKeyGenerator (suiteG2 d) (secKey d) (GetPKs (PKStore_Sort (pubKeys d)))
    (quot64 (mul64 (vs_Size (validators (dealerState d))) 2) 3) = inr err ->
  GetDeals d =
  Returned ([], Some (Errorf "failed to create dkgState instance" err))
           (set_pubKeys (PKStore_Sort (pubKeys d)) d).
Proof.
  intros H. unfold GetDeals, Size, bind, modify, gets. simpl. rewrite H. reflexivity.
Qed.

End DealerRound.

(** ** The two thresholds *)

Lemma wrap64_small (z : Z) : in_int64 z -> wrap64 z = z.
Proof.
  unfold in_int64, wrap64. intros H. rewrite Z.mod_small; lia.
Qed.

(** The threshold of [GetDeals] is the floor of 2n/3, below n. *)
Lemma deals_threshold_floor (n : Z) :
  1 <= n < 2 ^ 62 ->
  quot64 (mul64 n 2) 3 = (2 * n) / 3 /\ quot64 (mul64 n 2) 3 < n.
Proof.
  intros Hn. unfold quot64, mul64.
  rewrite (wrap64_small (n * 2)) by (unfold in_int64; lia).
  rewrite Z.quot_div_nonneg by lia.
  assert (0 <= n * 2 / 3 < n).
  { split; [apply Z.div_pos; lia | apply Z.div_lt_upper_bound; lia]. }
  rewrite wrap64_small by (unfold in_int64; lia).
  replace (2 * n) with (n * 2) by lia. lia.
Qed.

(** The threshold of [GetVerifier] is twice the floor of n/3, below n. *)
Lemma verifier_threshold_floor (n : Z) :
  1 <= n < 2 ^ 62 ->
  mul64 (quot64 n 3) 2 = 2 * (n / 3) /\ mul64 (quot64 n 3) 2 < n.
Proof.
  intros Hn. unfold quot64, mul64.
  rewrite Z.quot_div_nonneg by lia.
  assert (0 <= n / 3 /\ 3 * (n / 3) <= n).
  { split; [apply Z.div_pos; lia | apply Z.mul_div_le; lia]. }
  rewrite (wrap64_small (n / 3)) by (unfold in_int64; lia).
  rewrite wrap64_small by (unfold in_int64; lia). lia.
Qed.

(** The two agree exactly when n mod 3 is not 2. *)
Lemma thresholds_agree_iff (n : Z) :
  1 <= n < 2 ^ 62 ->
  (quot64 (mul64 n 2) 3 = mul64 (quot64 n 3) 2 <-> n mod 3 <> 2).
Proof.
  intros Hn.
  destruct (deals_threshold_floor n Hn) as [-> _].
  destruct (verifier_threshold_floor n Hn) as [-> _].
  pose proof (Z.div_mod n 3 ltac:(lia)) as Hdm.
  pose proof (Z.mod_pos_bound n 3 ltac:(lia)) as Hm.
  assert (2 * n = 3 * (2 * (n / 3)) + 2 * (n mod 3)) as Heq by lia.
  split; intros H.
  - intros H2. rewrite H2 in Heq.
    assert (2 * n / 3 = 2 * (n / 3) + 1) as Hq.
    { symmetry. apply (Z.div_unique _ _ _ 1); lia. }
    lia.
  - symmetry. apply (Z.div_unique _ _ _ (2 * (n mod 3))); lia.
Qed.

Section DealerCommits.
Context `{K : Kyber}.

Lemma bundle_answers_length (g : DistKeyGenerator) (cs : list SecretCommits) :
  length (bundle_answers g cs) = length cs.
Proof.
  revert g. induction cs as [|c rest IH]; intros g; simpl; [reflexivity|].
  rewrite IH. reflexivity.
Qed.

(** A message without data stands for a bundle without complaint. *)
Lemma complaint_message_Data (d : DKGDealer) (a : option ComplaintCommits + error) :
  answer_ok a = true ->
  (dd_Data (complaint_message d a) = None <-> no_complaint a = true).
Proof.
  destruct a as [[c|]|e]; simpl; try discriminate.
  - destruct (gob_ComplaintCommits c); [|discriminate]. intros _. simpl.
    split; discriminate.
  - intros _. split; reflexivity.
Qed.

Lemma complaint_message_Type (d : DKGDealer) (a : option ComplaintCommits + error) :
  dd_Type (complaint_message d a) = DKGComplaint.
Proof.
  destruct a as [[c|]|e]; simpl; try reflexivity.
  destruct (gob_ComplaintCommits c); reflexivity.
Qed.

(** The loop of [ProcessCommits] on answers that are all fine: one message
    per bundle, and [alreadyFinished] stays true only without any complaint. *)
Lemma ProcessCommits_loop_ok (cs : list SecretCommits) :
  forall (g : DistKeyGenerator) (d : DKGDealer) (fin : bool) (acc : list DKGData),
    instance d = Some g ->
    forallb answer_ok (bundle_answers g cs) = true ->
    exists g' : DistKeyGenerator,
      ProcessCommits_loop cs fin acc d =
      Returned (inl (fin && forallb no_complaint (bundle_answers g cs),
                     acc ++ map (complaint_message d) (bundle_answers g cs)))
               (set_instance (Some g') d).
Proof.
  induction cs as [|c rest IH]; intros g d fin acc Hinst Hok; simpl.
  - exists g. unfold ret. rewrite andb_true_r, app_nil_r.
    f_equal. destruct d; simpl in *; subst; reflexivity.
  - simpl in Hok. apply andb_true_iff in Hok as [Hok1 Hok2].
    unfold bind at 1. unfold gets at 1.
    unfold bind at 1. unfold on_instance at 1. rewrite Hinst.
    destruct (dkg_ProcessSecretCommits g c) as [g1 a] eqn:Hp. simpl in *.
    destruct a as [[complaint|]|e]; simpl in *; try discriminate.
    + destruct (gob_ComplaintCommits complaint) as [b|e] eqn:Hgob; [|discriminate].
      destruct (IH g1 (set_instance (Some g1) d) false
                  (acc ++ [with_Data b (len (cc_DealCommitments complaint))
                             (new_msg DKGComplaint d)]) eq_refl Hok2) as [g' Hloop].
      exists g'. rewrite Hloop. rewrite andb_false_r. rewrite <- app_assoc. reflexivity.
    + destruct (IH g1 (set_instance (Some g1) d) fin
                  (acc ++ [new_msg DKGComplaint d]) eq_refl Hok2) as [g' Hloop].
      exists g'. rewrite Hloop. rewrite <- app_assoc. reflexivity.
Qed.

(** C9, as amended.  When [ProcessCommits] runs with at least |QUAL| commits
    collected and every bundle is processed and encoded without error, it
    builds one DKGComplaint message per bundle, without data for a bundle that
    needs no complaint, and sends them all, in order, if at least one bundle
    needs a complaint; if none does, it sends nothing.  Either way it reports
    ready without error. *)
Theorem ProcessCommits_sends_complaints :
  forall (d : DKGDealer) (g : DistKeyGenerator),
    instance d = Some g ->
    len (dkg_QUAL g) <= len (commits d) ->
    forallb answer_ok (bundle_answers g (commits d)) = true ->
    exists d' : DKGDealer,
      ProcessCommits d = Returned (None, true) d' /\
      length (bundle_answers g (commits d)) = length (commits d) /\
      sendMsgCb d' =
        sendMsgCb d ++
        (if forallb no_complaint (bundle_answers g (commits d)) then []
         else map (complaint_message d) (bundle_answers g (commits d))) /\
      (forall a, In a (bundle_answers g (commits d)) ->
         dd_Type (complaint_message d a) = DKGComplaint /\
         (dd_Data (complaint_message d a) = None <-> no_complaint a = true)).
Proof.
  intros d g Hinst Hready Hok.
  destruct (ProcessCommits_loop_ok (commits d) g d true [] Hinst Hok) as [g' Hloop].
  unfold ProcessCommits.
  unfold bind at 1. unfold gets at 1.
  unfold bind at 1. unfold read_instance at 1. rewrite Hinst.
  assert ((len (commits d) <? len (dkg_QUAL g)) = false) as ->
    by (apply Z.ltb_ge; exact Hready).
  unfold bind at 1. rewrite Hloop. simpl.
  destruct (forallb no_complaint (bundle_answers g (commits d))) eqn:Hall.
  - eexists. split; [reflexivity|]. split; [apply bundle_answers_length|].
    split; [simpl; rewrite app_nil_r; reflexivity|].
    intros a Ha. split; [apply complaint_message_Type|].
    apply complaint_message_Data.
    rewrite forallb_forall in Hok. apply Hok, Ha.
  - unfold bind, gets, FireEvent, modify, when. simpl.
    assert (forall msgs d0,
              exists d1, send_all msgs d0 = Returned tt d1 /\
                         sendMsgCb d1 = sendMsgCb d0 ++ msgs) as Hsend.
    { induction msgs as [|m rest IHm]; intros d0; simpl.
      - exists d0. unfold ret. rewrite app_nil_r. auto.
      - unfold bind, SendMsgCb, modify.
        destruct (IHm (set_sendMsgCb (sendMsgCb d0 ++ [m]) d0)) as (d1 & -> & Hd1).
        exists d1. split; [reflexivity|]. rewrite Hd1. simpl. rewrite <- app_assoc. reflexivity. }
    match goal with
    | |- context [send_all ?msgs ?d0] => destruct (Hsend msgs d0) as (d1 & Hs & Hd1)
    end.
    rewrite Hs. exists d1. split; [reflexivity|]. split; [apply bundle_answers_length|].
    split; [exact Hd1|].
    intros a Ha. split; [apply complaint_message_Type|].
    apply complaint_message_Data.
    rewrite forallb_forall in Hok. apply Hok, Ha.
Qed.

End DealerCommits.

(** ** The dealer on concrete rounds *)

Section DealerRuns.
#[local] Existing Instance scripted_kyber.

(** C2, on five validators: [GetDeals] builds the generator with threshold 3,
    the floor of 10/3, while [GetVerifier] gives the verifier t = 2 with
    n = 5. *)
Theorem thresholds_differ_on_five_validators :
  option_map sd_t (instance (state_of (GetDeals dealer_five))) = Some 3 /\
  (exists v : BLSVerifier,
     GetVerifier dealer_five_finished = inl v /\ bls_t v = 2 /\ bls_n v = 5).
Proof.
  split; [vm_compute; reflexivity|].
  eexists. split; [vm_compute; reflexivity|]. split; reflexivity.
Qed.

(** On the queue [GenerateTransitions] builds, with all five public keys in:
    [SendDeals] runs and is removed, [ProcessDeals] is not ready and stays. *)
Example Transit_five_validators :
  exists d' : DKGDealer,
    Transit idle_closure 8 (GenerateTransitions dealer_five) = Some (Returned None d') /\
    transitions d' =
      [tn_ProcessDeals; tn_ProcessResponses; tn_ProcessJustifications;
       tn_ProcessCommits; tn_ProcessComplaints; tn_ProcessReconstructCommits] /\
    length (sendMsgCb d') = 5%nat.
Proof. eexists. split; [vm_compute; reflexivity|]. split; reflexivity. Qed.

(** The statement of C4 on that queue and dealer. *)
Lemma Transit_runs_queue_in_order_witness :
  exists (done rest : list transition) (d1 : DKGDealer),
    transitions (GenerateTransitions dealer_five) = done ++ rest /\
    consume idle_closure done (GenerateTransitions dealer_five) = Some d1 /\
    transitions d1 = rest /\
    match rest with
    | [] => Transit idle_closure 8 (GenerateTransitions dealer_five) = Some (Returned None d1)
    | tn :: _ =>
        match call idle_closure tn d1 with
        | Panicked m d2 =>
            Transit idle_closure 8 (GenerateTransitions dealer_five) = Some (Panicked m d2)
        | Returned (err, ready) d2 =>
            transitions d2 = rest /\
            match ready, err with
            | false, _ =>
                Transit idle_closure 8 (GenerateTransitions dealer_five)
                = Some (Returned None d2)
            | true, Some e =>
                Transit idle_closure 8 (GenerateTransitions dealer_five)
                = Some (Returned (Some e) d2)
            | true, None => False
            end
        end
    end.
Proof.
  apply (Transit_runs_queue_in_order idle_closure).
  - intros id d. reflexivity.
  - simpl. lia.
Defined.

(** C6, on three validators with QUAL = {0, 1}: [GetCommits] returns the
    phase-I error; the copy it ran on got the address of index 2 appended to
    its losers, the dealer itself has none, and [GetLosers] returns nothing. *)
Theorem GetCommits_loses_the_losers :
  exists d' : DKGDealer,
    GetCommits dealer_three_qual_two
    = Returned (inr (ErrorNew "some of participants failed to complete phase I")) d' /\
    losers (state_of (GetCommits_body dealer_three_qual_two)) = [addr_of Byte.x03] /\
    losers d' = [] /\
    GetLosers d' = [].
Proof.
  eexists. split; [vm_compute; reflexivity|]. repeat split; vm_compute; reflexivity.
Qed.

(** C9: three bundles, none of which needs a complaint: [ProcessCommits]
    reports ready without error and has sent no message. *)
Lemma ProcessCommits_sends_nothing_without_complaint :
  exists d' : DKGDealer,
    ProcessCommits (dealer_three_commits [[1]; [2]; [3]]) = Returned (None, true) d' /\
    length (commits (dealer_three_commits [[1]; [2]; [3]])) = 3%nat /\
    sendMsgCb d' = [].
Proof. eexists. split; [vm_compute; reflexivity|]. split; reflexivity. Qed.

(** The statement of C9, as amended, on three bundles of which the middle
    one is empty. *)
Lemma ProcessCommits_sends_complaints_witness :
  exists d' : DKGDealer,
    ProcessCommits (dealer_three_commits [[1]; []; [3]]) = Returned (None, true) d' /\
    length (bundle_answers
              {| sd_t := 2; sd_participants := [100; 101; 102]; sd_certified := true;
                 sd_qual := [0; 1; 2]; sd_finished := false |}
              (commits (dealer_three_commits [[1]; []; [3]])))
    = length (commits (dealer_three_commits [[1]; []; [3]])) /\
    sendMsgCb d' =
      sendMsgCb (dealer_three_commits [[1]; []; [3]]) ++
      (if forallb no_complaint
            (bundle_answers
               {| sd_t := 2; sd_participants := [100; 101; 102]; sd_certified := true;
                  sd_qual := [0; 1; 2]; sd_finished := false |}
               (commits (dealer_three_commits [[1]; []; [3]])))
       then []
       else map (complaint_message (dealer_three_commits [[1]; []; [3]]))
              (bundle_answers
                 {| sd_t := 2; sd_participants := [100; 101; 102]; sd_certified := true;
                    sd_qual := [0; 1; 2]; sd_finished := false |}
                 (commits (dealer_three_commits [[1]; []; [3]])))) /\
    (forall a,
       In a (bundle_answers
               {| sd_t := 2; sd_participants := [100; 101; 102]; sd_certified := true;
                  sd_qual := [0; 1; 2]; sd_finished := false |}
               (commits (dealer_three_commits [[1]; []; [3]]))) ->
       dd_Type (complaint_message (dealer_three_commits [[1]; []; [3]]) a) = DKGComplaint /\
       (dd_Data (complaint_message (dealer_three_commits [[1]; []; [3]]) a) = None
        <-> no_complaint a = true)).
Proof.
  apply (ProcessCommits_sends_complaints (dealer_three_commits [[1]; []; [3]])).
  - reflexivity.
  - vm_compute. discriminate.
  - reflexivity.
Defined.

(** With the middle bundle empty, all three messages go out, the second one
    with the complaint. *)
Example ProcessCommits_with_one_complaint :
  exists d' : DKGDealer,
    ProcessCommits (dealer_three_commits [[1]; []; [3]]) = Returned (None, true) d' /\
    map dd_Data (sendMsgCb d') = [None; Some [Byte.x05]; None].
Proof. eexists. split; [vm_compute; reflexivity|]. reflexivity. Qed.

End DealerRuns.

(** * Statements about the round state machine *)

Lemma step_eqb_eq (a b : RoundStepType) : step_eqb a b = true <-> a = b.
Proof.
  unfold step_eqb. rewrite Z.eqb_eq. split; [|intros ->; reflexivity].
  destruct a, b; simpl; intros H; try reflexivity; discriminate.
Qed.

Lemma is_PrecommitType_eq (t : SignedMsgType) :
  is_PrecommitType t = true <-> t = PrecommitType.
Proof. destruct t; simpl; split; intros H; try reflexivity; discriminate. Qed.

Section ConsensusVotes.
Context `{T : Tendermint}.
Variable F : StateFunctions.

(** C10. Without a verifier, [signAddVote] returns nil for every vote type
    and leaves the state as it was: nothing is signed, nothing is queued. *)
Theorem signAddVote_without_verifier :
  forall (type_ : SignedMsgType) (hash : bytes) (header : PartSetHeader)
         (cs : BLSConsensusState) (d : DKG),
    dkg cs = Some d ->
    dkg_Verifier d = None ->
    signAddVote type_ hash header cs = Returned None cs.
Proof.
  intros type_ hash header cs d Hdkg Hver.
  unfold signAddVote, bind, get_cs.
  destruct (privValidator cs) as [pv|]; [|reflexivity].
  destruct (vs_HasAddress (Validators cs) (pv_Address pv)); [|reflexivity].
  simpl. unfold cs_Verifier. rewrite Hdkg, Hver. reflexivity.
Qed.

(** C7. A vote whose height is not the current one: if its height is the
    current height minus one, then unless the step is NewHeight and the vote a
    precommit, [addVote] returns the height-mismatch error and the state as
    it was; when the step is NewHeight and the vote a precommit, the vote
    goes to [AddVote] of the last-commit vote set, and what [addVote] returns
    is what [AddVote] returned.  For any other height [addVote] returns the
    height-mismatch error and the state as it was. *)
Theorem addVote_height_mismatch :
  forall (vote : Vote) (peerID : string) (cs : BLSConsensusState),
    vote_Height vote <> Height cs ->
    (add64 (vote_Height vote) 1 = Height cs ->
       (~ (Step cs = RoundStepNewHeight /\ vote_Type vote = PrecommitType) ->
          addVote F vote peerID cs = Returned (false, Some ErrVoteHeightMismatch) cs) /\
       (Step cs = RoundStepNewHeight -> vote_Type vote = PrecommitType ->
        forall lastCommit : VoteSet,
          LastCommit cs = Some lastCommit ->
          (fst (snd (voteset_AddVote lastCommit vote)) = false ->
             addVote F vote peerID cs =
             Returned (snd (voteset_AddVote lastCommit vote))
                      (set_LastCommit (Some (fst (voteset_AddVote lastCommit vote))) cs)) /\
          (fst (snd (voteset_AddVote lastCommit vote)) = true ->
             addVote F vote peerID cs =
             bind (when (SkipTimeoutCommit cs
                         && voteset_HasAll (Some (fst (voteset_AddVote lastCommit vote))))
                        (enterNewRound F (Height cs) 0))
                  (fun _ => ret (snd (voteset_AddVote lastCommit vote)))
                  (set_evsw (evsw cs ++ [EventVote vote])
                     (set_eventBus (eventBus cs ++ [EventVote vote])
                        (set_LastCommit
                           (Some (fst (voteset_AddVote lastCommit vote))) cs)))))) /\
    (add64 (vote_Height vote) 1 <> Height cs ->
       addVote F vote peerID cs = Returned (false, Some ErrVoteHeightMismatch) cs).
Proof.
  intros vote peerID cs Hdiff. split.
  - intros Hprev.
    assert (addVote F vote peerID cs = addVote_lastCommit F vote cs) as ->.
    { unfold addVote, bind, get_cs. rewrite (proj2 (Z.eqb_eq _ _) Hprev). reflexivity. }
    unfold addVote_lastCommit, bind, get_cs. split.
    + intros Hnot.
      destruct (step_eqb (Step cs) RoundStepNewHeight) eqn:Hs;
        destruct (is_PrecommitType (vote_Type vote)) eqn:Ht; simpl; try reflexivity.
      exfalso. apply Hnot. split; [apply step_eqb_eq | apply is_PrecommitType_eq]; assumption.
    + intros Hstep Htype lastCommit Hlc.
      rewrite (proj2 (step_eqb_eq _ _) Hstep), (proj2 (is_PrecommitType_eq _) Htype).
      simpl. rewrite Hlc.
      split; intros Hadded; unfold modify; simpl; rewrite Hadded; reflexivity.
  - intros Hother. unfold addVote, bind, get_cs.
    rewrite (proj2 (Z.eqb_neq _ _) Hother), (proj2 (Z.eqb_neq _ _) Hdiff). reflexivity.
Qed.

(** C8, as amended.  When [addVote] rejects a vote with a conflicting-votes
    error and the node has a private validator, [tryAddVote] returns that
    error, and hands the evidence to the evidence pool unless the vote bears
    the node's own validator address; then the pool gets nothing. *)
Theorem tryAddVote_conflicting_votes :
  forall (vote : Vote) (peerID : string) (cs cs1 : BLSConsensusState)
         (added : bool) (ev : DuplicateVoteEvidence) (pv : PrivValidator),
    addVote F vote peerID cs = Returned (added, Some (ErrVoteConflictingVotes ev)) cs1 ->
    privValidator cs1 = Some pv ->
    tryAddVote F vote peerID cs =
    Returned (added, Some (ErrVoteConflictingVotes ev))
             (if bytes_Equal (vote_ValidatorAddress vote) (pv_Address pv) then cs1
              else set_evpool (evpool cs1 ++ [ev]) cs1).
Proof.
  intros vote peerID cs cs1 added ev pv Hadd Hpv.
  unfold tryAddVote, bind. rewrite Hadd. simpl. unfold get_cs. rewrite Hpv.
  destruct (bytes_Equal (vote_ValidatorAddress vote) (pv_Address pv)); reflexivity.
Qed.

End ConsensusVotes.

Section ConsensusSteps.
Context `{T : Tendermint}.
Variable F : StateFunctions.

(** Whatever panic the body of [enterCommit] ends with, the deferred closure
    runs to its end on the state the body left. *)
Lemma enterCommit_recovers_every_panic (height commitRound : Z) (cs : BLSConsensusState) :
  enterCommit_guard height cs = false ->
  enterCommit F height commitRound cs
  = enterCommit_deferred F height commitRound (state_of (enterCommit_body commitRound cs)).
Proof.
  intros Hguard. unfold enterCommit, bind, get_cs. rewrite Hguard.
  unfold defer_recover. destruct (enterCommit_body commitRound cs); reflexivity.
Qed.

(** In [enterCommit], past the guard and with a 2/3 precommit majority, when
    [Recover] over the precommits and the previous block's random data fails,
    the panic of line 316 is recovered by the deferred closure: the step
    becomes Commit, [CommitRound] is set, and [tryFinalizeCommit] is called;
    the outcome of [enterCommit] is that of [tryFinalizeCommit].  The proposal
    block is the locked block if that hashes to the majority's block, else the
    one held before, without new random data. *)
Lemma enterCommit_recover_failure_goes_on :
  forall (height commitRound : Z) (cs : BLSConsensusState) (blockID : BlockID)
         (d : DKG) (ver : Verifier) (prev : Block) (e : error),
    enterCommit_guard height cs = false ->
    voteset_TwoThirdsMajority (hvs_Precommits (Votes cs) commitRound) = Some blockID ->
    dkg cs = Some d ->
    dkg_Verifier d = Some ver ->
    getPreviousBlock cs = Some prev ->
    snd (ver_Recover ver (block_RandomData prev)
           (voteset_GetVotes (hvs_Precommits (Votes cs) commitRound))) = Some e ->
    exists cs1 : BLSConsensusState,
      enterCommit F height commitRound cs = tryFinalizeCommit F height cs1 /\
      Step cs1 = RoundStepCommit /\
      CommitRound cs1 = commitRound /\
      Round cs1 = Round cs /\
      Height cs1 = Height cs /\
      ProposalBlock cs1 =
        (if block_HashesTo (LockedBlock cs) (bid_Hash blockID)
         then LockedBlock cs else ProposalBlock cs).
Proof.
  intros height commitRound cs blockID d ver prev e Hguard Hmaj Hdkg Hver Hprev Hrec.
  unfold enterCommit, bind, get_cs. rewrite Hguard.
  unfold defer_recover.
  assert (exists cs0,
            enterCommit_body commitRound cs
            = Panicked "Failed to recover random data from votes" cs0 /\
            Round cs0 = Round cs /\ Height cs0 = Height cs /\
            ProposalBlock cs0 =
              (if block_HashesTo (LockedBlock cs) (bid_Hash blockID)
               then LockedBlock cs else ProposalBlock cs)) as (cs0 & Hbody & HR & HH & HP).
  { unfold enterCommit_body, bind, get_cs. rewrite Hmaj.
    unfold when, the_Verifier, cs_Verifier, previous_RandomData, bind.
    destruct (block_HashesTo (LockedBlock cs) (bid_Hash blockID)); simpl;
      unfold getPreviousBlock in *; simpl; rewrite Hdkg, Hver; simpl; rewrite Hprev;
      rewrite Hrec; eexists; (split; [reflexivity|]); repeat split. }
  rewrite Hbody.
  eexists. split; [reflexivity|].
  simpl. repeat split; assumption.
Qed.

(** C3, as amended.  Past its guard, [enterPrecommit] follows the prevotes
    of the round:
    - no 2/3 majority: it precommits nil;
    - a majority, but the POL round of the vote set below the round: it panics
      and signs nothing;
    - a majority for nil: it unlocks if locked, and precommits nil;
    - a majority for the locked block: it sets [LockedRound] to the round and
      precommits the block;
    - a majority for the proposal block: if [ValidateBlock] accepts the block,
      it locks it at the round and precommits it; if not, it panics and signs
      nothing;
    - a majority for a block it does not hold: it clears the lock, and if the
      proposal parts do not have the majority's parts header, drops the
      proposal block and sets the parts to a new part set of that header; it
      precommits nil.
    In every case the step becomes Precommit of the round (after the vote, or
    before the panic goes on). *)
Theorem enterPrecommit_cases :
  forall (height round : Z) (cs : BLSConsensusState),
    enterPrecommit_guard height round cs = false ->
    match voteset_TwoThirdsMajority (hvs_Prevotes (Votes cs) round) with
    | None =>
        enterPrecommit height round cs
        = precommit_and_step round [] PartSetHeader_zero cs
    | Some blockID =>
        if fst (hvs_POLInfo (Votes cs)) <? round then
          exists (m : string) (cs1 : BLSConsensusState),
            enterPrecommit height round cs = Panicked m cs1 /\
            Step cs1 = RoundStepPrecommit /\ Round cs1 = round /\
            internalMsgQueue cs1 = internalMsgQueue cs /\
            LockedRound cs1 = LockedRound cs /\ LockedBlock cs1 = LockedBlock cs
        else if len (bid_Hash blockID) =? 0 then
          exists cs1 : BLSConsensusState,
            enterPrecommit height round cs
            = precommit_and_step round [] PartSetHeader_zero cs1 /\
            differ_in_lock_and_proposal cs cs1 /\
            LockedBlock cs1 = None /\
            (LockedBlock cs <> None -> LockedRound cs1 = -1 /\ LockedBlockParts cs1 = None) /\
            ProposalBlock cs1 = ProposalBlock cs /\
            ProposalBlockParts cs1 = ProposalBlockParts cs
        else if block_HashesTo (LockedBlock cs) (bid_Hash blockID) then
          exists cs1 : BLSConsensusState,
            enterPrecommit height round cs
            = precommit_and_step round (bid_Hash blockID) (bid_PartsHeader blockID) cs1 /\
            differ_in_lock_and_proposal cs cs1 /\
            LockedRound cs1 = round /\
            LockedBlock cs1 = LockedBlock cs /\
            LockedBlockParts cs1 = LockedBlockParts cs /\
            ProposalBlock cs1 = ProposalBlock cs /\
            ProposalBlockParts cs1 = ProposalBlockParts cs
        else if block_HashesTo (ProposalBlock cs) (bid_Hash blockID) then
          match blockExec_ValidateBlock (state cs) (ProposalBlock cs) with
          | None =>
              exists cs1 : BLSConsensusState,
                enterPrecommit height round cs
                = precommit_and_step round (bid_Hash blockID) (bid_PartsHeader blockID) cs1 /\
                differ_in_lock_and_proposal cs cs1 /\
                LockedRound cs1 = round /\
                LockedBlock cs1 = ProposalBlock cs /\
                LockedBlockParts cs1 = ProposalBlockParts cs /\
                ProposalBlock cs1 = ProposalBlock cs /\
                ProposalBlockParts cs1 = ProposalBlockParts cs
          | Some _ =>
              exists (m : string) (cs1 : BLSConsensusState),
                enterPrecommit height round cs = Panicked m cs1 /\
                Step cs1 = RoundStepPrecommit /\ Round cs1 = round /\
                internalMsgQueue cs1 = internalMsgQueue cs /\
                LockedRound cs1 = LockedRound cs /\ LockedBlock cs1 = LockedBlock cs
          end
        else
          exists cs1 : BLSConsensusState,
            enterPrecommit height round cs
            = precommit_and_step round [] PartSetHeader_zero cs1 /\
            differ_in_lock_and_proposal cs cs1 /\
            LockedRound cs1 = -1 /\ LockedBlock cs1 = None /\ LockedBlockParts cs1 = None /\
            (if partset_HasHeader (ProposalBlockParts cs) (bid_PartsHeader blockID)
             then ProposalBlock cs1 = ProposalBlock cs /\
                  ProposalBlockParts cs1 = ProposalBlockParts cs
             else ProposalBlock cs1 = None /\
                  ProposalBlockParts cs1
                  = Some (NewPartSetFromHeader (bid_PartsHeader blockID)))
    end.
Proof.
  intros height round cs Hguard.
  unfold enterPrecommit, precommit_and_step, enterPrecommit_body,
    differ_in_lock_and_proposal.
  unfold defer, bind, get_cs, publish, modify, when, panic, ret,
    updateRoundStep, newStep.
  rewrite Hguard.
  destruct (voteset_TwoThirdsMajority (hvs_Prevotes (Votes cs) round)) as [blockID|];
    [|reflexivity].
  destruct (fst (hvs_POLInfo (Votes cs)) <? round).
  { do 2 eexists. split; [reflexivity|]. simpl. repeat split. }
  destruct (len (bid_Hash blockID) =? 0).
  { destruct (LockedBlock cs) as [lb|] eqn:Hlb;
      (eexists; split; [reflexivity|]; simpl; repeat split; congruence). }
  destruct (block_HashesTo (LockedBlock cs) (bid_Hash blockID)).
  { eexists. split; [reflexivity|]. simpl. repeat split. }
  destruct (block_HashesTo (ProposalBlock cs) (bid_Hash blockID)).
  { destruct (blockExec_ValidateBlock (state cs) (ProposalBlock cs)).
    - do 2 eexists. split; [reflexivity|]. simpl. repeat split.
    - eexists. split; [reflexivity|]. simpl. repeat split. }
  destruct (partset_HasHeader (ProposalBlockParts cs) (bid_PartsHeader blockID));
    (eexists; split; [reflexivity|]; simpl; repeat split).
Qed.

End ConsensusSteps.

(** ** The state machine on concrete rounds *)

Section ConsensusRuns.
#[local] Existing Instance scripted_tendermint.

(** C1.  [enterCommit] does not halt when [Recover] fails.  The node is in
    step Precommit at height 2, round 0, with a 2/3 precommit majority for the
    block [B] and a verifier whose [Recover] fails.  The body of
    [enterCommit] panics with the message of line 316, having changed
    nothing; the deferred closure swallows that panic and goes on, whatever
    the other state functions do:
    - on the node that holds [B], [enterCommit] ends as [finalizeCommit] does,
      entered through [tryFinalizeCommit] in step Commit with the commit round
      set, on the block as it was, without recovered random data;
    - on the node that does not hold the block, [enterCommit] returns: the
      node is in step Commit with the commit round set, and still holds
      neither the block nor a part set to receive it in. *)
Theorem enterCommit_swallows_recover_failure :
  forall F : StateFunctions,
    enterCommit_guard 2 machine_commit = false /\
    voteset_TwoThirdsMajority (hvs_Precommits (Votes machine_commit) 0) = Some blockID_B /\
    snd (ver_Recover failing_recover [Byte.x2a] []) = Some (ErrorNew "not enough shares") /\
    enterCommit_body 0 machine_commit
    = Panicked "Failed to recover random data from votes" machine_commit /\
    enterCommit_body 0 machine_commit_waiting
    = Panicked "Failed to recover random data from votes" machine_commit_waiting /\
    (exists cs1 : BLSConsensusState,
       enterCommit F 2 0 machine_commit = finalizeCommit F 2 cs1 /\
       Step cs1 = RoundStepCommit /\
       CommitRound cs1 = 0 /\
       ProposalBlock cs1 = Some block_B /\
       block_RandomData block_B = []) /\
    (exists cs1 : BLSConsensusState,
       enterCommit F 2 0 machine_commit_waiting = Returned tt cs1 /\
       Step cs1 = RoundStepCommit /\
       CommitRound cs1 = 0 /\
       ProposalBlock cs1 = None /\
       ProposalBlockParts cs1 = None).
Proof.
  intros F.
  do 5 (split; [vm_compute; reflexivity|]).
  split; (eexists; split; [vm_compute; reflexivity|]; vm_compute; repeat split).
Qed.

(** C3: past the guard, with a 2/3 prevote majority for the proposal block,
    [enterPrecommit] panics when [ValidateBlock] refuses the block: nothing
    is locked and no vote is queued. *)
Lemma enterPrecommit_invalid_block_panics :
  enterPrecommit_guard 2 0 (machine_polka false) = false /\
  voteset_TwoThirdsMajority (hvs_Prevotes (Votes (machine_polka false)) 0) = Some blockID_B /\
  block_HashesTo (ProposalBlock (machine_polka false)) (bid_Hash blockID_B) = true /\
  exists cs' : BLSConsensusState,
    enterPrecommit 2 0 (machine_polka false)
    = Panicked "enterPrecommit: +2/3 prevoted for an invalid block" cs' /\
    LockedRound cs' = -1 /\
    LockedBlock cs' = None /\
    internalMsgQueue cs' = [].
Proof.
  split; [reflexivity|]. split; [reflexivity|]. split; [reflexivity|].
  eexists. split; [vm_compute; reflexivity|]. repeat split.
Qed.

(** With a majority for a block the node does not hold while the proposal
    parts already have the majority's header, the parts received so far stay. *)
Example enterPrecommit_keeps_matching_parts :
  exists cs' : BLSConsensusState,
    enterPrecommit 2 0 (set_ProposalBlock None (machine_polka true)) = Returned tt cs' /\
    ProposalBlockParts cs' = Some parts_B /\
    ProposalBlockParts cs' <> Some (NewPartSetFromHeader header_B) /\
    map (fun mi => bid_Hash (vote_BlockID (mi_Vote mi))) (internalMsgQueue cs') = [[]].
Proof.
  eexists. split; [vm_compute; reflexivity|].
  split; [reflexivity|]. split; [discriminate|reflexivity].
Qed.

(** The statement of C3, as amended, when [ValidateBlock] accepts [B]: the
    node locks [B] at round 0 and precommits it. *)
Lemma enterPrecommit_cases_witness :
  exists cs1 : BLSConsensusState,
    enterPrecommit 2 0 (machine_polka true)
    = precommit_and_step 0 hash_B header_B cs1 /\
    differ_in_lock_and_proposal (machine_polka true) cs1 /\
    LockedRound cs1 = 0 /\
    LockedBlock cs1 = Some block_B /\
    LockedBlockParts cs1 = Some parts_B /\
    ProposalBlock cs1 = Some block_B /\
    ProposalBlockParts cs1 = Some parts_B.
Proof.
  exact (enterPrecommit_cases 2 0 (machine_polka true) eq_refl).
Defined.

(** The same round to its end: the precommit for [B] is signed with the
    partial signature and queued, and the step is Precommit. *)
Example enterPrecommit_locks_and_votes :
  exists cs' : BLSConsensusState,
    enterPrecommit 2 0 (machine_polka true) = Returned tt cs' /\
    Step cs' = RoundStepPrecommit /\
    LockedRound cs' = 0 /\
    LockedBlock cs' = Some block_B /\
    map (fun mi => (vote_Type (mi_Vote mi), vote_BlockID (mi_Vote mi),
                    vote_BLSSignature (mi_Vote mi))) (internalMsgQueue cs')
    = [(PrecommitType, blockID_B, [Byte.x07])].
Proof. eexists. split; [vm_compute; reflexivity|]. repeat split. Qed.

(** The statement of C7 on three votes. *)
Lemma addVote_height_mismatch_witness :
  (* a straggler precommit of validator 2 in NewHeight goes to the last commit *)
  (exists cs' : BLSConsensusState,
     addVote quiet_functions (precommit_of 2 (addr_of Byte.x03) 1 hash_A) ""
       machine_new_height = Returned (true, None) cs' /\
     option_map sv_votes (LastCommit cs')
     = Some [precommit_of 0 (addr_of Byte.x01) 1 hash_A;
             precommit_of 1 (addr_of Byte.x02) 1 hash_A;
             precommit_of 2 (addr_of Byte.x03) 1 hash_A]) /\
  (* the same vote in step Prevote is refused *)
  addVote quiet_functions (precommit_of 2 (addr_of Byte.x03) 1 hash_A) ""
    (machine_polka true)
  = Returned (false, Some ErrVoteHeightMismatch) (machine_polka true) /\
  (* a vote of height 7 is ignored *)
  addVote quiet_functions (precommit_of 2 (addr_of Byte.x03) 7 hash_A) ""
    machine_new_height
  = Returned (false, Some ErrVoteHeightMismatch) machine_new_height.
Proof.
  assert (1 <> 2) as H12 by discriminate.
  assert (7 <> 2) as H72 by discriminate.
  assert (add64 7 1 <> 2) as H82 by (vm_compute; discriminate).
  pose proof (addVote_height_mismatch quiet_functions
                (precommit_of 2 (addr_of Byte.x03) 1 hash_A) "" machine_new_height H12)
    as [Hstraggler _].
  pose proof (addVote_height_mismatch quiet_functions
                (precommit_of 2 (addr_of Byte.x03) 1 hash_A) "" (machine_polka true) H12)
    as [Hrefused _].
  pose proof (addVote_height_mismatch quiet_functions
                (precommit_of 2 (addr_of Byte.x03) 7 hash_A) "" machine_new_height H72)
    as [_ Hignored].
  split; [|split].
  - destruct (Hstraggler eq_refl) as [_ Hadd].
    destruct (Hadd eq_refl eq_refl _ eq_refl) as [_ Hadded].
    eexists. split.
    + etransitivity; [exact (Hadded eq_refl)|]. vm_compute. reflexivity.
    + reflexivity.
  - destruct (Hrefused eq_refl) as [Hno _]. apply Hno.
    intros [Hstep _]. discriminate Hstep.
  - exact (Hignored H82).
Defined.

(** C8: validator 0 is the node itself; a second precommit bearing its
    address, for another block, is a conflicting vote, and [tryAddVote]
    returns the error with nothing handed to the evidence pool. *)
Lemma tryAddVote_own_conflict_not_reported :
  exists (ev : DuplicateVoteEvidence) (cs' : BLSConsensusState),
    addVote quiet_functions (precommit_of 0 (addr_of Byte.x01) 1 hash_B) ""
      machine_new_height
    = Returned (false, Some (ErrVoteConflictingVotes ev)) cs' /\
    tryAddVote quiet_functions (precommit_of 0 (addr_of Byte.x01) 1 hash_B) ""
      machine_new_height
    = Returned (false, Some (ErrVoteConflictingVotes ev)) cs' /\
    evpool cs' = [].
Proof.
  do 2 eexists. split; [vm_compute; reflexivity|]. split; reflexivity.
Qed.

(** The statement of C8, as amended, on a conflicting precommit of
    validator 1: the evidence reaches the pool. *)
Lemma tryAddVote_conflicting_votes_witness :
  exists cs' : BLSConsensusState,
    tryAddVote quiet_functions (precommit_of 1 (addr_of Byte.x02) 1 hash_B) ""
      machine_new_height
    = Returned (false,
                Some (ErrVoteConflictingVotes
                        {| dve_VoteA := precommit_of 1 (addr_of Byte.x02) 1 hash_A;
                           dve_VoteB := precommit_of 1 (addr_of Byte.x02) 1 hash_B |}))
               cs' /\
    evpool cs' = [{| dve_VoteA := precommit_of 1 (addr_of Byte.x02) 1 hash_A;
                     dve_VoteB := precommit_of 1 (addr_of Byte.x02) 1 hash_B |}].
Proof.
  eexists. split.
  - eapply (tryAddVote_conflicting_votes quiet_functions
              (precommit_of 1 (addr_of Byte.x02) 1 hash_B) "" machine_new_height);
      [vm_compute; reflexivity | reflexivity].
  - reflexivity.
Defined.

(** The statement of C10 on a prevote and on a precommit. *)
Lemma signAddVote_without_verifier_witness :
  signAddVote PrevoteType hash_B header_B
    (machine RoundStepPropose (votes_for None) None true (Some dkg_without_verifier))
  = Returned None
      (machine RoundStepPropose (votes_for None) None true (Some dkg_without_verifier)) /\
  signAddVote PrecommitType hash_B header_B
    (machine RoundStepPrevote (votes_for None) None true (Some dkg_without_verifier))
  = Returned None
      (machine RoundStepPrevote (votes_for None) None true (Some dkg_without_verifier)).
Proof.
  split.
  - apply (signAddVote_without_verifier PrevoteType hash_B header_B _ dkg_without_verifier);
      reflexivity.
  - apply (signAddVote_without_verifier PrecommitType hash_B header_B _ dkg_without_verifier);
      reflexivity.
Defined.

(** With a verifier, the same prevote is signed and queued. *)
Example signAddVote_with_verifier :
  exists (v : Vote) (cs' : BLSConsensusState),
    signAddVote PrevoteType hash_B header_B
      (machine RoundStepPropose (votes_for None) None true (Some dkg_failing_recover))
    = Returned (Some v) cs' /\
    map mi_Vote (internalMsgQueue cs') = [v].
Proof. do 2 eexists. split; [vm_compute; reflexivity|]. reflexivity. Qed.

End ConsensusRuns.

(** * Further statements about the dealer *)

Section FieldFrameRules.
Context {S B : Type} (proj : S -> B).

Lemma kf_ret {A : Type} (a : A) : keeps_field proj (ret a).
Proof. intros d. reflexivity. Qed.

Lemma kf_panic {A : Type} (m : string) : keeps_field proj (@panic S A m).
Proof. intros d. reflexivity. Qed.

Lemma kf_gets {A : Type} (f : S -> A) : keeps_field proj (gets f).
Proof. intros d. reflexivity. Qed.

Lemma kf_modify (f : S -> S) :
  (forall d, proj (f d) = proj d) -> keeps_field proj (modify f).
Proof. intros Hf d. apply Hf. Qed.

Lemma kf_bind {A C : Type} (c : M S A) (k : A -> M S C) :
  keeps_field proj c -> (forall a, keeps_field proj (k a)) -> keeps_field proj (bind c k).
Proof.
  intros Hc Hk d. unfold bind. specialize (Hc d).
  destruct (c d) as [a d'|m d']; simpl in *; [rewrite Hk|]; exact Hc.
Qed.

Lemma kf_when (b : bool) (c : M S unit) : keeps_field proj c -> keeps_field proj (when b c).
Proof. intros Hc. destruct b; [exact Hc | apply kf_ret]. Qed.

Lemma kf_defer {A : Type} (body : M S A) (deferred : M S unit) :
  keeps_field proj body -> keeps_field proj deferred -> keeps_field proj (defer body deferred).
Proof.
  intros Hb Hd s. unfold defer. specialize (Hb s).
  destruct (body s) as [a s1|m s1]; simpl in Hb; specialize (Hd s1);
    destruct (deferred s1); simpl in *; congruence.
Qed.

Lemma kf_defer_recover (body : M S unit) (h : string -> M S unit) (rest : M S unit) :
  keeps_field proj body -> (forall m, keeps_field proj (h m)) -> keeps_field proj rest ->
  keeps_field proj (defer_recover body h rest).
Proof.
  intros Hb Hh Hr s. unfold defer_recover. specialize (Hb s).
  destruct (body s) as [a s1|m s1]; simpl in Hb.
  - rewrite Hr. exact Hb.
  - rewrite (kf_bind (h m) (fun _ => rest) (Hh m) (fun _ => Hr)). exact Hb.
Qed.

End FieldFrameRules.

Section DealerFieldFrameRules.
Context `{K : Kyber}.
Context {B : Type} (proj : DKGDealer -> B).

Lemma kf_read_instance {A : Type} (f : DistKeyGenerator -> A) :
  keeps_field proj (read_instance f).
Proof. intros d. unfold read_instance. destruct (instance d); reflexivity. Qed.

Lemma kf_on_instance {A : Type} (op : DistKeyGenerator -> DistKeyGenerator * A) :
  (forall x d, proj (set_instance x d) = proj d) -> keeps_field proj (on_instance op).
Proof.
  intros H d. unfold on_instance. destruct (instance d) as [g|]; [|reflexivity].
  destruct (op g). simpl. apply H.
Qed.

Lemma kf_value_receiver {A : Type} (body : D A) :
  (forall d c, proj (after_value_receiver d c) = proj d) ->
  keeps_field proj (value_receiver body).
Proof. intros H d. unfold value_receiver. destruct (body d); simpl; apply H. Qed.

End DealerFieldFrameRules.

Create HintDb kf.

(** One step of a frame proof for a field: a rule for the head construct
    (side conditions on setters by computation), or a case split. *)
Ltac kf_step :=
  first
    [ solve [auto 1 with kf nocore]
    | apply kf_ret | apply kf_panic | apply kf_gets | apply kf_read_instance
    | apply kf_on_instance; intros; reflexivity
    | apply kf_value_receiver; intros; reflexivity
    | apply kf_when
    | apply kf_defer
    | apply kf_modify; intros; reflexivity
    | apply kf_bind; [| intros ?]
    | match goal with
      | |- keeps_field _ (match ?x with _ => _ end) => destruct x
      end ].

Ltac kf := repeat kf_step.

Section DealerDataFrame.
Context `{K : Kyber}.

Lemma kf_send_all {B : Type} (proj : DKGDealer -> B) (msgs : list DKGData) :
  (forall x d, proj (set_sendMsgCb x d) = proj d) -> keeps_field proj (send_all msgs).
Proof.
  intros H. induction msgs as [|m rest IH]; simpl.
  - apply kf_ret.
  - apply kf_bind; [apply kf_modify; intros; apply H | intros _; exact IH].
Qed.

Lemma dd_send_all msgs : keeps_field dealer_data (send_all msgs).
Proof. apply kf_send_all. reflexivity. Qed.
#[local] Hint Resolve dd_send_all : kf.

Lemma dd_FireEvent e x : keeps_field dealer_data (FireEvent e x).
Proof. apply kf_modify. reflexivity. Qed.
#[local] Hint Resolve dd_FireEvent : kf.

Lemma dd_SendMsgCb m : keeps_field dealer_data (SendMsgCb m).
Proof. apply kf_modify. reflexivity. Qed.
#[local] Hint Resolve dd_SendMsgCb : kf.

Lemma dd_GetDeals_encode ds acc : keeps_field dealer_data (GetDeals_encode ds acc).
Proof.
  revert acc. induction ds as [|[i deal] rest IH]; intros acc; simpl; kf.
Qed.
#[local] Hint Resolve dd_GetDeals_encode : kf.

Lemma dd_SendDeals : keeps_field dealer_data SendDeals.
Proof. unfold SendDeals, GetDeals, Size. kf. Qed.

Lemma dd_GetResponses_loop ds acc : keeps_field dealer_data (GetResponses_loop ds acc).
Proof. revert acc. induction ds as [|deal rest IH]; intros acc; simpl; kf. Qed.
#[local] Hint Resolve dd_GetResponses_loop : kf.

Lemma dd_ProcessDeals : keeps_field dealer_data ProcessDeals.
Proof. unfold ProcessDeals, GetResponses. kf. Qed.

Lemma dd_GetJustifications_loop rs acc :
  keeps_field dealer_data (GetJustifications_loop rs acc).
Proof.
  revert acc. induction rs as [|resp rest IH]; intros acc; simpl;
    unfold processResponse; kf.
Qed.
#[local] Hint Resolve dd_GetJustifications_loop : kf.

Lemma dd_ProcessResponses : keeps_field dealer_data ProcessResponses.
Proof. unfold ProcessResponses, GetJustifications. kf. Qed.

Lemma dd_ProcessJustifications : keeps_field dealer_data ProcessJustifications.
Proof. unfold ProcessJustifications, GetCommits. kf. Qed.

Lemma dd_ProcessCommits_loop cs fin acc :
  keeps_field dealer_data (ProcessCommits_loop cs fin acc).
Proof. revert fin acc. induction cs as [|c rest IH]; intros fin acc; simpl; kf. Qed.
#[local] Hint Resolve dd_ProcessCommits_loop : kf.

Lemma dd_ProcessCommits : keeps_field dealer_data ProcessCommits.
Proof. unfold ProcessCommits. kf. Qed.

Lemma dd_ProcessComplaints_loop cs : keeps_field dealer_data (ProcessComplaints_loop cs).
Proof. induction cs as [|[c|] rest IH]; simpl; kf. Qed.
#[local] Hint Resolve dd_ProcessComplaints_loop : kf.

Lemma dd_ProcessComplaints : keeps_field dealer_data ProcessComplaints.
Proof. unfold ProcessComplaints. kf. Qed.

Lemma dd_ProcessReconstructCommits_loop rcs :
  keeps_field dealer_data (ProcessReconstructCommits_loop rcs).
Proof. induction rcs as [|[rc|] rest IH]; simpl; kf. Qed.
#[local] Hint Resolve dd_ProcessReconstructCommits_loop : kf.

Lemma dd_ProcessReconstructCommits : keeps_field dealer_data ProcessReconstructCommits.
Proof. unfold ProcessReconstructCommits. kf. Qed.

Lemma dd_call (closure : nat -> D (option error * bool)) :
  (forall id, keeps_field dealer_data (closure id)) ->
  forall tn, keeps_field dealer_data (call closure tn).
Proof.
  intros Hc [| | | | | | |id]; simpl;
    auto using dd_SendDeals, dd_ProcessDeals, dd_ProcessResponses,
      dd_ProcessJustifications, dd_ProcessCommits, dd_ProcessComplaints,
      dd_ProcessReconstructCommits.
Qed.

Lemma dd_Transit (closure : nat -> D (option error * bool)) :
  (forall id, keeps_field dealer_data (closure id)) ->
  forall (fuel : nat) (d : DKGDealer) (r : outcome DKGDealer (option error)),
    Transit closure fuel d = Some r -> dealer_data (state_of r) = dealer_data d.
Proof.
  intros Hc. induction fuel as [|fuel IH]; intros d r; simpl; [discriminate|].
  destruct (transitions d) as [|tn q]; [intros H; injection H as <-; reflexivity|].
  pose proof (dd_call closure Hc tn d) as Hcall.
  destruct (call closure tn d) as [[err ready] d'|m d']; simpl in Hcall.
  - destruct ready; simpl.
    + destruct err as [e|].
      * intros H. injection H as <-. exact Hcall.
      * destruct (transitions d') as [|t rest].
        -- intros H. injection H as <-. exact Hcall.
        -- intros H. apply IH in H. rewrite H. exact Hcall.
    + intros H. injection H as <-. exact Hcall.
  - intros H. injection H as <-. exact Hcall.
Qed.

(** X1. Whatever [Transit] does, and however it ends (nil, an error or a
    panic), it leaves the dealer's validators, address and round id, its key
    pair and suites, the deals, responses, justifications, commits,
    complaints and reconstruct-commits it has collected, and its losers as
    they were: the transitions only read them.  This holds for every queue
    whose closures, other than the dealer's own methods, do so too. *)
Theorem Transit_keeps_dealer_data (closure : nat -> D (option error * bool)) :
  (forall id, keeps_field dealer_data (closure id)) ->
  forall (fuel : nat) (d : DKGDealer),
    match Transit closure fuel d with
    | Some r => dealer_data (state_of r) = dealer_data d
    | None => True
    end.
Proof.
  intros Hc fuel d. destruct (Transit closure fuel d) as [r|] eqn:H; [|exact I].
  exact (dd_Transit closure Hc fuel d r H).
Qed.

End DealerDataFrame.

(** ** The order of the key store *)

Lemma Byte_to_N_inj (x y : Byte.byte) : Byte.to_N x = Byte.to_N y -> x = y.
Proof.
  intros H. pose proof (Byte.of_to_N x) as Hx. rewrite H, Byte.of_to_N in Hx.
  injection Hx as ->. reflexivity.
Qed.

Lemma bytes_ltb_irrefl (a : bytes) : bytes_ltb a a = false.
Proof.
  induction a as [|x a IH]; simpl; [reflexivity|].
  rewrite N.ltb_irrefl. exact IH.
Qed.

Lemma bytes_ltb_asym (a b : bytes) : bytes_ltb a b = true -> bytes_ltb b a = false.
Proof.
  revert b. induction a as [|x a IH]; intros [|y b]; simpl; try congruence.
  destruct (N.ltb_spec (Byte.to_N x) (Byte.to_N y)) as [Hxy|Hxy];
    destruct (N.ltb_spec (Byte.to_N y) (Byte.to_N x)) as [Hyx|Hyx];
    try congruence; try lia.
  apply IH.
Qed.

Lemma bytes_ltb_trans (a b c : bytes) :
  bytes_ltb a b = true -> bytes_ltb b c = true -> bytes_ltb a c = true.
Proof.
  revert b c. induction a as [|x a IH]; intros [|y b] [|z c]; simpl; try congruence.
  destruct (N.ltb_spec (Byte.to_N x) (Byte.to_N y)) as [Hxy|Hxy];
    destruct (N.ltb_spec (Byte.to_N y) (Byte.to_N x)) as [Hyx|Hyx];
    destruct (N.ltb_spec (Byte.to_N y) (Byte.to_N z)) as [Hyz|Hyz];
    destruct (N.ltb_spec (Byte.to_N z) (Byte.to_N y)) as [Hzy|Hzy];
    destruct (N.ltb_spec (Byte.to_N x) (Byte.to_N z)) as [Hxz|Hxz];
    destruct (N.ltb_spec (Byte.to_N z) (Byte.to_N x)) as [Hzx|Hzx];
    try congruence; try lia.
  apply IH.
Qed.

Lemma bytes_ltb_total (a b : bytes) :
  a <> b -> bytes_ltb a b = true \/ bytes_ltb b a = true.
Proof.
  revert b. induction a as [|x a IH]; intros [|y b] Hne; simpl; auto; try congruence.
  destruct (N.ltb_spec (Byte.to_N x) (Byte.to_N y)) as [Hxy|Hxy]; [auto|].
  destruct (N.ltb_spec (Byte.to_N y) (Byte.to_N x)) as [Hyx|Hyx]; [auto|].
  assert (x = y) as -> by (apply Byte_to_N_inj; lia).
  apply IH. congruence.
Qed.

Section KeyStoreOrder.
Context `{K : Kyber}.

Lemma PKStore_insert_Permutation (x : PK2Addr) (s : list PK2Addr) :
  Permutation (PKStore_insert x s) (x :: s).
Proof.
  induction s as [|y s IH]; simpl; [reflexivity|].
  destruct (PKStore_Less y x); [|reflexivity].
  rewrite IH. apply perm_swap.
Qed.

Lemma PKStore_Sort_Permutation (s : list PK2Addr) : Permutation (PKStore_Sort s) s.
Proof.
  induction s as [|x s IH]; simpl; [reflexivity|].
  rewrite PKStore_insert_Permutation. rewrite IH. reflexivity.
Qed.

Lemma PKStore_insert_ordered (x : PK2Addr) (s : list PK2Addr) :
  PKStore_ordered s -> PKStore_ordered (PKStore_insert x s).
Proof.
  unfold PKStore_ordered. induction s as [|y s IH]; intros Hs; simpl.
  - constructor; constructor.
  - inversion Hs as [|? ? Hs' Hy]; subst.
    destruct (PKStore_Less y x) eqn:Hyx.
    + constructor; [apply IH; exact Hs'|].
      rewrite Forall_forall. intros z Hz.
      rewrite (PKStore_insert_Permutation x s) in Hz.
      apply elem_of_cons in Hz as [->|Hz].
      * apply bytes_ltb_asym. exact Hyx.
      * rewrite Forall_forall in Hy. apply Hy, Hz.
    + constructor; [exact Hs|].
      constructor; [exact Hyx|].
      rewrite Forall_forall in Hy |- *. intros z Hz.
      unfold PKStore_Less in *.
      destruct (bytes_ltb (pk_Addr z) (pk_Addr x)) eqn:Hzx; [|reflexivity].
      exfalso. specialize (Hy z Hz).
      destruct (decide (pk_Addr y = pk_Addr z)) as [Heq|Hne].
      * rewrite Heq in Hyx. congruence.
      * destruct (bytes_ltb_total _ _ Hne) as [Hyz|Hzy]; [|congruence].
        rewrite (bytes_ltb_trans _ _ _ Hyz Hzx) in Hyx. discriminate.
Qed.

Lemma PKStore_Sort_ordered (s : list PK2Addr) : PKStore_ordered (PKStore_Sort s).
Proof.
  induction s as [|x s IH]; simpl; [constructor|].
  apply PKStore_insert_ordered, IH.
Qed.

Lemma ordered_increasing (s : list PK2Addr) :
  NoDup (map pk_Addr s) -> PKStore_ordered s -> PKStore_increasing s.
Proof.
  unfold PKStore_ordered, PKStore_increasing.
  induction s as [|x s IH]; intros Hnd Hs; [constructor|].
  simpl in Hnd. apply NoDup_cons in Hnd as [Hx Hnd].
  inversion Hs as [|? ? Hs' Hall]; subst.
  constructor; [apply IH; assumption|].
  rewrite Forall_forall in Hall |- *. intros y Hy.
  unfold PKStore_Less in *.
  destruct (bytes_ltb_total (pk_Addr x) (pk_Addr y)) as [H|H]; [|exact H|].
  - intros Heq. apply Hx. rewrite Heq. apply (list_elem_of_fmap_2 pk_Addr), Hy.
  - rewrite (Hall y Hy) in H. discriminate.
Qed.

Lemma increasing_unique (s1 s2 : list PK2Addr) :
  PKStore_increasing s1 -> PKStore_increasing s2 -> Permutation s1 s2 -> s1 = s2.
Proof.
  unfold PKStore_increasing. revert s2.
  induction s1 as [|x s1 IH]; intros s2 H1 H2 Hp.
  - apply Permutation_nil in Hp. congruence.
  - destruct s2 as [|y s2]; [symmetry in Hp; apply Permutation_nil in Hp; discriminate|].
    inversion H1 as [|? ? H1' Hx]; subst. inversion H2 as [|? ? H2' Hy]; subst.
    rewrite Forall_forall in Hx, Hy.
    assert (x = y) as ->.
    { assert (x ∈ y :: s2) as Hin1 by (rewrite <- Hp; left).
      assert (y ∈ x :: s1) as Hin2 by (rewrite Hp; left).
      apply elem_of_cons in Hin1 as [->|Hin1]; [reflexivity|].
      apply elem_of_cons in Hin2 as [->|Hin2]; [reflexivity|].
      specialize (Hx y Hin2). specialize (Hy x Hin1). unfold PKStore_Less in *.
      apply bytes_ltb_asym in Hx. congruence. }
    f_equal. apply IH; [assumption..|]. apply Permutation_cons_inv in Hp. exact Hp.
Qed.

Lemma pubKeys_keeps_GetDeals_encode ds acc : keeps_field pubKeys (GetDeals_encode ds acc).
Proof. revert acc. induction ds as [|[i deal] rest IH]; intros acc; simpl; kf. Qed.

(** [GetDeals] leaves the key store sorted, on every path. *)
Lemma GetDeals_pubKeys (d : DKGDealer) :
  pubKeys (state_of (GetDeals d)) = PKStore_Sort (pubKeys d).
Proof.
  unfold GetDeals. unfold bind at 1. unfold modify at 1.
  match goal with
  | |- pubKeys (state_of (?rest ?d0)) = _ =>
      assert (keeps_field pubKeys rest) as Hrest
  end.
  { unfold Size. pose proof pubKeys_keeps_GetDeals_encode. kf. }
  rewrite Hrest. reflexivity.
Qed.

(** X2. [GetDeals] leaves the public-key store with the entries it had, in
    the order of their addresses: no entry comes before one of a smaller
    address.  This holds on every path, the failing ones too. *)
Theorem GetDeals_sorts_key_store :
  forall d : DKGDealer,
    Permutation (pubKeys (state_of (GetDeals d))) (pubKeys d) /\
    PKStore_ordered (pubKeys (state_of (GetDeals d))).
Proof.
  intros d. rewrite GetDeals_pubKeys. split.
  - apply PKStore_Sort_Permutation.
  - apply PKStore_Sort_ordered.
Qed.

(** X3. Two dealers that hold the same public keys, one per address, in
    whatever order they received them, end [GetDeals] with the same key store
    and so hand the same list of participants to the generator. *)
Theorem GetDeals_participants_canonical :
  forall d1 d2 : DKGDealer,
    Permutation (pubKeys d1) (pubKeys d2) ->
    NoDup (map pk_Addr (pubKeys d1)) ->
    pubKeys (state_of (GetDeals d1)) = pubKeys (state_of (GetDeals d2)) /\
    GetPKs (pubKeys (state_of (GetDeals d1))) = GetPKs (pubKeys (state_of (GetDeals d2))).
Proof.
  intros d1 d2 Hp Hnd.
  assert (pubKeys (state_of (GetDeals d1)) = pubKeys (state_of (GetDeals d2))) as Heq.
  { rewrite !GetDeals_pubKeys.
    assert (forall s, s ≡ₚ pubKeys d1 -> NoDup (map pk_Addr (PKStore_Sort s))) as Hsorted.
    { intros s Hs.
      assert (map pk_Addr (PKStore_Sort s) ≡ₚ map pk_Addr (pubKeys d1)) as ->; [|exact Hnd].
      apply Permutation_map. rewrite PKStore_Sort_Permutation. exact Hs. }
    apply increasing_unique.
    - apply ordered_increasing; [apply Hsorted; reflexivity | apply PKStore_Sort_ordered].
    - apply ordered_increasing; [apply Hsorted; symmetry; exact Hp | apply PKStore_Sort_ordered].
    - rewrite !PKStore_Sort_Permutation. exact Hp. }
  split; [exact Heq | rewrite Heq; reflexivity].
Qed.

End KeyStoreOrder.

(** ** Invariants through the transitions *)

Section InvariantRules.
Context `{K : Kyber}.
Variable Inv : DKGDealer -> Prop.

Lemma est_ret {A : Type} (a : A) (Q : A -> Prop) : Q a -> establishes Inv (ret a) Q.
Proof. intros HQ d Hd. simpl. auto. Qed.

Lemma est_panic {A : Type} (m : string) (Q : A -> Prop) :
  establishes Inv (@panic DKGDealer A m) Q.
Proof. intros d Hd. exact Hd. Qed.

Lemma est_gets {A : Type} (f : DKGDealer -> A) :
  establishes Inv (gets f) (fun a => exists d, Inv d /\ a = f d).
Proof. intros d Hd. simpl. eauto. Qed.

Lemma est_modify (f : DKGDealer -> DKGDealer) :
  (forall d, Inv d -> Inv (f d)) -> establishes Inv (modify f) (fun _ => True).
Proof. intros Hf d Hd. simpl. auto. Qed.

Lemma est_bind {A B : Type} (c : D A) (k : A -> D B) (Q1 : A -> Prop) (Q : B -> Prop) :
  establishes Inv c Q1 -> (forall a, Q1 a -> establishes Inv (k a) Q) ->
  establishes Inv (bind c k) Q.
Proof.
  intros Hc Hk d Hd. unfold bind. specialize (Hc d Hd).
  destruct (c d) as [a d'|m d']; [|exact Hc].
  destruct Hc as [Hd' Ha]. exact (Hk a Ha d' Hd').
Qed.

Lemma est_weaken {A : Type} (c : D A) (Q1 Q : A -> Prop) :
  establishes Inv c Q1 -> (forall a, Q1 a -> Q a) -> establishes Inv c Q.
Proof.
  intros Hc HQ d Hd. specialize (Hc d Hd).
  destruct (c d); [destruct Hc; auto | exact Hc].
Qed.

Lemma est_when (b : bool) (c : D unit) :
  establishes Inv c (fun _ => True) -> establishes Inv (when b c) (fun _ => True).
Proof. intros Hc. destruct b; [exact Hc | apply est_ret; exact I]. Qed.

Lemma est_read_instance {A : Type} (f : DistKeyGenerator -> A) :
  establishes Inv (read_instance f) (fun _ => True).
Proof. intros d Hd. unfold read_instance. destruct (instance d); auto. Qed.

Lemma est_on_instance {A : Type} (op : DistKeyGenerator -> DistKeyGenerator * A) :
  (forall x d, Inv d -> Inv (set_instance x d)) ->
  establishes Inv (on_instance op) (fun _ => True).
Proof.
  intros H d Hd. unfold on_instance. destruct (instance d) as [g|]; [|exact Hd].
  destruct (op g). auto.
Qed.

Lemma est_value_receiver {A : Type} (body : D A) (Q : A -> Prop) :
  (forall d c, Inv d -> Inv c -> Inv (after_value_receiver d c)) ->
  establishes Inv body Q -> establishes Inv (value_receiver body) Q.
Proof.
  intros H Hb d Hd. unfold value_receiver. specialize (Hb d Hd).
  destruct (body d); [destruct Hb; auto | auto].
Qed.

End InvariantRules.

(** One step of a proof that a computation keeps an invariant: the rule of
    the construct at the head of a bind, or at the end. *)
Ltac est_head :=
  lazymatch goal with
  | |- establishes ?I (bind (gets ?f) ?k) ?Q =>
      apply (est_bind I (gets f) k (fun a => exists d, I d /\ a = f d) Q);
      [apply est_gets | intros ? (? & ? & ?); subst]
  | |- establishes ?I (bind (modify ?f) ?k) ?Q =>
      apply (est_bind I (modify f) k (fun _ => True) Q);
      [apply est_modify | intros ? _; cbv beta]
  | |- establishes ?I (bind (read_instance ?f) ?k) ?Q =>
      apply (est_bind I (read_instance f) k (fun _ => True) Q);
      [apply est_read_instance | intros ? _; cbv beta]
  | |- establishes ?I (bind (on_instance ?f) ?k) ?Q =>
      apply (est_bind I (on_instance f) k (fun _ => True) Q);
      [apply est_on_instance | intros ? _; cbv beta]
  | |- establishes ?I (bind (when ?b ?c) ?k) ?Q =>
      apply (est_bind I (when b c) k (fun _ => True) Q);
      [apply est_when | intros ? _; cbv beta]
  | |- establishes _ (ret _) _ => apply est_ret
  | |- establishes _ (panic _) _ => apply est_panic
  | |- establishes _ (match ?x with _ => _ end) _ => destruct x
  end.

Section DealerInvariantRules.
Context `{K : Kyber}.
Variable Inv : DKGDealer -> Prop.
Variable ok : DKGData -> Prop.
Variable allowed : DKGDataType -> Prop.

Hypothesis HI : dealer_invariant Inv ok allowed.

Ltac open_inv := destruct HI as [? ? ? ? ? ? ? ? ? ? ?].

Lemma inv_FireEvent (e : DKGEvent) (x : option Z) :
  establishes Inv (FireEvent e x) (fun _ => True).
Proof. open_inv. apply est_modify. auto. Qed.

Lemma inv_SendMsgCb (m : DKGData) : ok m -> establishes Inv (SendMsgCb m) (fun _ => True).
Proof. open_inv. intros Hm. apply est_modify. auto. Qed.

Lemma inv_send_all (msgs : list DKGData) :
  Forall ok msgs -> establishes Inv (send_all msgs) (fun _ => True).
Proof.
  open_inv. induction msgs as [|m rest IH]; intros Hall; simpl.
  - apply est_ret. exact I.
  - apply Forall_cons in Hall as [Hm Hrest].
    apply (est_bind Inv _ _ (fun _ => True)); [apply inv_SendMsgCb, Hm | intros ? _; cbv beta; auto].
Qed.

(** The rules for the dealer's own operations at the head of a bind. *)
Ltac inv_head :=
  lazymatch goal with
  | |- establishes ?I (bind (FireEvent ?e ?x) ?k) ?Q =>
      apply (est_bind I (FireEvent e x) k (fun _ => True) Q);
      [apply inv_FireEvent | intros ? _; cbv beta]
  | |- establishes ?I (bind (SendMsgCb ?m) ?k) ?Q =>
      apply (est_bind I (SendMsgCb m) k (fun _ => True) Q);
      [apply inv_SendMsgCb | intros ? _; cbv beta]
  | |- establishes ?I (bind (send_all ?m) ?k) ?Q =>
      apply (est_bind I (send_all m) k (fun _ => True) Q);
      [apply inv_send_all | intros ? _; cbv beta]
  | |- establishes ?I (bind Size ?k) ?Q => unfold Size
  | _ => est_head
  end.

Ltac invs := auto; repeat (inv_head; auto).

Lemma inv_GetDeals_encode (ds : list (Z * Deal)) (acc : list DKGData) :
  allowed DKGDeal -> Forall ok acc ->
  establishes Inv (GetDeals_encode ds acc) (fun r => Forall ok (fst r)).
Proof.
  open_inv. intros Ht. revert acc. induction ds as [|[i deal] rest IH]; intros acc Hacc; simpl.
  - invs.
  - invs. apply IH. apply Forall_app. split; [exact Hacc|].
    apply Forall_singleton. auto.
Qed.

Lemma inv_GetDeals :
  allowed DKGDeal -> establishes Inv GetDeals (fun r => Forall ok (fst r)).
Proof.
  open_inv. intros Ht. unfold GetDeals. invs; simpl; auto.
  match goal with
  | |- establishes _ (bind (match ?l with _ => _ end) _) _ => destruct l as [|[? ?] ?]
  end.
  - apply (est_bind Inv _ _ (fun _ => True)); [apply est_ret; exact I | intros ? _; cbv beta].
    apply inv_GetDeals_encode; auto.
  - apply (est_bind Inv _ _ (fun _ => True)); [apply est_modify; auto | intros ? _; cbv beta].
    apply inv_GetDeals_encode; auto.
Qed.

Lemma inv_SendDeals : allowed DKGDeal -> establishes Inv SendDeals (fun _ => True).
Proof.
  open_inv. intros Ht. unfold SendDeals. invs.
  apply (est_bind Inv _ _ _ _ (inv_GetDeals Ht)). intros r Hr. invs.
Qed.

Lemma inv_GetResponses_loop (ds : list Deal) (acc : list DKGData) :
  allowed DKGResponse -> Forall ok acc ->
  establishes Inv (GetResponses_loop ds acc) (fun r => Forall ok (fst r)).
Proof.
  open_inv. intros Ht. revert acc. induction ds as [|deal rest IH]; intros acc Hacc; simpl.
  - invs.
  - invs. apply IH. apply Forall_app. split; [exact Hacc|].
    apply Forall_singleton. auto.
Qed.

Lemma inv_GetResponses :
  allowed DKGResponse -> establishes Inv GetResponses (fun r => Forall ok (fst r)).
Proof.
  open_inv. intros Ht. unfold GetResponses. invs.
  eapply est_bind; [apply inv_GetResponses_loop; auto | intros r Hr; cbv beta].
  invs.
Qed.

Lemma inv_ProcessDeals : allowed DKGResponse -> establishes Inv ProcessDeals (fun _ => True).
Proof.
  open_inv. intros Ht. unfold ProcessDeals. invs.
  apply (est_bind Inv _ _ _ _ (inv_GetResponses Ht)). intros r Hr. invs.
Qed.

Lemma inv_processResponse (resp : Response) :
  establishes Inv (processResponse resp) (fun _ => True).
Proof. open_inv. unfold processResponse. invs. Qed.

Lemma inv_GetJustifications_loop (rs : list Response) (acc : list DKGData) :
  allowed DKGJustification -> Forall ok acc ->
  establishes Inv (GetJustifications_loop rs acc) (fun r => Forall ok (fst r)).
Proof.
  open_inv. intros Ht. revert acc. induction rs as [|resp rest IH]; intros acc Hacc; simpl.
  - invs.
  - invs.
    eapply est_bind; [apply inv_processResponse | intros r _; cbv beta].
    invs. apply IH. apply Forall_app. split; [exact Hacc|].
    apply Forall_singleton. auto.
Qed.

Lemma inv_GetJustifications :
  allowed DKGJustification ->
  establishes Inv GetJustifications (fun r => Forall ok (fst r)).
Proof.
  open_inv. intros Ht. unfold GetJustifications. invs.
  eapply est_bind; [apply inv_GetJustifications_loop; auto | intros r Hr; cbv beta].
  invs.
Qed.

Lemma inv_ProcessResponses :
  allowed DKGJustification -> establishes Inv ProcessResponses (fun _ => True).
Proof.
  open_inv. intros Ht. unfold ProcessResponses. invs.
  apply (est_bind Inv _ _ _ _ (inv_GetJustifications Ht)). intros r Hr. invs.
Qed.

Lemma inv_GetCommits_justifications (js : list (option Justification)) :
  establishes Inv (GetCommits_justifications js) (fun _ => True).
Proof. open_inv. induction js as [|[j|] rest IH]; simpl; invs. Qed.

Lemma inv_GetCommits : establishes Inv GetCommits (fun _ => True).
Proof.
  open_inv. unfold GetCommits. apply est_value_receiver; [assumption|].
  unfold GetCommits_body. invs.
  eapply est_bind; [apply inv_GetCommits_justifications | intros r _; cbv beta].
  invs.
Qed.

Lemma inv_ProcessJustifications :
  allowed DKGCommits -> establishes Inv ProcessJustifications (fun _ => True).
Proof.
  open_inv. intros Ht. unfold ProcessJustifications. invs.
  eapply est_bind; [apply inv_GetCommits | intros r _; cbv beta].
  invs.
Qed.

Lemma inv_ProcessCommits_loop (cs : list SecretCommits) (fin : bool) (acc : list DKGData) :
  allowed DKGComplaint -> Forall ok acc ->
  establishes Inv (ProcessCommits_loop cs fin acc)
    (fun r => match r with inl (_, messages) => Forall ok messages | inr _ => True end).
Proof.
  open_inv. intros Ht. revert fin acc. induction cs as [|c rest IH]; intros fin acc Hacc; simpl.
  - invs.
  - invs; apply IH; (apply Forall_app; split; [exact Hacc|]); apply Forall_singleton; auto.
Qed.

Lemma inv_ProcessCommits :
  allowed DKGComplaint -> establishes Inv ProcessCommits (fun _ => True).
Proof.
  open_inv. intros Ht. unfold ProcessCommits. invs.
  eapply est_bind; [apply inv_ProcessCommits_loop; auto | intros r Hr; cbv beta].
  destruct r as [[fin messages]|err]; invs. apply inv_send_all. exact Hr.
Qed.

Lemma inv_ProcessComplaints_loop (cs : list (option ComplaintCommits)) :
  allowed DKGReconstructCommit ->
  establishes Inv (ProcessComplaints_loop cs) (fun _ => True).
Proof. open_inv. intros Ht. induction cs as [|[c|] rest IH]; simpl; invs. Qed.

Lemma inv_ProcessComplaints :
  allowed DKGReconstructCommit -> establishes Inv ProcessComplaints (fun _ => True).
Proof.
  open_inv. intros Ht. unfold ProcessComplaints. invs.
  eapply est_bind; [apply inv_ProcessComplaints_loop; auto | intros r _; cbv beta].
  invs.
Qed.

Lemma inv_ProcessReconstructCommits_loop (rcs : list (option ReconstructCommits)) :
  establishes Inv (ProcessReconstructCommits_loop rcs) (fun _ => True).
Proof. open_inv. induction rcs as [|[rc|] rest IH]; simpl; invs. Qed.

Lemma inv_ProcessReconstructCommits :
  establishes Inv ProcessReconstructCommits (fun _ => True).
Proof.
  open_inv. unfold ProcessReconstructCommits. invs.
  eapply est_bind; [apply inv_ProcessReconstructCommits_loop | intros r _; cbv beta].
  invs.
Qed.

(** A transition of the dealer's own keeps an invariant that allows the
    type of its messages. *)
Lemma inv_call (closure : nat -> D (option error * bool)) (tn : transition) :
  (forall id, tn <> tn_other id) ->
  (forall t, message_type tn = Some t -> allowed t) ->
  establishes Inv (call closure tn) (fun _ => True).
Proof.
  open_inv. intros Hown Ht. destruct tn as [| | | | | | |id]; simpl in *.
  - apply inv_SendDeals; auto.
  - apply inv_ProcessDeals; auto.
  - apply inv_ProcessResponses; auto.
  - apply inv_ProcessJustifications; auto.
  - apply inv_ProcessCommits; auto.
  - apply inv_ProcessComplaints; auto.
  - apply inv_ProcessReconstructCommits.
  - destruct (Hown id). reflexivity.
Qed.

(** With every type allowed, and closures that keep the invariant, so does
    every call and so does the queue, for an invariant the queue is no part
    of. *)
Lemma inv_call_any (closure : nat -> D (option error * bool)) (tn : transition) :
  (forall t, allowed t) ->
  (forall id, establishes Inv (closure id) (fun _ => True)) ->
  establishes Inv (call closure tn) (fun _ => True).
Proof.
  open_inv. intros Ht Hc. destruct tn as [| | | | | | |id]; simpl.
  - apply inv_SendDeals; auto.
  - apply inv_ProcessDeals; auto.
  - apply inv_ProcessResponses; auto.
  - apply inv_ProcessJustifications; auto.
  - apply inv_ProcessCommits; auto.
  - apply inv_ProcessComplaints; auto.
  - apply inv_ProcessReconstructCommits.
  - apply Hc.
Qed.

Lemma inv_Transit (closure : nat -> D (option error * bool)) :
  (forall t, allowed t) ->
  (forall id, establishes Inv (closure id) (fun _ => True)) ->
  (forall x d, Inv d -> Inv (set_transitions x d)) ->
  forall (fuel : nat) (d : DKGDealer) (o : outcome DKGDealer (option error)),
    Inv d -> Transit closure fuel d = Some o -> Inv (state_of o).
Proof.
  open_inv. intros Ht Hc Hq. induction fuel as [|fuel IH]; intros d o Hd; simpl; [discriminate|].
  destruct (transitions d) as [|tn q]; [intros H; injection H as <-; exact Hd|].
  pose proof (inv_call_any closure tn Ht Hc d Hd) as Hcall.
  destruct (call closure tn d) as [[err ready] d'|m d'].
  - destruct Hcall as [Hd' _]. destruct ready; simpl.
    + destruct err as [e|].
      * intros H. injection H as <-. exact Hd'.
      * destruct (transitions d') as [|t rest].
        -- intros H. injection H as <-. exact Hd'.
        -- intros H. apply IH in H; auto.
    + intros H. injection H as <-. exact Hd'.
  - intros H. injection H as <-. exact Hcall.
Qed.

End DealerInvariantRules.

Section DealerMessages.
Context `{K : Kyber}.

Lemma dealer_sends_refl (allowed : DKGDataType -> Prop) (d : DKGDealer) :
  dealer_sends allowed d d.
Proof.
  unfold dealer_sends. repeat split. exists []. rewrite app_nil_r. split; constructor.
Qed.

Lemma dealer_sends_trans (allowed : DKGDataType -> Prop) (d1 d2 d3 : DKGDealer) :
  dealer_sends allowed d1 d2 -> dealer_sends allowed d2 d3 -> dealer_sends allowed d1 d3.
Proof.
  intros (Ha & Hr & new & Hs & Hall) (Ha' & Hr' & new' & Hs' & Hall').
  unfold dealer_sends. rewrite Ha', Hr', Ha, Hr. repeat split.
  exists (new ++ new'). rewrite Hs', Hs, app_assoc. split; [reflexivity|].
  apply Forall_app. split; [exact Hall|].
  rewrite Ha, Hr in Hall'. exact Hall'.
Qed.

(** [dealer_sends allowed d0], of the steps from [d0], is an invariant. *)
Lemma dealer_sends_invariant (allowed : DKGDataType -> Prop) (d0 : DKGDealer) :
  dealer_invariant (dealer_sends allowed d0)
    (fun m => dd_Addr m = addrBytes (dealerState d0) /\
              dd_RoundID m = roundID (dealerState d0) /\
              allowed (dd_Type m))
    allowed.
Proof.
  split; auto.
  - intros d c (Ha & Hr & _) (_ & _ & Hnew). unfold dealer_sends. simpl. auto.
  - intros m d Hm (Ha & Hr & new & Hs & Hall). unfold dealer_sends. simpl.
    repeat split; auto. exists (new ++ [m]). rewrite Hs, app_assoc. split; [reflexivity|].
    apply Forall_app. split; [exact Hall | apply Forall_singleton; exact Hm].
  - intros t d Hallowed (Ha & Hr & _). simpl. auto.
Qed.

(** So is holding the keys of [d0], in some order. *)
Lemma same_keys_invariant (d0 : DKGDealer) :
  dealer_invariant (fun d => pubKeys d ≡ₚ pubKeys d0) (fun _ => True) (fun _ => True).
Proof.
  split; auto. intros d Hd. simpl. rewrite PKStore_Sort_Permutation. exact Hd.
Qed.

(** X4. A transition of the dealer's own sends messages of its own type
    only ([SendDeals] deals, [ProcessDeals] responses, [ProcessResponses]
    justifications, [ProcessJustifications] commits, [ProcessCommits]
    complaints, [ProcessComplaints] reconstruct-commits and
    [ProcessReconstructCommits] none), each bearing the dealer's address and
    round id; it adds them after the messages sent before and leaves the
    address and the round id as they were.  This holds however the transition
    ends. *)
Theorem own_transition_sends_its_messages (closure : nat -> D (option error * bool))
    (tn : transition) (d : DKGDealer) :
  (forall id, tn <> tn_other id) ->
  dealer_sends (fun t => message_type tn = Some t) d (state_of (call closure tn d)).
Proof.
  intros Hown.
  pose proof (inv_call _ _ _ (dealer_sends_invariant (fun t => message_type tn = Some t) d)
                closure tn Hown (fun t H => H) d (dealer_sends_refl _ d)) as H.
  destruct (call closure tn d) as [r d'|m d']; simpl; [exact (proj1 H) | exact H].
Qed.

Lemma dealer_sends_Transit (closure : nat -> D (option error * bool)) :
  (forall id d, dealer_sends (fun _ => True) d (state_of (closure id d))) ->
  forall (fuel : nat) (d : DKGDealer) (o : outcome DKGDealer (option error)),
    Transit closure fuel d = Some o -> dealer_sends (fun _ => True) d (state_of o).
Proof.
  intros Hc fuel d o.
  apply (inv_Transit _ _ _ (dealer_sends_invariant (fun _ => True) d)); auto.
  - intros id d1 Hd1. specialize (Hc id d1).
    destruct (closure id d1) as [r d'|m d']; simpl in Hc;
      [split; [|exact I]|]; exact (dealer_sends_trans _ _ _ _ Hd1 Hc).
  - apply dealer_sends_refl.
Qed.

(** X5. Every message [Transit] sends bears the dealer's address and round
    id, whatever transitions it runs and however it ends; the messages sent
    before stay, in their order, and the address and the round id are left as
    they were.  This holds for every queue whose closures, other than the
    dealer's own methods, send so too. *)
Theorem Transit_sends_as_the_dealer (closure : nat -> D (option error * bool)) :
  (forall id d, dealer_sends (fun _ => True) d (state_of (closure id d))) ->
  forall (fuel : nat) (d : DKGDealer),
    match Transit closure fuel d with
    | Some o => dealer_sends (fun _ => True) d (state_of o)
    | None => True
    end.
Proof.
  intros Hc fuel d. destruct (Transit closure fuel d) as [o|] eqn:H; [|exact I].
  exact (dealer_sends_Transit closure Hc fuel d o H).
Qed.

Lemma pubKeys_Transit (closure : nat -> D (option error * bool)) :
  (forall id d, pubKeys (state_of (closure id d)) ≡ₚ pubKeys d) ->
  forall (fuel : nat) (d : DKGDealer) (o : outcome DKGDealer (option error)),
    Transit closure fuel d = Some o -> pubKeys (state_of o) ≡ₚ pubKeys d.
Proof.
  intros Hc fuel d o.
  apply (inv_Transit _ _ _ (same_keys_invariant d)); auto.
  - intros id d1 Hd1. specialize (Hc id d1).
    destruct (closure id d1) as [r d'|m d']; simpl in Hc;
      [split; [|exact I]|]; rewrite Hc; exact Hd1.
Qed.

(** X6. [Transit] neither adds a public key to the store nor drops one:
    the store it leaves holds the entries it held, in some order ([GetDeals]
    sorts them).  This holds however [Transit] ends, for every queue whose
    closures, other than the dealer's own methods, do so too. *)
Theorem Transit_keeps_the_keys (closure : nat -> D (option error * bool)) :
  (forall id d, pubKeys (state_of (closure id d)) ≡ₚ pubKeys d) ->
  forall (fuel : nat) (d : DKGDealer),
    match Transit closure fuel d with
    | Some o => pubKeys (state_of o) ≡ₚ pubKeys d
    | None => True
    end.
Proof.
  intros Hc fuel d. destruct (Transit closure fuel d) as [o|] eqn:H; [|exact I].
  exact (pubKeys_Transit closure Hc fuel d o H).
Qed.

End DealerMessages.

(** ** The message handlers *)

Section HandlerStatements.
Context `{K : Kyber}.
Variable point_Equal : Point -> Point -> bool.
Variable gob_decode_Point : bytes -> Point + error.
Variable gob_decode_Deal : bytes -> Deal + error.
Variable gob_decode_Response : bytes -> Response + error.
Variable gob_decode_SecretCommits : Z -> bytes -> SecretCommits + error.
Variable gob_decode_ComplaintCommits : Z -> bytes -> ComplaintCommits + error.
Variable response_Index : Response -> Z.
Variable gob_decode_ReconstructCommits : bytes -> ReconstructCommits + error.
Variable gob_Point : Point -> bytes + error.
Variable point_Mul : Scalar -> Point.
Variable GetAddrString : DKGData -> string.
Variable closure : nat -> D (option error * bool).

Lemma handler_Transit_state (fuel : nat) (d : DKGDealer)
    (o : outcome DKGDealer (option error)) :
  handler_Transit closure fuel d = Some o ->
  exists r, Transit closure fuel d = Some r /\ state_of o = state_of r.
Proof.
  unfold handler_Transit. destruct (Transit closure fuel d) as [[[e|] d'|m d']|];
    intros H; try discriminate; injection H as <-; eexists; split; reflexivity.
Qed.

(** X7. [HandleDKGDeal] keeps the first deal of each sender: a deal the
    dealer holds is neither replaced nor dropped, the entries of other senders
    stay as they are, and a message addressed to another participant changes
    no entry.  This holds however the handler ends, the run of the queue
    included, for every queue whose closures, other than the dealer's own
    methods, leave the dealer's data as it is. *)
Theorem HandleDKGDeal_keeps_first_deal :
  (forall id, keeps_field dealer_data (closure id)) ->
  forall (fuel : nat) (msg : DKGData) (d : DKGDealer) (o : outcome DKGDealer (option error)),
    HandleDKGDeal gob_decode_Deal GetAddrString closure fuel msg d = Some o ->
    (forall a x, deals d !! a = Some x -> deals (state_of o) !! a = Some x) /\
    (forall a, a <> GetAddrString msg -> deals (state_of o) !! a = deals d !! a) /\
    (participantID (dealerState d) <> dd_ToIndex msg -> deals (state_of o) = deals d).
Proof.
  intros Hc fuel msg d o. unfold HandleDKGDeal, suiteG2_Point.
  assert (forall o', Some o' = Some o -> state_of o' = d ->
          (forall a x, deals d !! a = Some x -> deals (state_of o) !! a = Some x) /\
          (forall a, a <> GetAddrString msg -> deals (state_of o) !! a = deals d !! a) /\
          (participantID (dealerState d) <> dd_ToIndex msg -> deals (state_of o) = deals d))
    as Hsame.
  { intros o' H Hd. injection H as <-. rewrite Hd. auto. }
  destruct (suiteG2 d); [|intros H; apply (Hsame _ H); reflexivity].
  destruct (gob_decode_Deal (msg_buffer msg)) as [deal|err];
    [|intros H; apply (Hsame _ H); reflexivity].
  destruct (Z.eqb_spec (participantID (dealerState d)) (dd_ToIndex msg)) as [Heq|Hne];
    simpl; [|intros H; apply (Hsame _ H); reflexivity].
  destruct (deals d !! GetAddrString msg) as [old|] eqn:Hold;
    [intros H; apply (Hsame _ H); reflexivity|].
  intros H. apply handler_Transit_state in H as (r & Hr & ->).
  apply (dd_Transit closure Hc) in Hr.
  assert (deals (state_of r) = <[GetAddrString msg := deal]> (deals d)) as ->.
  { unfold dealer_data in Hr. simpl in Hr. congruence. }
  repeat split.
  - intros a x Ha. destruct (decide (a = GetAddrString msg)) as [->|Hne].
    + congruence.
    + rewrite lookup_insert_ne by congruence. exact Ha.
  - intros a Hne. apply lookup_insert_ne. congruence.
  - intros Hne. contradiction.
Qed.

Lemma PKStore_holds_not_in (newPk : PK2Addr) (s : list PK2Addr) :
  PKStore_holds point_Equal newPk s = false ->
  (forall q, point_Equal q q = true) -> newPk ∉ s.
Proof.
  intros Hh Hrefl Hin. induction s as [|pk rest IH]; [inversion Hin|].
  simpl in Hh. apply elem_of_cons in Hin as [<-|Hin].
  - unfold bytes_Equal in Hh. rewrite bool_decide_eq_true_2 in Hh by reflexivity.
    rewrite Hrefl in Hh. discriminate.
  - destruct (_ && _) in Hh; [discriminate|]. exact (IH Hh Hin).
Qed.

(** X8. [HandleDKGPubKey] keeps the entries of the key store distinct: when
    no entry is there twice before the call, none is after it, whether the key
    was new or known, and however the handler ends, the run of the queue
    included.  It takes that a point equals itself, and closures that keep
    the keys of the store. *)
Theorem HandleDKGPubKey_keeps_entries_distinct :
  (forall p, point_Equal p p = true) ->
  (forall id d, pubKeys (state_of (closure id d)) ≡ₚ pubKeys d) ->
  forall (fuel : nat) (msg : DKGData) (d : DKGDealer) (o : outcome DKGDealer (option error)),
    NoDup (pubKeys d) ->
    HandleDKGPubKey point_Equal gob_decode_Point closure fuel msg d = Some o ->
    NoDup (pubKeys (state_of o)).
Proof.
  intros Heq Hc fuel msg d o Hnd. unfold HandleDKGPubKey, suiteG2_Point.
  destruct (suiteG2 d); [|intros H; injection H as <-; exact Hnd].
  destruct (gob_decode_Point (msg_buffer msg)) as [p|err];
    [|intros H; injection H as <-; exact Hnd].
  intros H. apply handler_Transit_state in H as (r & Hr & ->).
  apply (pubKeys_Transit closure Hc) in Hr. rewrite Hr. simpl.
  unfold PKStore_Add.
  set (newPk := {| pk_Addr := dd_Addr msg; pk_PK := p |}).
  destruct (PKStore_holds point_Equal newPk (pubKeys d)) eqn:Hh; simpl; [exact Hnd|].
  apply NoDup_app. repeat split; [exact Hnd| |apply NoDup_singleton].
  intros x Hx Hx'. apply list_elem_of_singleton in Hx'. subst x.
  apply (PKStore_holds_not_in _ _ Hh); [exact Heq | exact Hx].
Qed.

(** With closures that leave the queue alone, every iteration but the last
    takes a closure off the queue: more iterations than the queue is long
    suffice, and [Transit] ends. *)
Lemma Transit_ends (fuel : nat) (d : DKGDealer) :
  (forall id, keeps_queue (closure id)) ->
  (length (transitions d) < fuel)%nat ->
  exists r, Transit closure fuel d = Some r.
Proof.
  intros closure_keeps_queue.
  revert d. induction fuel as [|fuel IH]; intros d Hlen; [lia|].
  simpl. destruct (transitions d) as [|tn q] eqn:Hq; [eauto|].
  pose proof (keeps_call closure closure_keeps_queue tn d) as Hk.
  destruct (call closure tn d) as [[err ready] d'|m d']; [|eauto].
  destruct ready; simpl; [|eauto]. destruct err as [e|]; [eauto|].
  simpl in Hk. rewrite Hk, Hq. apply IH. simpl in *. lia.
Qed.

(** The end of a handler, on a queue that ends: it returns or panics, and
    the dealer's data is what the handler stored. *)
Lemma handler_Transit_ends (fuel : nat) (d : DKGDealer) :
  (forall id, keeps_field dealer_data (closure id)) ->
  (forall id, keeps_queue (closure id)) ->
  (length (transitions d) < fuel)%nat ->
  exists o, handler_Transit closure fuel d = Some o /\
            dealer_data (state_of o) = dealer_data d.
Proof.
  intros closure_keeps_data closure_keeps_queue Hlen.
  destruct (Transit_ends fuel d closure_keeps_queue Hlen) as (r & Hr).
  pose proof (dd_Transit closure closure_keeps_data fuel d r Hr) as Hdata.
  unfold handler_Transit. rewrite Hr.
  destruct r as [[e|] d'|m d']; eexists; (split; [reflexivity|exact Hdata]).
Qed.

(** X9. The handlers that collect responses, commits, complaints and
    reconstruct-commits store every message they can read, whoever sent it and
    whatever round it names: they look at neither, and a message that comes
    twice is stored twice.  Each of them ends, in a return or a panic of the
    run of the queue, and the dealer's data is then what it was with the
    message added: a response is added unless it names the dealer's own
    index, in which case the handler returns nil and the dealer is as it was;
    commits are added as decoded; a complaint or reconstruct-commit message is
    added as decoded, one without data as a nil entry.  This holds for every
    queue whose closures, other than the dealer's own methods, leave the
    dealer's data and the queue as they are, with more iterations than the
    queue is long. *)
Theorem collecting_handlers_store_every_message :
  (forall id, keeps_field dealer_data (closure id)) ->
  (forall id, keeps_queue (closure id)) ->
  forall (fuel : nat) (msg : DKGData) (d : DKGDealer),
    (length (transitions d) < fuel)%nat ->
    (forall resp,
       gob_decode_Response (msg_buffer msg) = inl resp ->
       if to_uint32 (participantID (dealerState d)) =? response_Index resp
       then HandleDKGResponse gob_decode_Response response_Index closure fuel msg d
            = Some (Returned None d)
       else exists o,
            HandleDKGResponse gob_decode_Response response_Index closure fuel msg d
            = Some o /\
            dealer_data (state_of o)
            = dealer_data (set_responses (responses d ++ [resp]) d)) /\
    (forall c,
       gob_decode_SecretCommits (dd_NumEntities msg) (msg_buffer msg) = inl c ->
       (0 < dd_NumEntities msg -> suiteG2 d <> None) ->
       exists o,
         HandleDKGCommit gob_decode_SecretCommits closure fuel msg d = Some o /\
         dealer_data (state_of o) = dealer_data (set_commits (commits d ++ [c]) d)) /\
    (dd_Data msg = None ->
       exists o,
         HandleDKGComplaint gob_decode_ComplaintCommits closure fuel msg d = Some o /\
         dealer_data (state_of o)
         = dealer_data (set_complaints (complaints d ++ [None]) d)) /\
    (forall b c,
       dd_Data msg = Some b ->
       gob_decode_ComplaintCommits (dd_NumEntities msg) b = inl c ->
       (0 < dd_NumEntities msg -> suiteG2 d <> None) ->
       exists o,
         HandleDKGComplaint gob_decode_ComplaintCommits closure fuel msg d = Some o /\
         dealer_data (state_of o)
         = dealer_data (set_complaints (complaints d ++ [Some c]) d)) /\
    (dd_Data msg = None ->
       exists o,
         HandleDKGReconstructCommit gob_decode_ReconstructCommits closure fuel msg d
         = Some o /\
         dealer_data (state_of o)
         = dealer_data (set_reconstructCommits (reconstructCommits d ++ [None]) d)) /\
    (forall b rc,
       dd_Data msg = Some b ->
       gob_decode_ReconstructCommits b = inl rc ->
       exists o,
         HandleDKGReconstructCommit gob_decode_ReconstructCommits closure fuel msg d
         = Some o /\
         dealer_data (state_of o)
         = dealer_data (set_reconstructCommits (reconstructCommits d ++ [Some rc]) d)).
Proof.
  intros closure_keeps_data closure_keeps_queue fuel msg d Hlen.
  assert (forall d', transitions d' = transitions d ->
          exists o, handler_Transit closure fuel d' = Some o /\
                    dealer_data (state_of o) = dealer_data d') as Hrun.
  { intros d' Hq. apply handler_Transit_ends; auto. rewrite Hq. exact Hlen. }
  assert (forall A (k : option (outcome DKGDealer A)),
            (0 < dd_NumEntities msg -> suiteG2 d <> None) ->
            match prepare_points (dd_NumEntities msg) d with
            | Panicked m d' => Some (Panicked m d')
            | Returned _ _ => k
            end = k) as Hpoints.
  { intros A k Hsuite. unfold prepare_points, suiteG2_Point.
    destruct (Z.ltb_spec 0 (dd_NumEntities msg)) as [Hpos|Hle]; [|reflexivity].
    destruct (suiteG2 d); [reflexivity|]. destruct (Hsuite Hpos). reflexivity. }
  repeat split.
  - intros resp Hdec. unfold HandleDKGResponse. rewrite Hdec.
    destruct (to_uint32 (participantID (dealerState d)) =? response_Index resp);
      [reflexivity|]. apply Hrun. reflexivity.
  - intros c Hdec Hsuite. unfold HandleDKGCommit. rewrite (Hpoints _ _ Hsuite), Hdec.
    apply Hrun. reflexivity.
  - intros Hdata. unfold HandleDKGComplaint. rewrite Hdata. apply Hrun. reflexivity.
  - intros b c Hdata Hdec Hsuite. unfold HandleDKGComplaint.
    rewrite Hdata, (Hpoints _ _ Hsuite), Hdec. apply Hrun. reflexivity.
  - intros Hdata. unfold HandleDKGReconstructCommit. rewrite Hdata. apply Hrun. reflexivity.
  - intros b rc Hdata Hdec. unfold HandleDKGReconstructCommit. rewrite Hdata, Hdec.
    apply Hrun. reflexivity.
Qed.

(** X10. Once [ResetDKGData] has run, the dealer cannot go on: [Start]
    panics on the missing suite, having counted a new round, and so do
    [HandleDKGPubKey] and [HandleDKGDeal] for every message; [GetVerifier]
    answers that the verifier is not ready and [Transit] has nothing to run. *)
Theorem nothing_runs_after_ResetDKGData :
  forall (fuel : nat) (msg : DKGData) (sk : Scalar) (d : DKGDealer),
    Start gob_Point point_Mul sk (ResetDKGData d)
    = Panicked nil_dereference
        (set_roundID (add64 (roundID (dealerState d)) 1) (ResetDKGData d)) /\
    HandleDKGPubKey point_Equal gob_decode_Point closure fuel msg (ResetDKGData d)
    = Some (Panicked nil_dereference (ResetDKGData d)) /\
    HandleDKGDeal gob_decode_Deal GetAddrString closure fuel msg (ResetDKGData d)
    = Some (Panicked nil_dereference (ResetDKGData d)) /\
    GetVerifier (ResetDKGData d) = inr ErrDKGVerifierNotReady /\
    Transit closure (S fuel) (ResetDKGData d) = Some (Returned None (ResetDKGData d)).
Proof. intros fuel msg sk d. repeat split. Qed.

End HandlerStatements.

(** ** Counting the messages *)

Section MessageCounts.
Context `{K : Kyber}.

Lemma send_all_Returned (msgs : list DKGData) (d : DKGDealer) :
  send_all msgs d = Returned tt (set_sendMsgCb (sendMsgCb d ++ msgs) d).
Proof.
  revert d. induction msgs as [|m rest IH]; intros d; simpl.
  - unfold ret. rewrite app_nil_r. destruct d; reflexivity.
  - unfold bind, SendMsgCb, modify. rewrite IH. simpl. rewrite <- app_assoc. reflexivity.
Qed.

(** What [ProcessComplaints_loop] has sent when it ends: a message for each
    entry when it returns no error, for fewer when it returns one. *)
Lemma ProcessComplaints_loop_sent (cs : list (option ComplaintCommits)) (d : DKGDealer) :
  forall o, ProcessComplaints_loop cs d = o ->
  exists new : list DKGData,
    sendMsgCb (state_of o) = sendMsgCb d ++ new /\
    Forall (fun m => dd_Type m = DKGReconstructCommit) new /\
    match o with
    | Returned None _ => length new = length cs
    | _ => (length new < length cs)%nat
    end.
Proof.
  revert d. induction cs as [|c rest IH]; intros d o Ho.
  - subst o. exists []. simpl. rewrite app_nil_r. repeat split. constructor.
  - assert (forall m d1, sendMsgCb d1 = sendMsgCb d -> dd_Type m = DKGReconstructCommit ->
              ProcessComplaints_loop rest (set_sendMsgCb (sendMsgCb d1 ++ [m]) d1) = o ->
              exists new : list DKGData,
                sendMsgCb (state_of o) = sendMsgCb d ++ new /\
                Forall (fun m => dd_Type m = DKGReconstructCommit) new /\
                match o with
                | Returned None _ => length new = S (length rest)
                | _ => (length new < S (length rest))%nat
                end) as Hstep.
    { intros m d1 Hd1 Hm Hrest.
      destruct (IH _ _ Hrest) as (new & Hs & Hall & Hn).
      exists (m :: new). simpl in Hs.
      split; [rewrite Hs, Hd1, <- app_assoc; reflexivity|].
      split; [constructor; assumption|].
      destruct o as [[e|] d2|msg d2]; simpl in *; lia. }
    assert (forall d1, sendMsgCb d1 = sendMsgCb d ->
              ((exists e, o = Returned (Some e) d1) \/ exists m, o = Panicked m d1) ->
              exists new : list DKGData,
                sendMsgCb (state_of o) = sendMsgCb d ++ new /\
                Forall (fun m => dd_Type m = DKGReconstructCommit) new /\
                match o with
                | Returned None _ => length new = S (length rest)
                | _ => (length new < S (length rest))%nat
                end) as Hnone.
    { intros d1 Hd1 [[e ->]|[m ->]]; exists []; simpl; rewrite app_nil_r;
        repeat split; auto; first [lia | constructor]. }
    simpl in Ho. destruct c as [complaint|].
    + unfold bind, gets, on_instance in Ho.
      destruct (instance d) as [g|];
        [|eapply Hnone; [|right; eexists; symmetry; exact Ho]; reflexivity].
      destruct (dkg_ProcessComplaintCommits g complaint) as [g' [[rc|]|err]].
      * destruct (gob_ComplaintCommits complaint) as [b|err].
        -- unfold SendMsgCb, modify in Ho. refine (Hstep _ _ _ _ Ho); reflexivity.
        -- eapply Hnone; [|left; eexists; symmetry; exact Ho]; reflexivity.
      * unfold SendMsgCb, modify in Ho. refine (Hstep _ _ _ _ Ho); reflexivity.
      * eapply Hnone; [|left; eexists; symmetry; exact Ho]; reflexivity.
    + unfold bind, gets, SendMsgCb, modify in Ho. refine (Hstep _ _ _ _ Ho); reflexivity.
Qed.

(** X11. [ProcessComplaints] sends as it goes: the messages are handed to
    the callback inside the loop, one for an entry, the nil entries too.
    However it ends, it has sent at most one message for each complaint it
    holds, all of type DKGReconstructCommit, after the messages sent before;
    when it reports ready without error it has sent exactly one for each. *)
Theorem ProcessComplaints_sends_per_complaint :
  forall d : DKGDealer,
    exists new : list DKGData,
      sendMsgCb (state_of (ProcessComplaints d)) = sendMsgCb d ++ new /\
      Forall (fun m => dd_Type m = DKGReconstructCommit) new /\
      (length new <= length (complaints d))%nat /\
      (forall d', ProcessComplaints d = Returned (None, true) d' ->
                  length new = length (complaints d)).
Proof.
  intros d.
  assert (forall o, ProcessComplaints d = o ->
            exists new : list DKGData,
              sendMsgCb (state_of o) = sendMsgCb d ++ new /\
              Forall (fun m => dd_Type m = DKGReconstructCommit) new /\
              (length new <= length (complaints d))%nat /\
              (forall d', o = Returned (None, true) d' ->
                          length new = length (complaints d))) as H;
    [|exact (H _ eq_refl)].
  intros o Ho.
  assert (state_of o = d -> (forall d', o <> Returned (None, true) d') ->
            exists new : list DKGData,
              sendMsgCb (state_of o) = sendMsgCb d ++ new /\
              Forall (fun m => dd_Type m = DKGReconstructCommit) new /\
              (length new <= length (complaints d))%nat /\
              (forall d', o = Returned (None, true) d' ->
                          length new = length (complaints d))) as Hnone.
  { intros -> Hne. exists []. rewrite app_nil_r.
    split; [reflexivity|]. split; [constructor|]. split; [simpl; lia|].
    intros d' Hd'. destruct (Hne d' Hd'). }
  unfold ProcessComplaints in Ho.
  unfold bind at 1 in Ho. unfold gets at 1 in Ho.
  unfold bind at 1 in Ho. unfold read_instance at 1 in Ho.
  destruct (instance d) as [g|]; [|subst o; apply Hnone; [reflexivity | discriminate]].
  destruct (len (complaints d) <? sub64 (len (dkg_QUAL g)) 1);
    [subst o; apply Hnone; [reflexivity | discriminate]|].
  clear Hnone.
  destruct (ProcessComplaints_loop_sent (complaints d) d _ eq_refl) as (new & Hs & Hall & Hn).
  exists new. unfold bind at 1 in Ho.
  destruct (ProcessComplaints_loop (complaints d) d) as [[e|] d1|m d1]; subst o; simpl in *.
  - split; [exact Hs|]. split; [exact Hall|]. split; [lia | discriminate].
  - split; [exact Hs|]. split; [exact Hall|]. split; [lia | intros; exact Hn].
  - split; [exact Hs|]. split; [exact Hall|]. split; [lia | discriminate].
Qed.

(** X12. [ProcessJustifications] sends at most one message, and only when
    it reports ready without error: then it is a DKGCommits message whose
    [NumEntities] counts the commitments it carries.  On every other path,
    an error of [GetCommits] included, nothing is sent. *)
Theorem ProcessJustifications_sends_one_or_none :
  forall d : DKGDealer,
    match ProcessJustifications d with
    | Returned (None, true) d' =>
        exists (c : SecretCommits) (b : bytes) (d1 : DKGDealer),
          GetCommits d = Returned (inl c) d1 /\ gob_SecretCommits c = inl b /\
          sendMsgCb d' = sendMsgCb d1 ++ [with_Data b (len (sc_Commitments c))
                                            (new_msg DKGCommits d1)] /\
          sendMsgCb d1 = sendMsgCb d
    | Returned _ d' => sendMsgCb d' = sendMsgCb d
    | Panicked _ d' => sendMsgCb d' = sendMsgCb d
    end.
Proof.
  intros d.
  assert (keeps_field sendMsgCb GetCommits) as Hkeep.
  { unfold GetCommits. intros d0. unfold value_receiver.
    assert (keeps_field sendMsgCb GetCommits_body) as Hb.
    { unfold GetCommits_body, Size.
      assert (forall js, keeps_field sendMsgCb (GetCommits_justifications js)) as Hjs
        by (induction js as [|[j|] rest IH]; simpl; kf).
      assert (forall e x, keeps_field sendMsgCb (FireEvent e x)) as Hfire
        by (intros; apply kf_modify; reflexivity).
      kf. }
    specialize (Hb d0). destruct (GetCommits_body d0); exact Hb. }
  unfold ProcessJustifications. unfold bind at 1. unfold gets at 1.
  destruct (IsJustificationsReady d); simpl; [|reflexivity].
  unfold bind at 1. specialize (Hkeep d).
  destruct (GetCommits d) as [[c|err] d1|m d1]; simpl in *; [| exact Hkeep | exact Hkeep].
  destruct (gob_SecretCommits c) as [b|err] eqn:Hgob; simpl; [|exact Hkeep].
  exists c, b, d1. repeat split; auto.
Qed.

End MessageCounts.

(** ** [Start] and the mock dealers *)

Section StartStatements.
Context `{K : Kyber}.
Variable gob_Point : Point -> bytes + error.
Variable point_Mul : Scalar -> Point.
Variable closure : nat -> D (option error * bool).

Lemma dd_GetDeals : keeps_field dealer_data GetDeals.
Proof.
  pose proof dd_GetDeals_encode. pose proof dd_FireEvent.
  unfold GetDeals, Size. kf.
Qed.

Lemma Forall_removelast {A : Type} (P : A -> Prop) (l : list A) :
  Forall P l -> Forall P (removelast l).
Proof.
  induction l as [|x [|y l] IH]; intros H; simpl; auto.
  apply Forall_cons in H as [Hx H]. constructor; auto.
Qed.

Lemma length_removelast {A : Type} (l : list A) :
  length (removelast l) = pred (length l).
Proof.
  induction l as [|x [|y l] IH]; [reflexivity..|].
  change (removelast (x :: y :: l)) with (x :: removelast (y :: l)).
  change (length (x :: removelast (y :: l))) with (S (length (removelast (y :: l)))).
  rewrite IH. reflexivity.
Qed.

Lemma inv_DontSendOneDeal_SendDeals (Inv : DKGDealer -> Prop) (ok : DKGData -> Prop)
    (allowed : DKGDataType -> Prop) :
  dealer_invariant Inv ok allowed -> allowed DKGDeal ->
  establishes Inv DontSendOneDeal_SendDeals (fun _ => True).
Proof.
  intros HI Ht. unfold DontSendOneDeal_SendDeals, DontSendOneDeal_GetDeals.
  repeat est_head; auto.
  eapply est_bind.
  - eapply est_bind; [apply (inv_GetDeals _ _ _ HI Ht) | intros r Hr; cbv beta].
    destruct (fst r) as [|m rest] eqn:Hfst; [apply est_panic|].
    apply (est_ret _ _ (fun r' => Forall ok (fst r'))).
    change (Forall ok (removelast (m :: rest))).
    apply Forall_removelast. rewrite <- Hfst. exact Hr.
  - intros r Hr. cbv beta. destruct (snd r); [apply est_ret; exact I|].
    eapply est_bind; [apply (inv_send_all _ _ _ HI); exact Hr | intros ? _; cbv beta].
    apply est_ret. exact I.
Qed.

Lemma inv_deal_mock_closure (Inv : DKGDealer -> Prop) (ok : DKGData -> Prop)
    (allowed : DKGDataType -> Prop) (id : nat) :
  dealer_invariant Inv ok allowed -> allowed DKGDeal ->
  establishes Inv (deal_mock_closure id) (fun _ => True).
Proof.
  intros HI Ht. destruct id as [|id]; simpl.
  - apply (inv_DontSendOneDeal_SendDeals _ _ _ HI Ht).
  - unfold DontSendAnyDeal_SendDeals. repeat est_head; auto.
Qed.

Lemma queue_deal_mock_closure (id : nat) : keeps_queue (deal_mock_closure id).
Proof.
  pose proof keeps_GetDeals as HG. pose proof keeps_send_all as HS.
  change (keeps_field transitions (deal_mock_closure id)).
  change (keeps_field transitions GetDeals) in HG.
  assert (forall m, keeps_field transitions (send_all m)) as HS' by exact HS.
  destruct id as [|id]; simpl;
    unfold DontSendOneDeal_SendDeals, DontSendOneDeal_GetDeals, DontSendAnyDeal_SendDeals;
    kf.
Qed.

Lemma dd_deal_mock_closure (id : nat) : keeps_field dealer_data (deal_mock_closure id).
Proof.
  pose proof dd_GetDeals. pose proof dd_send_all.
  destruct id as [|id]; simpl;
    unfold DontSendOneDeal_SendDeals, DontSendOneDeal_GetDeals, DontSendAnyDeal_SendDeals;
    kf.
Qed.

Lemma keys_deal_mock_closure (id : nat) (d : DKGDealer) :
  pubKeys (state_of (deal_mock_closure id d)) ≡ₚ pubKeys d.
Proof.
  pose proof (inv_deal_mock_closure _ _ _ id (same_keys_invariant d) I d
                (reflexivity _)) as H.
  destruct (deal_mock_closure id d); simpl; [exact (proj1 H) | exact H].
Qed.

Lemma sends_deal_mock_closure (id : nat) (d : DKGDealer) :
  dealer_sends (fun t => t = DKGDeal) d (state_of (deal_mock_closure id d)).
Proof.
  pose proof (inv_deal_mock_closure _ _ _ id
                (dealer_sends_invariant (fun t => t = DKGDeal) d) eq_refl d
                (dealer_sends_refl _ d)) as H.
  destruct (deal_mock_closure id d); simpl; [exact (proj1 H) | exact H].
Qed.

Lemma dealer_sends_any (allowed : DKGDataType -> Prop) (d d' : DKGDealer) :
  dealer_sends allowed d d' -> dealer_sends (fun _ => True) d d'.
Proof.
  intros (Ha & Hr & new & Hs & Hall). unfold dealer_sends. repeat split; auto.
  exists new. split; [exact Hs|]. eapply Forall_impl; [exact Hall|].
  intros m (? & ? & _). auto.
Qed.

(** X13. The closures the two mock dealers of dkg_dealer_deal_mocks.go put
    in the queue in place of [SendDeals] behave, as far as the queue goes,
    like the transition they replace: they leave the queue and the dealer's
    data as they are, keep the keys of the store, and send deal messages only,
    bearing the dealer's address and round id. *)
Theorem deal_mocks_keep_the_dealer :
  forall id : nat,
    keeps_queue (deal_mock_closure id) /\
    keeps_field dealer_data (deal_mock_closure id) /\
    (forall d, pubKeys (state_of (deal_mock_closure id d)) ≡ₚ pubKeys d) /\
    (forall d, dealer_sends (fun t => t = DKGDeal) d (state_of (deal_mock_closure id d))).
Proof.
  intros id. split; [|split; [|split]].
  - apply queue_deal_mock_closure.
  - apply dd_deal_mock_closure.
  - apply keys_deal_mock_closure.
  - apply sends_deal_mock_closure.
Qed.

(** X14. The mock that leaves out one deal does not return the error of a
    failed [GetDeals]: whenever [GetDeals] comes back with no message, as it
    does when the generator cannot be built or cannot deal, the mock's
    [SendDeals] panics on the empty slice.  When [GetDeals] comes back with
    messages and no error, the mock sends all of them but the last, and fires
    no event. *)
Theorem DontSendOneDeal_drops_last_or_panics :
  forall (d d1 : DKGDealer) (msgs : list DKGData) (e : option error),
    IsReady d = true ->
    GetDeals d = Returned (msgs, e) d1 ->
    (msgs = [] -> DontSendOneDeal_SendDeals d = Panicked slice_out_of_range d1) /\
    (msgs <> [] -> e = None ->
     DontSendOneDeal_SendDeals d
     = Returned (None, true) (set_sendMsgCb (sendMsgCb d1 ++ removelast msgs) d1) /\
     length (removelast msgs) = pred (length msgs)).
Proof.
  intros d d1 msgs e Hready HG.
  unfold DontSendOneDeal_SendDeals, DontSendOneDeal_GetDeals, bind, gets, ret.
  rewrite Hready. cbn [negb]. rewrite HG. cbn [fst snd]. split.
  - intros ->. reflexivity.
  - intros Hne ->. destruct msgs as [|m rest]; [contradiction|]. split.
    + cbn [fst snd]. rewrite send_all_Returned. reflexivity.
    + apply length_removelast.
Qed.

(** X15. A round is one round id: when [Start] returns without error, the
    messages it and a following [Transit] send, first the DKGPubKey message,
    all bear the dealer's address and the round id [Start] has just counted up
    to; the messages sent before the call stay ahead of them. *)
Theorem Start_then_Transit_one_round :
  (forall id d, dealer_sends (fun _ => True) d (state_of (closure id d))) ->
  forall (sk : Scalar) (fuel : nat) (d d1 : DKGDealer)
         (o : outcome DKGDealer (option error)),
    Start gob_Point point_Mul sk d = Returned None d1 ->
    Transit closure fuel d1 = Some o ->
    exists (first : DKGData) (new : list DKGData),
      sendMsgCb (state_of o) = sendMsgCb d ++ first :: new /\
      dd_Type first = DKGPubKey /\
      Forall (fun m => dd_Addr m = addrBytes (dealerState d) /\
                       dd_RoundID m = add64 (roundID (dealerState d)) 1)
             (first :: new) /\
      roundID (dealerState (state_of o)) = add64 (roundID (dealerState d)) 1.
Proof.
  intros Hc sk fuel d d1 o HS HT.
  apply (dealer_sends_Transit closure Hc) in HT as (Ha & Hr & new & Hs & Hall).
  unfold Start, bind, modify, suiteG2_Point, gets, SendMsgCb, ret in HS. simpl in HS.
  destruct (suiteG2 d); [|discriminate].
  destruct (gob_Point (point_Mul sk)) as [b|err]; [|discriminate].
  injection HS as <-. simpl in *.
  eexists. exists new. split; [rewrite Hs, <- app_assoc; reflexivity|].
  split; [reflexivity|]. split; [|exact Hr].
  constructor; [split; reflexivity|].
  eapply Forall_impl; [exact Hall|]. intros m (? & ? & _). auto.
Qed.

(** X16. A transition of the dealer's own that is not ready costs nothing:
    when the head of the queue reports not ready, [Transit] returns nil and the
    dealer is exactly as it was, the queue, the generator, the events fired
    and the messages sent included.  So [Transit] can be run again on every
    message that comes in. *)
Theorem Transit_waits_unchanged :
  forall (fuel : nat) (d d' : DKGDealer) (tn : transition) (q : list transition)
         (err : option error),
    (forall id, tn <> tn_other id) ->
    transitions d = tn :: q ->
    call closure tn d = Returned (err, false) d' ->
    Transit closure (S fuel) d = Some (Returned None d).
Proof.
  intros fuel d d' tn q err Hown Hq Hcall.
  destruct (own_transition_not_ready_noop closure tn d d' err Hown Hcall) as [-> _].
  simpl. rewrite Hq, Hcall. reflexivity.
Qed.

(** X17. The threshold [GetVerifier] gives the verifier is never above the
    threshold [GetDeals] built the generator with, and at most one below it;
    it is below the number of validators.  (For up to 2^62 validators.) *)
Theorem GetVerifier_threshold_close_to_deals :
  forall (d : DKGDealer) (v : BLSVerifier),
    GetVerifier d = inl v ->
    1 <= vs_Size (validators (dealerState d)) < 2 ^ 62 ->
    bls_t v <= quot64 (mul64 (vs_Size (validators (dealerState d))) 2) 3 <= bls_t v + 1 /\
    bls_t v < bls_n v.
Proof.
  intros d v Hv Hn. destruct (GetVerifier_parameters d v Hv) as [-> ->].
  destruct (deals_threshold_floor _ Hn) as [-> _].
  destruct (verifier_threshold_floor _ Hn) as [-> Hlt].
  split; [|exact Hlt].
  set (n := vs_Size (validators (dealerState d))) in *.
  pose proof (Z.div_mod n 3 ltac:(lia)) as Hdm.
  pose proof (Z.mod_pos_bound n 3 ltac:(lia)) as Hm.
  assert (2 * (n / 3) <= 2 * n / 3) by (apply Z.div_le_lower_bound; lia).
  assert (2 * n / 3 < 2 * (n / 3) + 2) by (apply Z.div_lt_upper_bound; lia).
  lia.
Qed.

End StartStatements.

(** ** The losers list over the life of a dealer *)

Section DealerLosers.
Context `{K : Kyber}.
Variable point_Equal : Point -> Point -> bool.
Variable gob_decode_Point : bytes -> Point + error.
Variable gob_decode_Deal : bytes -> Deal + error.
Variable gob_decode_Response : bytes -> Response + error.
Variable gob_decode_Justification : bytes -> Justification + error.
Variable gob_decode_SecretCommits : Z -> bytes -> SecretCommits + error.
Variable gob_decode_ComplaintCommits : Z -> bytes -> ComplaintCommits + error.
Variable gob_decode_ReconstructCommits : bytes -> ReconstructCommits + error.
Variable gob_Point : Point -> bytes + error.
Variable point_Mul : Scalar -> Point.
Variable response_Index : Response -> Z.
Variable GetAddrString : DKGData -> string.
Variable closure : nat -> D (option error * bool).
Hypothesis closure_keeps_losers : forall id, keeps_field losers (closure id).

#[local] Abbreviation reachable :=
  (dealer_reachable point_Equal gob_decode_Point gob_decode_Deal gob_decode_Response
     gob_decode_Justification gob_decode_SecretCommits gob_decode_ComplaintCommits
     gob_decode_ReconstructCommits gob_Point point_Mul response_Index GetAddrString
     closure).
#[local] Abbreviation after :=
  (dealer_after point_Equal gob_decode_Point gob_decode_Deal gob_decode_Response
     gob_decode_Justification gob_decode_SecretCommits gob_decode_ComplaintCommits
     gob_decode_ReconstructCommits gob_Point point_Mul response_Index GetAddrString
     closure).

(** What keeps the dealer's data keeps its losers, which are part of it. *)
Lemma losers_of_dealer_data {A : Type} (c : D A) :
  keeps_field dealer_data c -> keeps_field losers c.
Proof.
  intros H d. specialize (H d). unfold dealer_data in H. congruence.
Qed.

Lemma losers_call (tn : transition) : keeps_field losers (call closure tn).
Proof.
  destruct tn as [| | | | | | |id]; simpl;
    auto using losers_of_dealer_data, dd_SendDeals, dd_ProcessDeals, dd_ProcessResponses,
      dd_ProcessJustifications, dd_ProcessCommits, dd_ProcessComplaints,
      dd_ProcessReconstructCommits.
Qed.

Lemma losers_Transit (fuel : nat) (d : DKGDealer) (r : outcome DKGDealer (option error)) :
  Transit closure fuel d = Some r -> losers (state_of r) = losers d.
Proof.
  revert d r. induction fuel as [|fuel IH]; intros d r; simpl; [discriminate|].
  destruct (transitions d) as [|tn q]; [intros H; injection H as <-; reflexivity|].
  pose proof (losers_call tn d) as Hcall.
  destruct (call closure tn d) as [[err ready] d'|m d']; simpl in Hcall.
  - destruct ready; simpl.
    + destruct err as [e|].
      * intros H. injection H as <-. exact Hcall.
      * destruct (transitions d') as [|t rest].
        -- intros H. injection H as <-. exact Hcall.
        -- intros H. apply IH in H. rewrite H. exact Hcall.
    + intros H. injection H as <-. exact Hcall.
  - intros H. injection H as <-. exact Hcall.
Qed.

Lemma losers_handler_Transit (fuel : nat) (d : DKGDealer)
    (o : outcome DKGDealer (option error)) :
  handler_Transit closure fuel d = Some o -> losers (state_of o) = losers d.
Proof.
  intros H. apply handler_Transit_state in H as (r & Hr & ->).
  exact (losers_Transit fuel d r Hr).
Qed.

Lemma losers_Start (sk : Scalar) : keeps_field losers (Start gob_Point point_Mul sk).
Proof. unfold Start, suiteG2_Point, SendMsgCb. kf. intros d. destruct (suiteG2 d); reflexivity. Qed.

Lemma losers_GetDeals : keeps_field losers GetDeals.
Proof. apply losers_of_dealer_data, dd_GetDeals. Qed.

(** No call writes the losers: whatever is called, the dealer has after it
    the losers it had before. *)
Lemma losers_after (fuel : nat) (m : dealer_method) (d d' : DKGDealer) :
  after fuel m d = Some d' -> losers d' = losers d.
Proof.
  assert (forall (o : option (outcome DKGDealer (option error))),
            (forall r, o = Some r -> losers (state_of r) = losers d) ->
            state_of <$> o = Some d' -> losers d' = losers d) as Hopt.
  { intros [r|] Hr H; [|discriminate]. injection H as <-. apply Hr. reflexivity. }
  assert (forall (A : Type) (c : D A),
            keeps_field losers c -> Some (state_of (c d)) = Some d' ->
            losers d' = losers d) as Hkeep.
  { intros A c Hc H. injection H as <-. apply Hc. }
  assert (forall d0 r, losers d0 = losers d ->
            handler_Transit closure fuel d0 = Some r ->
            losers (state_of r) = losers d) as Hrun.
  { intros d0 r Hd0 H. rewrite <- Hd0. exact (losers_handler_Transit fuel d0 r H). }
  assert (forall (r : outcome DKGDealer (option error)) x,
            Some (Returned x d) = Some r -> losers (state_of r) = losers d) as Hsame.
  { intros r x H. injection H as <-. reflexivity. }
  assert (forall (r : outcome DKGDealer (option error)) x,
            Some (@Panicked DKGDealer (option error) x d) = Some r ->
            losers (state_of r) = losers d) as Hpanic.
  { intros r x H. injection H as <-. reflexivity. }
  destruct m; simpl.
  - apply Hkeep, losers_Start.
  - apply Hopt. intros r. apply losers_Transit.
  - intros H. injection H as <-. reflexivity.
  - intros H. injection H as <-. reflexivity.
  - intros H. injection H as <-. reflexivity.
  - apply Hopt. intros r. unfold HandleDKGPubKey, suiteG2_Point.
    destruct (suiteG2 d); [|apply Hpanic].
    destruct (gob_decode_Point _); [|apply Hsame]. apply Hrun. reflexivity.
  - apply Hopt. intros r. unfold HandleDKGDeal, suiteG2_Point.
    destruct (suiteG2 d); [|apply Hpanic].
    destruct (gob_decode_Deal _); [|apply Hsame].
    destruct (negb _); [apply Hsame|].
    destruct (deals d !! _); [apply Hsame|]. apply Hrun. reflexivity.
  - apply Hopt. intros r. unfold HandleDKGResponse.
    destruct (gob_decode_Response _); [|apply Hsame].
    destruct (_ =? _); [apply Hsame|]. apply Hrun. reflexivity.
  - apply Hopt. intros r. unfold HandleDKGJustification.
    destruct (dd_Data msg) as [b|];
      [destruct (gob_decode_Justification b); [|apply Hsame]|];
      (destruct (justifications d !! _); [apply Hsame|]);
      (destruct (suiteG2 d); [|apply Hpanic]); apply Hrun; reflexivity.
  - apply Hopt. intros r. unfold HandleDKGCommit, prepare_points, suiteG2_Point.
    destruct (0 <? _); [destruct (suiteG2 d); [|apply Hpanic]|unfold ret];
      (destruct (gob_decode_SecretCommits _ _); [|apply Hsame]); apply Hrun; reflexivity.
  - apply Hopt. intros r. unfold HandleDKGComplaint, prepare_points, suiteG2_Point.
    destruct (dd_Data msg) as [b|]; [|apply Hrun; reflexivity].
    destruct (0 <? _); [destruct (suiteG2 d); [|apply Hpanic]|unfold ret];
      (destruct (gob_decode_ComplaintCommits _ _); [|apply Hsame]); apply Hrun; reflexivity.
  - apply Hopt. intros r. unfold HandleDKGReconstructCommit.
    destruct (dd_Data msg) as [b|]; [|apply Hrun; reflexivity].
    destruct (gob_decode_ReconstructCommits _); [|apply Hsame]. apply Hrun. reflexivity.
  - apply Hkeep, losers_call.
  - apply Hkeep, losers_GetDeals.
  - apply Hkeep. unfold GetResponses. pose proof dd_GetResponses_loop.
    apply losers_of_dealer_data. kf.
  - apply Hkeep. unfold GetJustifications. pose proof dd_GetJustifications_loop.
    apply losers_of_dealer_data. kf.
  - intros H. injection H as <-. apply GetCommits_keeps_losers.
  - intros H. injection H as <-. reflexivity.
  - apply Hkeep. unfold mock_Start. pose proof losers_Start. kf.
  - intros H. injection H as <-. reflexivity.
  - apply Hkeep. unfold DontSendOneDeal_GetDeals. pose proof losers_GetDeals. kf.
Qed.

(** So a dealer the program can hold has no losers. *)
Lemma reachable_no_losers (d : DKGDealer) : reachable d -> losers d = [].
Proof.
  induction 1 as [vals addr|fuel m d d' _ IH Hafter]; [reflexivity|].
  rewrite (losers_after fuel m d d' Hafter). exact IH.
Qed.

Lemma dealer_after_all_reachable (fuel : nat) (ms : list dealer_method) (d d' : DKGDealer) :
  reachable d ->
  dealer_after_all point_Equal gob_decode_Point gob_decode_Deal gob_decode_Response
     gob_decode_Justification gob_decode_SecretCommits gob_decode_ComplaintCommits
     gob_decode_ReconstructCommits gob_Point point_Mul response_Index GetAddrString
     closure fuel ms d = Some d' ->
  reachable d'.
Proof.
  revert d. induction ms as [|m rest IH]; intros d Hd; simpl.
  - intros H. injection H as <-. exact Hd.
  - destruct (after fuel m d) as [d1|] eqn:H1; [|discriminate].
    apply IH. exact (reach_method _ _ _ _ _ _ _ _ _ _ _ _ _ fuel m d d1 Hd H1).
Qed.

(** C5.  After [ResetDKGData] returns, every field of the dealer's per-round
    data is cleared: the key pair, the suites, the generator, the transition
    queue, the public-key store, the deals, the responses, the justifications,
    the commits, the complaints, the reconstruct-commits and the losers list
    hold nothing of the round before.  This holds for every dealer the
    program can hold: one that [NewDKGDealer] returned and that any calls of
    its methods were made on since, in any order and however they ended.
    [ResetDKGData] assigns nil to all of these fields but the losers list;
    that list is empty because it is on every such dealer: [NewDKGDealer]
    leaves it nil and no call writes it (the append of [GetCommits], line 536,
    is made on a copy).  The closures other than the dealer's own methods are
    taken not to write it either. *)
Theorem ResetDKGData_clears_every_field :
  forall d : DKGDealer,
    reachable d ->
    pubKey (ResetDKGData d) = None /\
    secKey (ResetDKGData d) = None /\
    suiteG1 (ResetDKGData d) = None /\
    suiteG2 (ResetDKGData d) = None /\
    instance (ResetDKGData d) = None /\
    transitions (ResetDKGData d) = [] /\
    pubKeys (ResetDKGData d) = [] /\
    deals (ResetDKGData d) = ∅ /\
    responses (ResetDKGData d) = [] /\
    justifications (ResetDKGData d) = ∅ /\
    commits (ResetDKGData d) = [] /\
    complaints (ResetDKGData d) = [] /\
    reconstructCommits (ResetDKGData d) = [] /\
    losers (ResetDKGData d) = [].
Proof.
  intros d Hd. repeat (split; [reflexivity|]).
  exact (reachable_no_losers d Hd).
Qed.

End DealerLosers.

(** ** The statements above on concrete dealers *)

Section DealerWitnesses.
#[local] Existing Instance scripted_kyber.

Lemma Transit_keeps_dealer_data_witness :
  match Transit deal_mock_closure 8 (mock_GenerateTransitions 0 dealer_five) with
  | Some r => dealer_data (state_of r) = dealer_data (mock_GenerateTransitions 0 dealer_five)
  | None => True
  end.
Proof.
  apply (Transit_keeps_dealer_data deal_mock_closure). exact dd_deal_mock_closure.
Defined.

Lemma GetDeals_participants_canonical_witness :
  pubKeys (state_of (GetDeals dealer_five))
  = pubKeys (state_of (GetDeals dealer_five_reversed)) /\
  GetPKs (pubKeys (state_of (GetDeals dealer_five)))
  = GetPKs (pubKeys (state_of (GetDeals dealer_five_reversed))).
Proof.
  apply (GetDeals_participants_canonical dealer_five dealer_five_reversed).
  - exact (Permutation_rev (keys_of five_addrs)).
  - refine (bool_decide_unpack _ _). vm_compute. exact I.
Defined.

Lemma own_transition_sends_its_messages_witness :
  dealer_sends (fun t => message_type tn_SendDeals = Some t) dealer_five
    (state_of (call deal_mock_closure tn_SendDeals dealer_five)).
Proof.
  apply (own_transition_sends_its_messages deal_mock_closure tn_SendDeals dealer_five).
  intros id. discriminate.
Defined.

Lemma Transit_sends_as_the_dealer_witness :
  match Transit deal_mock_closure 8 (mock_GenerateTransitions 0 dealer_five) with
  | Some o => dealer_sends (fun _ => True) (mock_GenerateTransitions 0 dealer_five) (state_of o)
  | None => True
  end.
Proof.
  apply (Transit_sends_as_the_dealer deal_mock_closure).
  intros id d. exact (dealer_sends_any _ _ _ (sends_deal_mock_closure id d)).
Defined.

Lemma Transit_keeps_the_keys_witness :
  match Transit deal_mock_closure 8 (mock_GenerateTransitions 0 dealer_five_reversed) with
  | Some o => pubKeys (state_of o) ≡ₚ pubKeys (mock_GenerateTransitions 0 dealer_five_reversed)
  | None => True
  end.
Proof.
  apply (Transit_keeps_the_keys deal_mock_closure). exact keys_deal_mock_closure.
Defined.

Lemma HandleDKGDeal_keeps_first_deal_witness :
  exists o : outcome DKGDealer (option error),
    HandleDKGDeal decode_Deal addr_string deal_mock_closure 8
      (message_of_x03 DKGDeal (Some [Byte.x01])) (GenerateTransitions dealer_five) = Some o /\
    (forall a x, deals (GenerateTransitions dealer_five) !! a = Some x ->
                 deals (state_of o) !! a = Some x) /\
    (forall a, a <> addr_string (message_of_x03 DKGDeal (Some [Byte.x01])) ->
               deals (state_of o) !! a = deals (GenerateTransitions dealer_five) !! a) /\
    (participantID (dealerState (GenerateTransitions dealer_five))
     <> dd_ToIndex (message_of_x03 DKGDeal (Some [Byte.x01])) ->
     deals (state_of o) = deals (GenerateTransitions dealer_five)).
Proof.
  eexists. split; [vm_compute; reflexivity|].
  apply (HandleDKGDeal_keeps_first_deal decode_Deal addr_string deal_mock_closure
           dd_deal_mock_closure 8 (message_of_x03 DKGDeal (Some [Byte.x01]))
           (GenerateTransitions dealer_five)).
  vm_compute. reflexivity.
Defined.

Lemma HandleDKGPubKey_keeps_entries_distinct_witness :
  exists o : outcome DKGDealer (option error),
    HandleDKGPubKey equal_Point decode_Point deal_mock_closure 8
      (message_of_x03 DKGPubKey (Some [Byte.x01])) dealer_three_two_keys = Some o /\
    NoDup (pubKeys (state_of o)).
Proof.
  eexists. split; [vm_compute; reflexivity|].
  apply (HandleDKGPubKey_keeps_entries_distinct equal_Point decode_Point deal_mock_closure
           Z.eqb_refl keys_deal_mock_closure 8
           (message_of_x03 DKGPubKey (Some [Byte.x01])) dealer_three_two_keys).
  - vm_compute. repeat constructor; rewrite ?elem_of_cons, ?elem_of_nil; intuition discriminate.
  - vm_compute. reflexivity.
Defined.

Lemma losers_deal_mock_closure (id : nat) : keeps_field losers (deal_mock_closure id).
Proof. apply losers_of_dealer_data, dd_deal_mock_closure. Qed.

(** The statement of C5 on the dealer of validator [x01] among three after
    the calls of a round that broke off: it holds a key pair, a key, commits,
    a justification and a queue, and [ResetDKGData] leaves none of them. *)
Lemma ResetDKGData_clears_every_field_witness :
  exists d : DKGDealer,
    dealer_after_all equal_Point decode_Point decode_Deal decode_Response
      decode_Justification decode_SecretCommits decode_ComplaintCommits
      decode_ReconstructCommits encode_Point base_Mul response_of addr_string
      deal_mock_closure 8
      calls_of_a_round
      (NewDKGDealer (validators_of three_addrs) (addr_of Byte.x01)) = Some d /\
    pubKey d = Some 5 /\
    length (pubKeys d) = 1%nat /\
    length (commits d) = 1%nat /\
    size (justifications d) = 1%nat /\
    length (transitions d) = 7%nat /\
    pubKey (ResetDKGData d) = None /\
    secKey (ResetDKGData d) = None /\
    suiteG1 (ResetDKGData d) = None /\
    suiteG2 (ResetDKGData d) = None /\
    instance (ResetDKGData d) = None /\
    transitions (ResetDKGData d) = [] /\
    pubKeys (ResetDKGData d) = [] /\
    deals (ResetDKGData d) = ∅ /\
    responses (ResetDKGData d) = [] /\
    justifications (ResetDKGData d) = ∅ /\
    commits (ResetDKGData d) = [] /\
    complaints (ResetDKGData d) = [] /\
    reconstructCommits (ResetDKGData d) = [] /\
    losers (ResetDKGData d) = [].
Proof.
  eexists. split; [vm_compute; reflexivity|].
  do 5 (split; [vm_compute; reflexivity|]).
  apply (ResetDKGData_clears_every_field equal_Point decode_Point decode_Deal
           decode_Response decode_Justification decode_SecretCommits
           decode_ComplaintCommits decode_ReconstructCommits encode_Point base_Mul
           response_of addr_string deal_mock_closure losers_deal_mock_closure).
  apply (dealer_after_all_reachable equal_Point decode_Point decode_Deal
           decode_Response decode_Justification decode_SecretCommits
           decode_ComplaintCommits decode_ReconstructCommits encode_Point base_Mul
           response_of addr_string deal_mock_closure 8
           calls_of_a_round
           (NewDKGDealer (validators_of three_addrs) (addr_of Byte.x01))).
  - apply reach_NewDKGDealer.
  - vm_compute. reflexivity.
Defined.
Lemma collecting_handlers_store_every_message_witness :
  exists o : outcome DKGDealer (option error),
    HandleDKGComplaint decode_ComplaintCommits deal_mock_closure 8
      (message_of_x03 DKGComplaint None) dealer_five_finished = Some o /\
    dealer_data (state_of o)
    = dealer_data (set_complaints (complaints dealer_five_finished ++ [None])
                     dealer_five_finished).
Proof.
  refine (proj1 (proj2 (proj2
            (collecting_handlers_store_every_message decode_Response
               decode_SecretCommits decode_ComplaintCommits response_of
               decode_ReconstructCommits deal_mock_closure dd_deal_mock_closure
               queue_deal_mock_closure 8
               (message_of_x03 DKGComplaint None) dealer_five_finished _))) eq_refl).
  vm_compute. lia.
Defined.
Lemma DontSendOneDeal_drops_last_or_panics_witness :
  DontSendOneDeal_SendDeals dealer_five_no_key
  = Panicked slice_out_of_range (state_of (GetDeals dealer_five_no_key)) /\
  length (sendMsgCb (state_of (DontSendOneDeal_SendDeals dealer_five))) = 4%nat.
Proof.
  split.
  - refine (proj1 (DontSendOneDeal_drops_last_or_panics dealer_five_no_key _ [] _ _ _)
              eq_refl); vm_compute; reflexivity.
  - pose proof (DontSendOneDeal_drops_last_or_panics dealer_five
                  (state_of (GetDeals dealer_five))
                  (fst (match GetDeals dealer_five with
                        | Returned r _ => r | Panicked _ _ => ([], None) end))
                  None eq_refl ltac:(vm_compute; reflexivity)) as [_ H].
    destruct H as [H _]; [vm_compute; discriminate | reflexivity |].
    rewrite H. vm_compute. reflexivity.
Defined.

Lemma Start_then_Transit_one_round_witness :
  exists (d1 : DKGDealer) (o : outcome DKGDealer (option error))
         (first : DKGData) (new : list DKGData),
    Start encode_Point base_Mul 5 (new_dealer three_addrs)
    = Returned None d1 /\
    Transit deal_mock_closure 8 d1 = Some o /\
    sendMsgCb (state_of o) = sendMsgCb (new_dealer three_addrs) ++ first :: new /\
    dd_Type first = DKGPubKey /\
    dd_RoundID first = 1.
Proof.
  pose proof (Start_then_Transit_one_round encode_Point base_Mul
                deal_mock_closure
                (fun id d => dealer_sends_any _ _ _ (sends_deal_mock_closure id d))
                5 8 (new_dealer three_addrs)) as H.
  eexists. eexists.
  specialize (H _ _ ltac:(vm_compute; reflexivity) ltac:(vm_compute; reflexivity)).
  destruct H as (first & new & Hs & Ht & Hall & _).
  exists first, new. split; [vm_compute; reflexivity|]. split; [vm_compute; reflexivity|].
  split; [exact Hs|]. split; [exact Ht|].
  apply Forall_cons in Hall as [[_ Hr] _]. exact Hr.
Defined.

Lemma Transit_waits_unchanged_witness :
  Transit deal_mock_closure 8 dealer_three_two_keys
  = Some (Returned None dealer_three_two_keys).
Proof.
  apply (Transit_waits_unchanged deal_mock_closure 7 dealer_three_two_keys
           dealer_three_two_keys tn_SendDeals
           [tn_ProcessDeals; tn_ProcessResponses; tn_ProcessJustifications;
            tn_ProcessCommits; tn_ProcessComplaints; tn_ProcessReconstructCommits]
           None).
  - intros id. discriminate.
  - reflexivity.
  - vm_compute. reflexivity.
Defined.

Lemma GetVerifier_threshold_close_to_deals_witness :
  exists v : BLSVerifier,
    GetVerifier dealer_five_finished = inl v /\
    bls_t v = 2 /\
    quot64 (mul64 (vs_Size (validators (dealerState dealer_five_finished))) 2) 3 = 3.
Proof.
  eexists. split; [vm_compute; reflexivity|].
  pose proof (GetVerifier_threshold_close_to_deals
                dealer_five_finished _ eq_refl
                ltac:(vm_compute; split; [discriminate | reflexivity])) as H.
  split; vm_compute; reflexivity.
Defined.

End DealerWitnesses.

(** * Further statements about the round state machine *)

Section ConsensusFrame.
Context `{T : Tendermint}.
Context {B : Type} (proj : BLSConsensusState -> B).

Lemma kf_get_cs : keeps_field proj get_cs.
Proof. intros cs. reflexivity. Qed.

Lemma kf_cs_Verifier : keeps_field proj cs_Verifier.
Proof. intros cs. unfold cs_Verifier. destruct (dkg cs); reflexivity. Qed.

Lemma kf_the_Verifier : keeps_field proj the_Verifier.
Proof.
  intros cs. unfold the_Verifier, bind, cs_Verifier.
  destruct (dkg cs) as [d|]; [|reflexivity]. destruct (dkg_Verifier d); reflexivity.
Qed.

Lemma kf_previous_RandomData : keeps_field proj previous_RandomData.
Proof. intros cs. unfold previous_RandomData. destruct (getPreviousBlock cs); reflexivity. Qed.

End ConsensusFrame.

(** One step of a frame proof on the round state. *)
Ltac kfc_step :=
  first
    [ solve [auto 1 with kf nocore]
    | assumption
    | apply kf_ret | apply kf_panic | apply kf_gets | apply kf_get_cs
    | apply kf_cs_Verifier | apply kf_the_Verifier | apply kf_previous_RandomData
    | apply kf_when
    | apply kf_defer
    | apply kf_modify; intros; reflexivity
    | apply kf_bind; [| intros ?]
    | match goal with
      | |- keeps_field _ (match ?x with _ => _ end) => destruct x
      end ].

Ltac kfc := repeat kfc_step.

Section ConsensusMore.
Context `{T : Tendermint}.
Variable F : StateFunctions.

Lemma signVote_round_state t h hd data : keeps_field round_state (signVote t h hd data).
Proof. unfold signVote. kfc. Qed.

Lemma signAddVote_round_state t h hd : keeps_field round_state (signAddVote t h hd).
Proof.
  pose proof signVote_round_state. unfold signAddVote, sendInternalMessage. kfc.
Qed.

Lemma signVote_queue t h hd data : keeps_field internalMsgQueue (signVote t h hd data).
Proof. unfold signVote. kfc. Qed.

(** X18. [signAddVote] queues what it returns: when it returns a vote, that
    vote, and nothing else, has been added to the internal message queue, with
    an empty peer id; when it returns nil or panics, the queue is as it was.
    In every case the round state (height, round, step, the votes, the
    proposal and the lock) is untouched. *)
Theorem signAddVote_queues_what_it_returns :
  forall (t : SignedMsgType) (hash : bytes) (header : PartSetHeader)
         (cs : BLSConsensusState),
    round_state (state_of (signAddVote t hash header cs)) = round_state cs /\
    match signAddVote t hash header cs with
    | Returned (Some v) cs1 =>
        internalMsgQueue cs1 = internalMsgQueue cs ++ [{| mi_Vote := v; mi_PeerID := "" |}]
    | Returned None cs1 => internalMsgQueue cs1 = internalMsgQueue cs
    | Panicked _ cs1 => internalMsgQueue cs1 = internalMsgQueue cs
    end.
Proof.
  intros t hash header cs. split; [apply signAddVote_round_state|].
  unfold signAddVote. unfold bind at 1. unfold get_cs at 1.
  destruct (privValidator cs) as [pv|]; [|reflexivity].
  destruct (negb (vs_HasAddress (Validators cs) (pv_Address pv))); [reflexivity|].
  unfold bind at 1. unfold cs_Verifier at 1.
  destruct (dkg cs) as [d|] eqn:Hd; [|reflexivity].
  destruct (dkg_Verifier d) as [ver|] eqn:Hv; [|reflexivity].
  unfold bind at 1.
  match goal with
  | |- match match ?c cs with _ => _ end with _ => _ end =>
      assert (keeps_field internalMsgQueue c) as Hrd by kfc;
      specialize (Hrd cs); destruct (c cs) as [[rd|] cs0|m cs0]; simpl in Hrd;
      [| exact Hrd | exact Hrd]
  end.
  unfold bind at 1.
  pose proof (signVote_queue t hash header rd cs0) as Hs.
  destruct (signVote t hash header rd cs0) as [[v [e|]] cs1|m cs1]; simpl in *;
    unfold ret; congruence.
Qed.

Lemma enterPrecommit_body_Height round : keeps_field Height (enterPrecommit_body round).
Proof.
  assert (forall t h hd, keeps_field Height (signAddVote t h hd)) as Hs.
  { intros t h hd cs. pose proof (signAddVote_round_state t h hd cs) as H.
    unfold round_state in H. congruence. }
  unfold enterPrecommit_body, publish. kfc.
Qed.

(** X19. [enterPrecommit] runs at most once for a height and round: after a
    call that passed the guard, however it ended, a second call with the same
    height and round is stopped by the guard; it changes nothing and signs
    nothing. *)
Theorem enterPrecommit_only_once :
  forall (height round : Z) (cs : BLSConsensusState),
    enterPrecommit_guard height round cs = false ->
    enterPrecommit height round (state_of (enterPrecommit height round cs))
    = Returned tt (state_of (enterPrecommit height round cs)).
Proof.
  intros height round cs Hguard.
  assert (enterPrecommit_guard height round (state_of (enterPrecommit height round cs))
          = true) as Hg1.
  { unfold enterPrecommit at 1. unfold bind at 1. unfold get_cs at 1. rewrite Hguard.
    pose proof (enterPrecommit_body_Height round cs) as HH.
    unfold enterPrecommit_guard in Hguard.
    apply orb_false_iff in Hguard as [Hguard _]. apply orb_false_iff in Hguard as [Hh _].
    apply negb_false_iff in Hh.
    unfold defer.
    destruct (enterPrecommit_body round cs) as [a s1|m s1]; simpl in HH;
      unfold bind, updateRoundStep, newStep, modify; simpl;
      unfold enterPrecommit_guard; simpl; rewrite HH, Hh, Z.eqb_refl; simpl;
      apply orb_true_r. }
  unfold enterPrecommit at 1. unfold bind at 1. unfold get_cs at 1. rewrite Hg1.
  reflexivity.
Qed.

(** X20. [enterCommit] without a 2/3 majority of precommits at the commit
    round: the check that panics is inside the function whose deferred closure
    recovers, so the call returns; the step is Commit and the commit round is
    set all the same, nothing is finalized, and the proposal, the lock and the
    message queue are as they were. *)
Theorem enterCommit_without_majority :
  forall (height commitRound : Z) (cs : BLSConsensusState),
    enterCommit_guard height cs = false ->
    voteset_TwoThirdsMajority (hvs_Precommits (Votes cs) commitRound) = None ->
    exists cs1 : BLSConsensusState,
      enterCommit F height commitRound cs = Returned tt cs1 /\
      Step cs1 = RoundStepCommit /\ CommitRound cs1 = commitRound /\
      CommitTime cs1 = tmtime_Now cs /\
      Height cs1 = Height cs /\ Round cs1 = Round cs /\
      ProposalBlock cs1 = ProposalBlock cs /\
      ProposalBlockParts cs1 = ProposalBlockParts cs /\
      LockedBlock cs1 = LockedBlock cs /\
      internalMsgQueue cs1 = internalMsgQueue cs.
Proof.
  intros height commitRound cs Hguard Hmaj.
  unfold enterCommit, bind at 1. unfold get_cs at 1. rewrite Hguard.
  unfold defer_recover, enterCommit_body. unfold bind at 1. unfold get_cs at 1.
  rewrite Hmaj. unfold panic. unfold bind at 1. unfold ret at 1.
  unfold enterCommit_deferred, tryFinalizeCommit, bind, get_cs, updateRoundStep, newStep,
    modify. simpl.
  unfold enterCommit_guard in Hguard. apply orb_false_iff in Hguard as [Hh _].
  apply negb_false_iff in Hh. rewrite Hh. simpl. rewrite Hmaj.
  eexists. split; [reflexivity|]. simpl. repeat split.
Qed.

(** X21. [tryAddVote] returns one of three errors: the height mismatch and
    the conflicting votes as [addVote] returned them, and [ErrAddingVote] in
    place of every other error. *)
Theorem tryAddVote_returns_three_errors :
  forall (vote : Vote) (peerID : string) (cs cs1 : BLSConsensusState)
         (added : bool) (e : error),
    tryAddVote F vote peerID cs = Returned (added, Some e) cs1 ->
    e = ErrVoteHeightMismatch \/ (exists ev, e = ErrVoteConflictingVotes ev) \/
    e = ErrAddingVote.
Proof.
  intros vote peerID cs cs1 added e. unfold tryAddVote, bind.
  destruct (addVote F vote peerID cs) as [[a [err|]] cs0|m cs0]; [| |discriminate].
  - destruct err; simpl; unfold ret, get_cs, modify;
      try (intros H; injection H as <- <- <-; auto; fail).
    destruct (privValidator cs0) as [pv|]; [|discriminate].
    destruct (bytes_Equal (vote_ValidatorAddress vote) (pv_Address pv));
      intros H; injection H as <- <- <-; eauto.
  - discriminate.
Qed.

(** X22. A precommit of the current height whose random share the verifier
    refuses is not added: [addVote] returns before the vote set sees the vote,
    nothing is published and the state is as it was; [tryAddVote] answers
    [ErrAddingVote]. *)
Theorem tryAddVote_refuses_bad_share :
  forall (vote : Vote) (peerID : string) (cs : BLSConsensusState)
         (d : DKG) (ver : Verifier) (prev : Block) (err : error),
    vote_Height vote = Height cs ->
    add64 (vote_Height vote) 1 <> Height cs ->
    vote_Type vote = PrecommitType ->
    getPreviousBlock cs = Some prev ->
    dkg cs = Some d ->
    dkg_Verifier d = Some ver ->
    ver_VerifyRandomShare ver (vote_ValidatorAddress vote) (block_RandomData prev)
      (vote_BLSSignature vote) = Some err ->
    tryAddVote F vote peerID cs = Returned (false, Some ErrAddingVote) cs.
Proof.
  intros vote peerID cs d ver prev err Hh Hh1 Ht Hprev Hd Hv Hshare.
  unfold tryAddVote, addVote. unfold bind at 1. unfold bind at 1. unfold get_cs at 1.
  apply Z.eqb_neq in Hh1. rewrite Hh1. rewrite Hh, Z.eqb_refl. simpl.
  unfold addVote_current. rewrite Ht. simpl.
  unfold bind, previous_RandomData, the_Verifier, cs_Verifier, bind, ret.
  rewrite Hprev, Hd, Hv, Hshare. reflexivity.
Qed.

End ConsensusMore.

Section ConsensusWitnesses.
#[local] Existing Instance scripted_tendermint.

Lemma enterCommit_without_majority_witness :
  exists cs1 : BLSConsensusState,
    enterCommit quiet_functions 2 0 machine_precommit = Returned tt cs1 /\
    Step cs1 = RoundStepCommit /\ CommitRound cs1 = 0 /\
    CommitTime cs1 = tmtime_Now machine_precommit /\
    Height cs1 = Height machine_precommit /\ Round cs1 = Round machine_precommit /\
    ProposalBlock cs1 = ProposalBlock machine_precommit /\
    ProposalBlockParts cs1 = ProposalBlockParts machine_precommit /\
    LockedBlock cs1 = LockedBlock machine_precommit /\
    internalMsgQueue cs1 = internalMsgQueue machine_precommit.
Proof.
  apply (enterCommit_without_majority quiet_functions 2 0 machine_precommit); reflexivity.
Defined.

Lemma tryAddVote_refuses_bad_share_witness :
  tryAddVote quiet_functions (precommit_of 1 (addr_of Byte.x02) 2 hash_B) "" machine_prevote
  = Returned (false, Some ErrAddingVote) machine_prevote.
Proof.
  apply (tryAddVote_refuses_bad_share quiet_functions
           (precommit_of 1 (addr_of Byte.x02) 2 hash_B) "" machine_prevote
           dkg_checking_shares checking_shares
           {| sb_hash := [Byte.x0a]; sb_random := [Byte.x2a] |} (ErrorNew "bad share"));
    try reflexivity.
  vm_compute. discriminate.
Defined.

Lemma tryAddVote_returns_three_errors_witness :
  tryAddVote quiet_functions (precommit_of 2 (addr_of Byte.x03) 7 hash_A) ""
    machine_new_height
  = Returned (false, Some ErrVoteHeightMismatch) machine_new_height /\
  (ErrVoteHeightMismatch = ErrVoteHeightMismatch \/
   (exists ev, ErrVoteHeightMismatch = ErrVoteConflictingVotes ev) \/
   ErrVoteHeightMismatch = ErrAddingVote).
Proof.
  assert (tryAddVote quiet_functions (precommit_of 2 (addr_of Byte.x03) 7 hash_A) ""
            machine_new_height
          = Returned (false, Some ErrVoteHeightMismatch) machine_new_height) as H
    by (vm_compute; reflexivity).
  split; [exact H|].
  exact (tryAddVote_returns_three_errors quiet_functions _ _ _ _ _ _ H).
Defined.

Lemma enterPrecommit_only_once_witness :
  enterPrecommit 2 0 (state_of (enterPrecommit 2 0 (machine_polka true)))
  = Returned tt (state_of (enterPrecommit 2 0 (machine_polka true))).
Proof. exact (enterPrecommit_only_once 2 0 (machine_polka true) eq_refl). Defined.

End ConsensusWitnesses.

Section ProposalStatements.
Context `{T : Tendermint}.
Variable ErrInvalidProposalPOLRound : error.
Variable ErrInvalidProposalSignature : error.
Variable proposal_signed : BLSConsensusState -> types_Proposal -> option bool.

(** X23. What [defaultSetProposal] stores: it never replaces a proposal it
    holds, and it takes a new one only if it is for the current height and
    round, its POL round is -1 or in [0, round), and its signature verifies.
    Then the proposal's part set is there to be filled: the one at hand if
    there is one, a new one of the proposal's header if not.  On every other
    path, the panic on a set without proposer included, the state is as it
    was. *)
Theorem defaultSetProposal_stores_checked_proposals :
  forall (proposal : types_Proposal) (cs : BLSConsensusState),
    let o := defaultSetProposal ErrInvalidProposalPOLRound ErrInvalidProposalSignature
               proposal_signed proposal cs in
    state_of o = cs \/
    (o = Returned None (state_of o) /\ Proposal cs = None /\
     prop_Height proposal = Height cs /\ prop_Round proposal = Round cs /\
     (prop_POLRound proposal = -1 \/ 0 <= prop_POLRound proposal < prop_Round proposal) /\
     proposal_signed cs proposal = Some true /\
     state_of o
     = set_ProposalBlockParts
         (match ProposalBlockParts cs with
          | Some parts => Some parts
          | None => Some (NewPartSetFromHeader (bid_PartsHeader (prop_BlockID proposal)))
          end)
         (set_Proposal (Some proposal) cs)).
Proof.
  intros proposal cs o. subst o.
  unfold defaultSetProposal, bind, get_cs, ret, modify, panic.
  destruct (Proposal cs) as [p|] eqn:Hp; [auto|].
  destruct (Z.eqb_spec (prop_Height proposal) (Height cs)) as [Hh|Hh]; simpl; [|auto].
  destruct (Z.eqb_spec (prop_Round proposal) (Round cs)) as [Hr|Hr]; simpl; [|auto].
  destruct (Z.ltb_spec (prop_POLRound proposal) (-1)) as [Hlow|Hlow]; simpl; [auto|].
  assert (((0 <=? prop_POLRound proposal)
           && (prop_Round proposal <=? prop_POLRound proposal)) = false ->
          prop_POLRound proposal = -1 \/
          0 <= prop_POLRound proposal < prop_Round proposal) as Hpol.
  { intros Hb.
    destruct (Z.leb_spec 0 (prop_POLRound proposal)) as [Hnn|Hneg]; simpl in Hb; [|lia].
    apply Z.leb_gt in Hb. lia. }
  destruct ((0 <=? prop_POLRound proposal)
            && (prop_Round proposal <=? prop_POLRound proposal)); [auto|].
  specialize (Hpol eq_refl).
  destruct (proposal_signed cs proposal) as [[|]|] eqn:Hs; simpl; auto.
  destruct (ProposalBlockParts cs) as [parts|] eqn:Hparts; simpl; right;
    repeat split; auto.
  destruct cs; simpl in *; subst; reflexivity.
Qed.

End ProposalStatements.

Section StepStatements.
Context `{T : Tendermint}.
Variable block_Hash : Block -> bytes.
Variable partset_Header : option PartSet -> PartSetHeader.

Lemma not_before_refl (cs : BLSConsensusState) : not_before cs cs.
Proof. right. split; [reflexivity | lia]. Qed.

Lemma defaultDoPrevote_round_state (height round : Z) :
  keeps_field round_state (Prevote.defaultDoPrevote block_Hash partset_Header height round).
Proof.
  pose proof signAddVote_round_state. unfold Prevote.defaultDoPrevote. kfc.
Qed.

(** X24. Within a height the state never goes back: whatever [enterPrevote]
    and [enterPrecommit] are called with and however they end, the round and
    step they leave are not before those they found, the round first and then
    the step; a call that passes the guard moves strictly forward, to the
    step it is named after in the round it was given. *)
Theorem steps_never_go_back :
  forall (height round : Z) (cs : BLSConsensusState),
    (not_before cs
       (state_of (Prevote.enterPrevote block_Hash partset_Header height round cs)) /\
     (Prevote.enterPrevote_guard height round cs = false ->
      Round (state_of (Prevote.enterPrevote block_Hash partset_Header height round cs))
      = round /\
      Step (state_of (Prevote.enterPrevote block_Hash partset_Header height round cs))
      = RoundStepPrevote /\
      (Round cs < round \/ step_byte (Step cs) < step_byte RoundStepPrevote))) /\
    (not_before cs (state_of (enterPrecommit height round cs)) /\
     (enterPrecommit_guard height round cs = false ->
      Round (state_of (enterPrecommit height round cs)) = round /\
      Step (state_of (enterPrecommit height round cs)) = RoundStepPrecommit /\
      (Round cs < round \/ step_byte (Step cs) < step_byte RoundStepPrecommit))).
Proof.
  intros height round cs.
  assert (forall (target : RoundStepType) (body : C unit) (g : bool),
            (g = false ->
             (round <? Round cs) || ((Round cs =? round) && step_leb target (Step cs))
             = false) ->
            let o := (if g then ret tt
                      else defer body (bind (updateRoundStep round target)
                                            (fun _ => newStep))) cs in
            not_before cs (state_of o) /\
            (g = false ->
             Round (state_of o) = round /\ Step (state_of o) = target /\
             (Round cs < round \/ step_byte (Step cs) < step_byte target))) as Hgen.
  { intros target body g Hg o. subst o. destruct g.
    - split; [apply not_before_refl | discriminate].
    - specialize (Hg eq_refl).
      assert (Round (state_of (defer body (bind (updateRoundStep round target)
                                                (fun _ => newStep)) cs)) = round /\
              Step (state_of (defer body (bind (updateRoundStep round target)
                                               (fun _ => newStep)) cs)) = target)
        as [HR HS].
      { unfold defer, bind, updateRoundStep, newStep, modify.
        destruct (body cs); simpl; split; reflexivity. }
      apply orb_false_iff in Hg as [Hr Hs]. apply Z.ltb_ge in Hr. unfold step_leb in Hs.
      unfold not_before. rewrite HR, HS.
      destruct (Z.eqb_spec (Round cs) round) as [Heq|Hne]; simpl in Hs.
      + apply Z.leb_gt in Hs. split; [right; split; [congruence | lia]|].
        intros _. repeat split. right. exact Hs.
      + split; [left; lia|]. intros _. repeat split. left. lia. }
  split.
  - change (Prevote.enterPrevote block_Hash partset_Header height round cs)
      with ((if Prevote.enterPrevote_guard height round cs then ret tt
             else defer (Prevote.defaultDoPrevote block_Hash partset_Header height round)
                        (bind (updateRoundStep round RoundStepPrevote)
                              (fun _ => newStep))) cs).
    apply (Hgen RoundStepPrevote
             (Prevote.defaultDoPrevote block_Hash partset_Header height round)
             (Prevote.enterPrevote_guard height round cs)).
    unfold Prevote.enterPrevote_guard. intros Hg.
    apply orb_false_iff in Hg as [Hg Hs]. apply orb_false_iff in Hg as [_ Hr].
    rewrite Hr, Hs. reflexivity.
  - change (enterPrecommit height round cs)
      with ((if enterPrecommit_guard height round cs then ret tt
             else defer (enterPrecommit_body round)
                        (bind (updateRoundStep round RoundStepPrecommit)
                              (fun _ => newStep))) cs).
    apply (Hgen RoundStepPrecommit (enterPrecommit_body round)
             (enterPrecommit_guard height round cs)).
    unfold enterPrecommit_guard. intros Hg.
    apply orb_false_iff in Hg as [Hg Hs]. apply orb_false_iff in Hg as [_ Hr].
    rewrite Hr, Hs. reflexivity.
Qed.

(** X25. A locked node prevotes its lock, and [enterPrevote] touches
    neither lock nor proposal.  Past the guard, with a locked block, the call
    is the prevote for the locked block's hash and the header of the locked
    parts, followed by the step: the proposal block is not looked at and
    [ValidateBlock] is not asked.  The height, the votes, the proposal with
    its block and parts, the lock and the valid block are left as they
    were. *)
Theorem enterPrevote_prevotes_the_lock :
  forall (height round : Z) (cs : BLSConsensusState) (locked : Block),
    Prevote.enterPrevote_guard height round cs = false ->
    LockedBlock cs = Some locked ->
    Prevote.enterPrevote block_Hash partset_Header height round cs
    = defer (bind (signAddVote PrevoteType (block_Hash locked)
                     (partset_Header (LockedBlockParts cs))) (fun _ => ret tt))
            (bind (updateRoundStep round RoundStepPrevote) (fun _ => newStep)) cs /\
    (let cs1 := state_of (Prevote.enterPrevote block_Hash partset_Header height round cs) in
     Height cs1 = Height cs /\ Votes cs1 = Votes cs /\
     Proposal cs1 = Proposal cs /\ ProposalBlock cs1 = ProposalBlock cs /\
     ProposalBlockParts cs1 = ProposalBlockParts cs /\
     LockedRound cs1 = LockedRound cs /\ LockedBlock cs1 = LockedBlock cs /\
     LockedBlockParts cs1 = LockedBlockParts cs /\
     ValidRound cs1 = ValidRound cs /\ ValidBlock cs1 = ValidBlock cs).
Proof.
  intros height round cs locked Hg Hl. split.
  - unfold Prevote.enterPrevote. unfold bind at 1. unfold get_cs at 1.
    rewrite Hg. unfold defer, Prevote.defaultDoPrevote. unfold bind at 1. unfold get_cs at 1.
    rewrite Hl. reflexivity.
  - cbv zeta.
    assert (keeps_field
              (fun cs => (Height cs, Votes cs, Proposal cs, ProposalBlock cs,
                          ProposalBlockParts cs, LockedRound cs, LockedBlock cs,
                          LockedBlockParts cs, ValidRound cs, ValidBlock cs))
              (Prevote.enterPrevote block_Hash partset_Header height round)) as Hk.
    { assert (keeps_field
                (fun cs => (Height cs, Votes cs, Proposal cs, ProposalBlock cs,
                            ProposalBlockParts cs, LockedRound cs, LockedBlock cs,
                            LockedBlockParts cs, ValidRound cs, ValidBlock cs))
                (Prevote.defaultDoPrevote block_Hash partset_Header height round)) as Hd.
      { intros s. pose proof (defaultDoPrevote_round_state height round s) as H.
        unfold round_state in H. congruence. }
      unfold Prevote.enterPrevote, updateRoundStep, newStep. kfc. }
    specialize (Hk cs). simpl in Hk. injection Hk as -> -> -> -> -> -> -> -> -> ->.
    repeat split.
Qed.

End StepStatements.

Section StepWitnesses.
#[local] Existing Instance scripted_tendermint.

Lemma enterPrevote_prevotes_the_lock_witness :
  Prevote.enterPrevote scripted_Hash scripted_Header 2 0 machine_locked
  = defer (bind (signAddVote PrevoteType hash_A header_B) (fun _ => ret tt))
          (bind (updateRoundStep 0 RoundStepPrevote) (fun _ => newStep)) machine_locked /\
  LockedBlock (state_of (Prevote.enterPrevote scripted_Hash scripted_Header 2 0
                           machine_locked))
  = Some block_A.
Proof.
  pose proof (enterPrevote_prevotes_the_lock scripted_Hash scripted_Header 2 0
                machine_locked block_A eq_refl eq_refl) as [H1 H2].
  split; [exact H1|]. cbv zeta in H2. apply H2.
Defined.

End StepWitnesses.

(** * Statements about the validator updates *)

(** X26. [validateValidatorUpdates] returns no error exactly for the lists
    in which every update has a power that is not negative and, unless the
    power is 0, a key type the parameters allow; an update of power 0 removes
    a validator and passes whatever its key type. *)
Theorem validateValidatorUpdates_accepts :
  forall (abciUpdates : list ValidatorUpdate) (IsValidPubkeyType : string -> bool),
    validateValidatorUpdates abciUpdates IsValidPubkeyType = None <->
    Forall (valid_update IsValidPubkeyType) abciUpdates.
Proof.
  intros abciUpdates ok. induction abciUpdates as [|u rest IH]; simpl.
  - split; [constructor | reflexivity].
  - unfold valid_update at 1. rewrite Forall_cons.
    destruct (Z.ltb_spec (vu_Power u) 0) as [Hneg|Hnn].
    + split; [discriminate | intros [[H _] _]; lia].
    + destruct (Z.eqb_spec (vu_Power u) 0) as [Hz|Hnz].
      * rewrite IH. split; [intros H; repeat split; auto; lia | intros [_ H]; exact H].
      * destruct (ok (vu_KeyType u)) eqn:Hok; simpl.
        -- rewrite IH. split; [intros H; repeat split; auto | intros [_ H]; exact H].
        -- split; [discriminate | intros [[_ [H|H]] _]; [contradiction | discriminate]].
Qed.

Section ValidatorUpdateStatements.
Variable ValSet : Type.
Variable valset_GetByAddress : ValSet -> bytes -> option types_Validator.
Variable valset_Remove : ValSet -> bytes -> ValSet * bool.
Variable valset_Add : ValSet -> types_Validator -> ValSet * bool.
Variable valset_Update : ValSet -> types_Validator -> ValSet * bool.
Variable valset_TotalVotingPower : ValSet -> Z.
Variable MaxTotalVotingPower : Z.

Lemma overflow_exact (x : Z) :
  0 <= MaxTotalVotingPower < 2 ^ 63 ->
  - 2 ^ 63 <= x < 2 ^ 64 ->
  0 <= x ->
  overflow MaxTotalVotingPower (wrap64 x) = false <-> x <= MaxTotalVotingPower.
Proof.
  intros HM Hx Hx0. unfold overflow.
  destruct (Z_lt_dec x (2 ^ 63)) as [Hsmall|Hbig].
  - rewrite wrap64_small by (unfold in_int64; lia).
    rewrite orb_false_iff, Z.ltb_ge, Z.ltb_ge. lia.
  - assert (wrap64 x = x - 2 ^ 64) as ->.
    { unfold wrap64. replace (x + 2 ^ 63) with ((x - 2 ^ 63) + 1 * 2 ^ 64) by lia.
      rewrite Z.mod_add by lia. rewrite Z.mod_small by lia. lia. }
    split; [|lia]. rewrite orb_false_iff, Z.ltb_ge, Z.ltb_ge. lia.
Qed.

(** X27. The test of [updateValidators] against the maximum total power is
    exact, although it is made on an int64 sum that may wrap.  With the flag
    [isVotingPowerEqual] off, a set whose total power is within the maximum
    and an update of positive power: a new validator is refused with the set
    untouched exactly when the total with its power would exceed the maximum,
    and otherwise handed to [Add] with the proposer priority
    -(total + total/8); a known validator is refused exactly when the total
    with its power in place of the old would exceed the maximum, and
    otherwise handed to [Update]. *)
Theorem updateValidators_bound_is_exact :
  forall (currentSet : ValSet) (valUpdate : types_Validator) (rest : list types_Validator),
    0 <= MaxTotalVotingPower < 2 ^ 63 ->
    0 <= valset_TotalVotingPower currentSet <= MaxTotalVotingPower ->
    0 < tv_VotingPower valUpdate < 2 ^ 63 ->
    let run := updateValidators ValSet valset_GetByAddress valset_Remove valset_Add
                 valset_Update valset_TotalVotingPower MaxTotalVotingPower in
    let total := valset_TotalVotingPower currentSet in
    match valset_GetByAddress currentSet (tv_Address valUpdate) with
    | None =>
        if Z_le_dec (total + tv_VotingPower valUpdate) MaxTotalVotingPower then
          run currentSet (valUpdate :: rest) false
          = (let r := valset_Add currentSet
                        (set_ProposerPriority (new_ProposerPriority total) valUpdate) in
             if snd r then run (fst r) rest false
             else (fst r, Some (ErrorNew "Failed to add new validator")))
        else
          exists e, run currentSet (valUpdate :: rest) false = (currentSet, Some e)
    | Some val =>
        0 <= tv_VotingPower val <= total ->
        if Z_le_dec (total - tv_VotingPower val + tv_VotingPower valUpdate)
                    MaxTotalVotingPower then
          run currentSet (valUpdate :: rest) false
          = (let r := valset_Update currentSet valUpdate in
             if snd r then run (fst r) rest false
             else (fst r, Some (ErrorNew "Failed to update validator")))
        else
          exists e, run currentSet (valUpdate :: rest) false = (currentSet, Some e)
    end.
Proof.
  intros currentSet valUpdate rest HM Htotal Hpower run total. subst run total.
  simpl.
  assert ((tv_VotingPower valUpdate <? 0) = false) as -> by (apply Z.ltb_ge; lia).
  assert ((tv_VotingPower valUpdate =? 0) = false) as -> by (apply Z.eqb_neq; lia).
  simpl.
  destruct (valset_GetByAddress currentSet (tv_Address valUpdate)) as [val|].
  - intros Hval. unfold add64, sub64.
    rewrite (wrap64_small (valset_TotalVotingPower currentSet - tv_VotingPower val))
      by (unfold in_int64; lia).
    pose proof (overflow_exact
                  (valset_TotalVotingPower currentSet - tv_VotingPower val
                   + tv_VotingPower valUpdate) HM ltac:(lia) ltac:(lia)) as Hex.
    destruct (Z_le_dec _ MaxTotalVotingPower) as [Hle|Hgt].
    + apply Hex in Hle. rewrite Hle.
      destruct (valset_Update currentSet valUpdate) as [s' []]; reflexivity.
    + match goal with
      | |- context [overflow MaxTotalVotingPower ?x] =>
          assert (overflow MaxTotalVotingPower x = true) as ->
            by (apply not_false_iff_true; intros Ho; apply Hex in Ho; contradiction)
      end.
      eauto.
  - unfold add64.
    pose proof (overflow_exact
                  (tv_VotingPower valUpdate + valset_TotalVotingPower currentSet)
                  HM ltac:(lia) ltac:(lia)) as Hex.
    destruct (Z_le_dec _ MaxTotalVotingPower) as [Hle|Hgt].
    + assert (tv_VotingPower valUpdate + valset_TotalVotingPower currentSet
              <= MaxTotalVotingPower) as Hle' by lia.
      apply Hex in Hle'. rewrite Hle'.
      destruct (valset_Add currentSet _) as [s' []]; reflexivity.
    + match goal with
      | |- context [overflow MaxTotalVotingPower ?x] =>
          assert (overflow MaxTotalVotingPower x = true) as ->
            by (apply not_false_iff_true; intros Ho; apply Hex in Ho; lia)
      end.
      eauto.
Qed.

(** X28. With the flag [isVotingPowerEqual] on, [updateValidators] makes
    none of its checks on the power and removes nobody: for every list of
    updates its outcome is the same whatever [Remove] would do, whatever the
    total voting power is and whatever the maximum.  An update of power 0, of
    negative power or of a power past the maximum goes to [Add] or [Update]
    like any other. *)
Theorem updateValidators_equal_power_checks_nothing :
  forall (Remove' : ValSet -> bytes -> ValSet * bool)
         (TotalVotingPower' : ValSet -> Z) (MaxTotalVotingPower' : Z)
         (updates : list types_Validator) (currentSet : ValSet),
    updateValidators ValSet valset_GetByAddress valset_Remove valset_Add
      valset_Update valset_TotalVotingPower MaxTotalVotingPower currentSet updates true
    = updateValidators ValSet valset_GetByAddress Remove' valset_Add
        valset_Update TotalVotingPower' MaxTotalVotingPower' currentSet updates true.
Proof.
  intros Remove' Total' Max' updates.
  induction updates as [|valUpdate rest IH]; intros currentSet; simpl; [reflexivity|].
  destruct (valset_GetByAddress currentSet (tv_Address valUpdate)) as [val|]; simpl.
  - destruct (valset_Update currentSet valUpdate) as [s' []]; simpl; [apply IH | reflexivity].
  - destruct (valset_Add currentSet valUpdate) as [s' []]; simpl; [apply IH | reflexivity].
Qed.

End ValidatorUpdateStatements.

Lemma updateValidators_bound_is_exact_witness :
  exists e,
    updateValidators (list types_Validator) scripted_GetByAddress scripted_Remove
      scripted_Add scripted_Update scripted_TotalVotingPower 1000
      [validator_of Byte.x01 600] [validator_of Byte.x02 401] false
    = ([validator_of Byte.x01 600], Some e).
Proof.
  assert (0 <= 1000 < 2 ^ 63) as HM by lia.
  assert (0 <= scripted_TotalVotingPower [validator_of Byte.x01 600] <= 1000) as Ht
    by (vm_compute; split; discriminate).
  assert (0 < tv_VotingPower (validator_of Byte.x02 401) < 2 ^ 63) as Hp
    by (simpl; lia).
  pose proof (updateValidators_bound_is_exact (list types_Validator) scripted_GetByAddress
                scripted_Remove scripted_Add scripted_Update scripted_TotalVotingPower 1000
                [validator_of Byte.x01 600] (validator_of Byte.x02 401) [] HM Ht Hp) as H.
  cbv zeta in H.
  change (scripted_GetByAddress [validator_of Byte.x01 600]
            (tv_Address (validator_of Byte.x02 401))) with (@None types_Validator) in H.
  cbv iota in H.
  destruct (Z_le_dec _ 1000) as [Hle|_] in H; [vm_compute in Hle; contradiction|].
  exact H.
Defined.
